(** * Lead intake and lifecycle pipeline of the portfolio backend

    A shallow embedding of the request validation
    ([app/utils/validation.py], [app/schemas/cv_request.py]), the intake
    and status endpoints ([app/api/endpoints/cv_request.py]), the lead
    store ([app/services/lead_service.py]), the admin endpoints
    ([app/api/endpoints/admin.py]) and the notification dispatcher
    ([app/services/email_service.py]).

    Conventions of the embedding.
    - A Python [str] is a [string]; a character is an 8-bit code point
      (Latin-1), on which [\d] is exactly [0-9] and the case-insensitive
      comparison of the ASCII letters of a pattern is ASCII case folding.
    - A Python [int] is a [Z]; [len] is a [nat].
    - [re] patterns are regular-expression terms, matched by derivatives.
    - The [leads] table is the list of its rows; a SQL statement is
      modelled by its meaning on that list, with PostgreSQL's rules for
      [LIMIT]/[OFFSET] and for the primary key. A statement is given the
      names of the [values] dictionary it is executed with: the database
      layer refuses a dictionary that holds a name the text of the
      statement does not use, and the driver refuses, for the column [id]
      of type [UUID], a text that is not the text of a UUID.
    - The identifier of a row is a text, the text of its UUID, and
      identifiers are compared as texts; another spelling of the UUID of a
      stored row (upper case, no hyphens) is not told from an unknown
      identifier.
    - What the database decides by itself (the order of rows with equal
      sort keys, its arithmetic on timestamps) and each reading of the
      clock are given from outside ([Database], [Env]).
    - Logging, the rate limit of the intake endpoint and the
      authentication of the admin endpoints are outside the model.
    - Exceptions are values of [Exn]; a computation of the services
      returns an exception or a value together with the world it leaves
      behind (an exception does not undo the effects before it). *)

From Stdlib Require Import ZArith List String Ascii Bool Arith Lia.
From Stdlib Require Import Permutation Sorted.
From Stdlib Require QArith.
Import ListNotations.

Set Implicit Arguments.

(** ** Strings *)

Definition chars (s : string) : list ascii := list_ascii_of_string s.
Definition str (l : list ascii) : string := string_of_list_ascii l.

Definition code (c : ascii) : nat := nat_of_ascii c.

Definition in_range (lo hi : nat) (c : ascii) : bool :=
  (lo <=? code c)%nat && (code c <=? hi)%nat.

(** [\d] *)
Definition is_digit (c : ascii) : bool := in_range 48 57 c.
(** [a-z], [A-Z] *)
Definition is_lower (c : ascii) : bool := in_range 97 122 c.
Definition is_upper (c : ascii) : bool := in_range 65 90 c.
Definition is_alpha (c : ascii) : bool := is_lower c || is_upper c.

Definition is_char (a : ascii) (c : ascii) : bool := Ascii.eqb a c.

(** Characters removed by [str.strip()]: the code points below 256 on
    which [str.isspace()] holds. *)
Definition is_space (c : ascii) : bool :=
  in_range 9 13 c || in_range 28 32 c
  || (code c =? 133)%nat || (code c =? 160)%nat.

#[global] Arguments is_char : simpl never.
#[global] Arguments is_digit : simpl never.
#[global] Arguments is_space : simpl never.

Definition to_lower (c : ascii) : ascii :=
  if is_upper c then ascii_of_nat (code c + 32) else c.

Fixpoint lstrip (l : list ascii) : list ascii :=
  match l with
  | c :: l' => if is_space c then lstrip l' else l
  | [] => []
  end.

Definition rstrip (l : list ascii) : list ascii := rev (lstrip (rev l)).

(** [s.strip()] *)
Definition strip (s : string) : string := str (rstrip (lstrip (chars s))).

(** [len(s)] *)
Definition len (s : string) : nat := List.length (chars s).

(** Truth value of a [str]: the empty string is false. *)
Definition truthy (s : string) : bool := negb (String.eqb s "").

(** Truth value of an [Optional[str]]. *)
Definition truthy_opt (o : option string) : bool :=
  match o with Some s => truthy s | None => false end.

(** [o or ''] *)
Definition or_empty (o : option string) : string :=
  match o with Some s => if truthy s then s else ""%string | None => ""%string end.

(** [c.lower()] on the code points below 256: the capitals are those of
    ASCII and those of Latin-1, U+00C0 to U+00DE without the
    multiplication sign. *)
Definition py_lower (c : ascii) : ascii :=
  if is_upper c || in_range 192 214 c || in_range 216 222 c
  then ascii_of_nat (code c + 32)
  else c.

(** [s.lower()] *)
Definition lower (s : string) : string := str (map py_lower (chars s)).

(** [l[:n]]: a negative [n] counts from the end. *)
Definition slice_to (n : Z) (l : list ascii) : list ascii :=
  if (0 <=? n)%Z
  then firstn (Z.to_nat n) l
  else firstn (List.length l - Z.to_nat (- n)) l.

(** [l] starts with [p]; [p] occurs in [l]. *)
Fixpoint starts_with (p l : list ascii) : bool :=
  match p, l with
  | [], _ => true
  | a :: p', b :: l' => Ascii.eqb a b && starts_with p' l'
  | _ :: _, [] => false
  end.

Fixpoint contains (p l : list ascii) : bool :=
  starts_with p l
  || match l with
     | [] => false
     | _ :: l' => contains p l'
     end.

(** ** Regular expressions *)

Module Re.

Inductive re : Type :=
| Void
| Eps
| Cls (p : ascii -> bool)
| Cat (r1 r2 : re)
| Alt (r1 r2 : re)
| Star (r : re).

Fixpoint nullable (r : re) : bool :=
  match r with
  | Void => false
  | Eps => true
  | Cls _ => false
  | Cat r1 r2 => nullable r1 && nullable r2
  | Alt r1 r2 => nullable r1 || nullable r2
  | Star _ => true
  end.

Fixpoint deriv (c : ascii) (r : re) : re :=
  match r with
  | Void => Void
  | Eps => Void
  | Cls p => if p c then Eps else Void
  | Cat r1 r2 =>
      if nullable r1
      then Alt (Cat (deriv c r1) r2) (deriv c r2)
      else Cat (deriv c r1) r2
  | Alt r1 r2 => Alt (deriv c r1) (deriv c r2)
  | Star r1 => Cat (deriv c r1) (Star r1)
  end.

(** The whole of [s] is a word of [r]. *)
Fixpoint fullmatch (r : re) (s : list ascii) : bool :=
  match s with
  | [] => nullable r
  | c :: s' => fullmatch (deriv c r) s'
  end.

(** Derived forms. *)
Definition Opt (r : re) : re := Alt Eps r.
Definition Plus (r : re) : re := Cat r (Star r).

(** [r{n}] *)
Fixpoint Rep (n : nat) (r : re) : re :=
  match n with
  | O => Eps
  | S n' => Cat r (Rep n' r)
  end.

(** [r{0,k}] *)
Fixpoint UpTo (k : nat) (r : re) : re :=
  match k with
  | O => Eps
  | S k' => Opt (Cat r (UpTo k' r))
  end.

(** [r{n,m}] *)
Definition Range (n m : nat) (r : re) : re := Cat (Rep n r) (UpTo (m - n) r).

(** [r{n,}] *)
Definition AtLeast (n : nat) (r : re) : re := Cat (Rep n r) (Star r).

(** A literal character. *)
Definition Chr (a : ascii) : re := Cls (is_char a).

(** Literals under [re.IGNORECASE]. *)
Definition ChrI (a : ascii) : re :=
  Cls (fun c => Ascii.eqb (to_lower a) (to_lower c)).

Fixpoint LitI (l : list ascii) : re :=
  match l with
  | [] => Eps
  | a :: l' => Cat (ChrI a) (LitI l')
  end.

(** [.] without [re.DOTALL]: any character but a newline. *)
Definition Dot : re := Cls (fun c => negb (code c =? 10)%nat).
Definition Any : re := Cls (fun _ => true).

(** [re.match('^' r '$', s)]: [$] holds at the end of the string and
    just before a newline that ends the string. *)
Definition ends_with_newline (s : list ascii) : bool :=
  match rev s with
  | c :: _ => (code c =? 10)%nat
  | [] => false
  end.

Definition match_anchored (r : re) (s : string) : bool :=
  fullmatch r (chars s)
  || (ends_with_newline (chars s) && fullmatch r (removelast (chars s))).

(** [re.search(r, s)]: some substring of [s] is a word of [r]. *)
Definition search (r : re) (s : string) : bool :=
  fullmatch (Cat (Star Any) (Cat r (Star Any))) (chars s).

(** [re.sub('[' cls ']', '', s)] for a one-character class [cls]. *)
Definition sub_delete (cls : ascii -> bool) (s : string) : string :=
  str (filter (fun c => negb (cls c)) (chars s)).

(** Words of a regular expression. *)
Inductive matches : re -> list ascii -> Prop :=
| MEps : matches Eps []
| MCls p c : p c = true -> matches (Cls p) [c]
| MCat r1 r2 s1 s2 :
    matches r1 s1 -> matches r2 s2 -> matches (Cat r1 r2) (s1 ++ s2)
| MAltL r1 r2 s : matches r1 s -> matches (Alt r1 r2) s
| MAltR r1 r2 s : matches r2 s -> matches (Alt r1 r2) s
| MStar0 r : matches (Star r) []
| MStarS r s1 s2 :
    matches r s1 -> matches (Star r) s2 -> matches (Star r) (s1 ++ s2).

End Re.

(** ** Exceptions and computations *)

Inductive Exn : Type :=
| HTTPException (status_code : Z) (detail : string)
| ZeroDivisionError
| AttributeError
| UniqueViolationError
| InvalidRowCountError
| OSError
| SMTPException
| ArgumentError
| DataError.

(** A pure computation that may raise. *)
Definition Raises (A : Type) : Type := (Exn + A)%type.

(** ** Request schema: [app/schemas/cv_request.py] *)

Module CVRequest.

Record t : Type := mk {
  name : string;
  email : string;
  phone : string;
  company : option string;
  role : option string;
  purpose : option string;
  consent : bool;
  website : string
}.

(** The validators of the model; [inl msg] is [raise ValueError(msg)]. *)
Definition validate_name (v : string) : string + string :=
  if negb (truthy v) || (len (strip v) <? 2)%nat
  then inl "Name must be at least 2 characters long"%string
  else inr (strip v).

Definition validate_phone (v : string) : string + string :=
  if negb (truthy v) || (len (strip v) <? 10)%nat
  then inl "Phone number must be at least 10 characters long"%string
  else inr (strip v).

Definition validate_purpose (v : option string) : string + option string :=
  match v with
  | Some s =>
      if truthy s && (500 <? len s)%nat
      then inl "Purpose must be less than 500 characters"%string
      else inr v
  | None => inr None
  end.

Definition validate_consent (v : bool) : string + bool :=
  if negb v then inl "Consent is required"%string else inr v.

Definition validate_honeypot (v : string) : string + string := inr v.

(** One entry of a validation error: the field and the message. *)
Definition FieldError : Type := (string * string)%type.

Definition field_errors {A : Type} (field : string) (r : string + A)
  : list FieldError :=
  match r with inl msg => [(field, msg)] | inr _ => [] end.

Section Parse.

(** [EmailStr] is the address type of the schema library: its check
    returns an error message or the address it keeps. *)
Variable EmailStr : string -> string + string.

(** Construction of the model from the submitted fields: every field is
    validated, in the order of declaration, and the errors of all fields
    are collected; the model exists only when there is none. *)
Definition parse (raw : t) : list FieldError + t :=
  let n := validate_name (name raw) in
  let e := EmailStr (email raw) in
  let p := validate_phone (phone raw) in
  let u := validate_purpose (purpose raw) in
  let c := validate_consent (consent raw) in
  let w := validate_honeypot (website raw) in
  match n, e, p, u, c, w with
  | inr n', inr e', inr p', inr u', inr c', inr w' =>
      inr (mk n' e' p' (company raw) (role raw) u' c' w')
  | _, _, _, _, _, _ =>
      inl (field_errors "name" n ++ field_errors "email" e
           ++ field_errors "phone" p ++ field_errors "purpose" u
           ++ field_errors "consent" c ++ field_errors "website" w)
  end.

End Parse.

End CVRequest.

(** ** Validation utilities: [app/utils/validation.py] *)

Module validation.

(** [honeypot_value == "" or honeypot_value is None] *)
Definition validate_honeypot (honeypot_value : option string) : bool :=
  match honeypot_value with
  | Some v => String.eqb v ""
  | None => true
  end.

(** [^[a-zA-Z0-9._%+-]+@[a-zA-Z0-9.-]+\.[a-zA-Z]{2,}$] *)
Definition email_local (c : ascii) : bool :=
  is_alpha c || is_digit c || is_char "." c || is_char "_" c
  || is_char "%" c || is_char "+" c || is_char "-" c.

Definition email_domain (c : ascii) : bool :=
  is_alpha c || is_digit c || is_char "." c || is_char "-" c.

Definition email_pattern : Re.re :=
  Re.Cat (Re.Plus (Re.Cls email_local))
    (Re.Cat (Re.Chr "@")
       (Re.Cat (Re.Plus (Re.Cls email_domain))
          (Re.Cat (Re.Chr ".") (Re.AtLeast 2 (Re.Cls is_alpha))))).

Definition validate_email_format (email : string) : bool :=
  Re.match_anchored email_pattern email.

(** [[^\d+]] *)
Definition not_digit_or_plus (c : ascii) : bool :=
  negb (is_digit c || is_char "+" c).

(** [^(\+?\d{10,15})$] *)
Definition phone_pattern : Re.re :=
  Re.Cat (Re.Opt (Re.Chr "+")) (Re.Range 10 15 (Re.Cls is_digit)).

Definition validate_phone_format (phone : string) : bool :=
  let cleaned_phone := Re.sub_delete not_digit_or_plus phone in
  if (len cleaned_phone <? 10)%nat || (15 <? len cleaned_phone)%nat
  then false
  else Re.match_anchored phone_pattern cleaned_phone.

(** The blocklist, each pattern under [re.IGNORECASE]. *)
Definition suspicious_patterns : list Re.re :=
  [ (* <script.*?>.*?</script> *)
    Re.Cat (Re.LitI (chars "<script"))
      (Re.Cat (Re.Star Re.Dot)
         (Re.Cat (Re.ChrI ">")
            (Re.Cat (Re.Star Re.Dot) (Re.LitI (chars "</script>")))));
    (* javascript: *)
    Re.LitI (chars "javascript:");
    (* data:text/html *)
    Re.LitI (chars "data:text/html");
    (* <iframe.*?>.*?</iframe> *)
    Re.Cat (Re.LitI (chars "<iframe"))
      (Re.Cat (Re.Star Re.Dot)
         (Re.Cat (Re.ChrI ">")
            (Re.Cat (Re.Star Re.Dot) (Re.LitI (chars "</iframe>"))))) ].

(** The text scanned by the blocklist. *)
Definition all_text (cv_request : CVRequest.t) : string :=
  (CVRequest.name cv_request ++ " " ++ CVRequest.email cv_request ++ " "
   ++ CVRequest.phone cv_request ++ " "
   ++ or_empty (CVRequest.company cv_request) ++ " "
   ++ or_empty (CVRequest.role cv_request) ++ " "
   ++ or_empty (CVRequest.purpose cv_request))%string.

Definition suspicious (cv_request : CVRequest.t) : bool :=
  existsb (fun pattern => Re.search pattern (all_text cv_request))
    suspicious_patterns.

Definition purpose_too_long (purpose : option string) : bool :=
  match purpose with
  | Some s => truthy s && (500 <? len s)%nat
  | None => false
  end.

Definition validate_request_data (cv_request : CVRequest.t) : Raises unit :=
  if negb (truthy (CVRequest.name cv_request))
     || (len (strip (CVRequest.name cv_request)) <? 2)%nat
  then inl (HTTPException 400 "Name must be at least 2 characters long")
  else if negb (truthy (CVRequest.email cv_request))
  then inl (HTTPException 400 "Email is required")
  else if negb (validate_email_format (CVRequest.email cv_request))
  then inl (HTTPException 400 "Invalid email format")
  else if negb (truthy (CVRequest.phone cv_request))
  then inl (HTTPException 400 "Phone number is required")
  else if negb (validate_phone_format (CVRequest.phone cv_request))
  then inl (HTTPException 400 "Invalid phone number format")
  else if purpose_too_long (CVRequest.purpose cv_request)
  then inl (HTTPException 400 "Purpose must be less than 500 characters")
  else if suspicious cv_request
  then inl (HTTPException 400 "Invalid characters detected")
  else inr tt.

(** The class of [re.sub] in [sanitize_string]: the two angle brackets,
    the double quote (code 34) and the single quote. *)
Definition harmful (c : ascii) : bool :=
  is_char "<" c || is_char ">" c || is_char "034" c || is_char "'" c.

Definition sanitize_string (value : string) (max_length : Z) : string :=
  if negb (truthy value)
  then ""%string
  else
    let sanitized := str (slice_to max_length (chars (strip value))) in
    Re.sub_delete harmful sanitized.

(** The keys of [admin_data] that [validate_admin_data] reads; [None] is
    a key that the dictionary does not have. *)
Record AdminData : Type := mkAdminData {
  admin_email : option string;
  admin_username : option string;
  admin_password : option string
}.

(** [[a-zA-Z0-9_]] and [^[a-zA-Z0-9_]+$] *)
Definition word_char (c : ascii) : bool :=
  is_alpha c || is_digit c || is_char "_" c.

Definition username_pattern : Re.re := Re.Plus (Re.Cls word_char).

(** One step of a sequence of checks: the first exception ends it. *)
Definition and_then (r k : Raises unit) : Raises unit :=
  match r with
  | inl e => inl e
  | inr _ => k
  end.

Definition check_admin_email (email : option string) : Raises unit :=
  match email with
  | Some e =>
      if negb (validate_email_format e)
      then inl (HTTPException 400 "Invalid email format")
      else inr tt
  | None => inr tt
  end.

Definition check_admin_username (username : option string) : Raises unit :=
  match username with
  | Some u =>
      if negb (truthy u) || (len u <? 3)%nat
      then inl (HTTPException 400
                  "Username must be at least 3 characters long")
      else if negb (Re.match_anchored username_pattern u)
      then inl (HTTPException 400
                  "Username can only contain letters, numbers, and underscores")
      else inr tt
  | None => inr tt
  end.

Definition check_admin_password (password : option string) : Raises unit :=
  match password with
  | Some pw =>
      if negb (truthy pw) || (len pw <? 8)%nat
      then inl (HTTPException 400
                  "Password must be at least 8 characters long")
      else if negb (Re.search (Re.Cls is_alpha) pw)
              || negb (Re.search (Re.Cls is_digit) pw)
      then inl (HTTPException 400
                  "Password must contain both letters and numbers")
      else inr tt
  | None => inr tt
  end.

Definition validate_admin_data (admin_data : AdminData) : Raises unit :=
  and_then (check_admin_email (admin_email admin_data))
    (and_then (check_admin_username (admin_username admin_data))
       (check_admin_password (admin_password admin_data))).

(** [^[0-9a-f]{8}-[0-9a-f]{4}-[0-9a-f]{4}-[0-9a-f]{4}-[0-9a-f]{12}$] *)
Definition is_hex (c : ascii) : bool := is_digit c || in_range 97 102 c.

Definition uuid_pattern : Re.re :=
  Re.Cat (Re.Rep 8 (Re.Cls is_hex))
    (Re.Cat (Re.Chr "-")
       (Re.Cat (Re.Rep 4 (Re.Cls is_hex))
          (Re.Cat (Re.Chr "-")
             (Re.Cat (Re.Rep 4 (Re.Cls is_hex))
                (Re.Cat (Re.Chr "-")
                   (Re.Cat (Re.Rep 4 (Re.Cls is_hex))
                      (Re.Cat (Re.Chr "-") (Re.Rep 12 (Re.Cls is_hex))))))))).

Definition is_valid_uuid (uuid_string : string) : bool :=
  Re.match_anchored uuid_pattern (lower uuid_string).

End validation.

(** ** Rows of the [leads] table: [app/models/leads.py] *)

Inductive LeadStatus : Type :=
| NEW | CONTACTED | QUALIFIED | PROPOSAL_SENT | CLOSED_WON | CLOSED_LOST.

Inductive LeadSource : Type :=
| CV_REQUEST | CALENDLY | LINKEDIN | REFERRAL | DIRECT | OTHER.

(** [.value] of the two enumerations. *)
Definition LeadStatus_value (s : LeadStatus) : string :=
  match s with
  | NEW => "new"
  | CONTACTED => "contacted"
  | QUALIFIED => "qualified"
  | PROPOSAL_SENT => "proposal_sent"
  | CLOSED_WON => "closed_won"
  | CLOSED_LOST => "closed_lost"
  end.

Definition LeadSource_value (s : LeadSource) : string :=
  match s with
  | CV_REQUEST => "cv_request"
  | CALENDLY => "calendly"
  | LINKEDIN => "linkedin"
  | REFERRAL => "referral"
  | DIRECT => "direct"
  | OTHER => "other"
  end.

Module Lead.

Record t : Type := mk {
  id : string;
  name : string;
  email : string;
  phone : string;
  company : option string;
  role : option string;
  purpose : option string;
  source : string;
  ip_address : string;
  user_agent : string;
  consent_given : bool;
  consent_timestamp : Z;
  status : string;
  notes : option string;
  created_at : Z;
  updated_at : Z
}.

End Lead.

(** ** The world and the environment of a request *)

Module Message.

Record t : Type := mk {
  msg_from : string;
  msg_to : string;
  msg_subject : string;
  text_part : option string;
  html_part : string;
  attachment : option (list ascii)
}.

End Message.

(** What persists between requests: the table and the messages handed
    to the SMTP transport. *)
Record World : Type := mkWorld {
  leads : list Lead.t;
  outbox : list Message.t
}.

(** The part of [settings] the pipeline reads. *)
Record Settings : Type := mkSettings {
  EMAIL_FROM : string;
  EMAIL_FROM_NAME : string;
  CV_FILE_PATH : string
}.

(** What a request meets outside the program: the identifier drawn by
    [uuid.uuid4()], the clocks, the file system and the SMTP transport.
    The static text of the two mail templates is not reproduced: a
    template is a function of the three interpolated strings.

    [datetime.utcnow()] is read anew by each expression that calls it, and
    each reading is a value of its own: [utcnow] is the first reading of
    the lead store ([created_at] in [create_lead], [updated_at] in
    [update_lead_status]), [utcnow_updated] the second reading of
    [create_lead] ([updated_at]), [utcnow_consent] the reading of the
    intake endpoint for [consent_timestamp], which comes before the two,
    and [utcnow_response] its reading for the time of the response, which
    comes last. *)
Record Env : Type := mkEnvironment {
  settings : Settings;
  uuid4 : string;
  utcnow : Z;
  CURRENT_TIMESTAMP : Z;
  path_exists : string -> bool;
  read_file : string -> Raises (list ascii);
  smtp_send : Message.t -> Raises unit;
  html_template : string -> string -> string -> string;
  text_template : string -> string -> string -> string;
  utcnow_consent : Z;
  utcnow_updated : Z;
  utcnow_response : Z
}.

(** An environment whose clock shows one time during the whole call. *)
Definition mkEnv (the_settings : Settings) (identifier : string)
    (now current_timestamp : Z) (exists_ : string -> bool)
    (read : string -> Raises (list ascii))
    (send : Message.t -> Raises unit)
    (html text : string -> string -> string -> string) : Env :=
  mkEnvironment the_settings identifier now current_timestamp exists_ read
    send html text now now now.

(** What the database decides by itself. Of two rows with equal sort
    keys, [comes_first a b] tells whether a query returns [a] before [b]:
    [ORDER BY created_at DESC] has no other key. [now_minus_days d] is the
    value of [NOW() - INTERVAL 'd days'], or the error the database raises
    for an interval or a timestamp out of its range. *)
Record Database : Type := mkDatabase {
  comes_first : Lead.t -> Lead.t -> bool;
  now_minus_days : Z -> Raises Z
}.

(** A computation on the world that may raise; the world reached when
    the exception is raised is kept. *)
Definition M (A : Type) : Type := World -> Raises A * World.

Definition ret {A : Type} (a : A) : M A := fun w => (inr a, w).

Definition raise {A : Type} (e : Exn) : M A := fun w => (inl e, w).

Definition lift {A : Type} (r : Raises A) : M A := fun w => (r, w).

Definition bind {A B : Type} (m : M A) (k : A -> M B) : M B :=
  fun w =>
    match m w with
    | (inr a, w') => k a w'
    | (inl e, w') => (inl e, w')
    end.

(** [try: m  except Exception as e: h e] *)
Definition try_except {A : Type} (m : M A) (h : Exn -> M A) : M A :=
  fun w =>
    match m w with
    | (inl e, w') => h e w'
    | (inr a, w') => (inr a, w')
    end.

Notation "'do' x <- c ;; k" := (bind c (fun x => k))
  (at level 10, x name, c at level 100, k at level 200).

(** [except HTTPException: raise
     except Exception as e: raise HTTPException(500, detail)] *)
Definition guarded {A : Type} (detail : string) (m : M A) : M A :=
  try_except m
    (fun e =>
       match e with
       | HTTPException _ _ => raise e
       | _ => raise (HTTPException 500 detail)
       end).

(** [a // b] *)
Definition floordiv (a b : Z) : Raises Z :=
  if (b =? 0)%Z then inl ZeroDivisionError else inr (a / b)%Z.

(** ** The statements sent to the database *)

Module SQL.

(** A condition of a [WHERE] clause. *)
Inductive Cond : Type :=
| status_eq (v : string)
| source_eq (v : string).

Definition holds (c : Cond) (r : Lead.t) : bool :=
  match c with
  | status_eq v => String.eqb (Lead.status r) v
  | source_eq v => String.eqb (Lead.source r) v
  end.

(** [" AND ".join(where_conditions)]; no condition, no clause. *)
Definition where_ (conds : list Cond) (r : Lead.t) : bool :=
  forallb (fun c => holds c r) conds.

(** An assignment of a [SET] clause. *)
Inductive Assign : Type :=
| set_name (v : string)
| set_email (v : string)
| set_phone (v : string)
| set_company (v : string)
| set_role (v : string)
| set_purpose (v : string)
| set_status (v : string)
| set_notes (v : string).

Definition assign (a : Assign) (r : Lead.t) : Lead.t :=
  let '(Lead.mk i n e p c ro pu so ip ua cg ct st no cr up) := r in
  match a with
  | set_name v => Lead.mk i v e p c ro pu so ip ua cg ct st no cr up
  | set_email v => Lead.mk i n v p c ro pu so ip ua cg ct st no cr up
  | set_phone v => Lead.mk i n e v c ro pu so ip ua cg ct st no cr up
  | set_company v => Lead.mk i n e p (Some v) ro pu so ip ua cg ct st no cr up
  | set_role v => Lead.mk i n e p c (Some v) pu so ip ua cg ct st no cr up
  | set_purpose v => Lead.mk i n e p c ro (Some v) so ip ua cg ct st no cr up
  | set_status v => Lead.mk i n e p c ro pu so ip ua cg ct v no cr up
  | set_notes v => Lead.mk i n e p c ro pu so ip ua cg ct st (Some v) cr up
  end.

Definition set_updated_at (now : Z) (r : Lead.t) : Lead.t :=
  let '(Lead.mk i n e p c ro pu so ip ua cg ct st no cr _) := r in
  Lead.mk i n e p c ro pu so ip ua cg ct st no cr now.

(** The name an assignment and a condition bind: [name = :name]. *)
Definition assign_name (a : Assign) : string :=
  match a with
  | set_name _ => "name"
  | set_email _ => "email"
  | set_phone _ => "phone"
  | set_company _ => "company"
  | set_role _ => "role"
  | set_purpose _ => "purpose"
  | set_status _ => "status"
  | set_notes _ => "notes"
  end.

Definition cond_name (c : Cond) : string :=
  match c with
  | status_eq _ => "status"
  | source_eq _ => "source"
  end.

(** [ORDER BY created_at DESC]: an insertion sort by decreasing
    [created_at]; between two rows with the same [created_at] the
    database decides which comes first. *)
Fixpoint insert_desc (first : Lead.t -> Lead.t -> bool) (r : Lead.t)
    (l : list Lead.t) : list Lead.t :=
  match l with
  | [] => [r]
  | x :: l' =>
      if (Lead.created_at x <? Lead.created_at r)%Z
         || ((Lead.created_at x =? Lead.created_at r)%Z && first r x)
      then r :: l
      else x :: insert_desc first r l'
  end.

Definition order_by_created_at_desc (first : Lead.t -> Lead.t -> bool)
    (l : list Lead.t) : list Lead.t :=
  fold_right (insert_desc first) [] l.

(** A statement given as a text is turned into a query by
    [text(query).bindparams( **values)]: [names] are the names [:name] of
    the text, [values] the names of the dictionary; a name of the
    dictionary that the text does not use is refused with
    [ArgumentError], before anything is sent to the database. Every
    statement of the program is given a value for each name it uses. *)
Definition bindparams (names values : list string) : Raises unit :=
  if forallb (fun key => existsb (String.eqb key) names) values
  then inr tt
  else inl ArgumentError.

(** The text of a UUID as the driver reads it for a parameter of the
    column [id]: 32 to 36 characters, hexadecimal digits and hyphens,
    with 32 digits among them. *)
Definition is_hex_digit (c : ascii) : bool :=
  is_digit c || in_range 97 102 c || in_range 65 70 c.

Definition uuid_text (s : string) : bool :=
  (32 <=? len s)%nat && (len s <=? 36)%nat
  && forallb (fun c => is_char "-" c || is_hex_digit c) (chars s)
  && (List.length (filter is_hex_digit (chars s)) =? 32)%nat.

(** The parameter [:lead_id] of a condition [id = :lead_id]: the driver
    raises [DataError] for a text that is not the text of a UUID. The
    identifier of a stored row is one, whatever text stands for it here:
    the column holds nothing else. *)
Definition uuid_param (lead_id : string) : M unit :=
  fun w =>
    if existsb (fun r => String.eqb (Lead.id r) lead_id) (leads w)
       || uuid_text lead_id
    then (inr tt, w)
    else (inl DataError, w).

(** The names of the [INSERT] statement of [create_lead]. *)
Definition insert_names : list string :=
  ["id"; "name"; "email"; "phone"; "company"; "role"; "purpose"; "source";
   "ip_address"; "user_agent"; "consent_given"; "consent_timestamp";
   "status"; "created_at"; "updated_at"]%string.

(** [INSERT INTO leads (...) VALUES (...) RETURNING id]; [id] is the
    primary key. The identifier of the row is the text of a UUID just
    drawn, which the driver accepts. *)
Definition insert (row : Lead.t) (values : list string) : M string :=
  do _ <- lift (bindparams insert_names values) ;;
  fun w =>
    if existsb (fun r => String.eqb (Lead.id r) (Lead.id row)) (leads w)
    then (inl UniqueViolationError, w)
    else (inr (Lead.id row), mkWorld (leads w ++ [row]) (outbox w)).

(** [SELECT * FROM leads WHERE id = :lead_id], first row. *)
Definition select_by_id (lead_id : string) (values : list string)
  : M (option Lead.t) :=
  do _ <- lift (bindparams ["lead_id"%string] values) ;;
  do _ <- uuid_param lead_id ;;
  fun w => (inr (find (fun r => String.eqb (Lead.id r) lead_id) (leads w)), w).

(** [SELECT COUNT( * ) as total FROM leads {where_clause}] *)
Definition count (conds : list Cond) (values : list string) : M Z :=
  do _ <- lift (bindparams (map cond_name conds) values) ;;
  fun w => (inr (Z.of_nat (List.length (filter (where_ conds) (leads w)))), w).

(** [SELECT * FROM leads {where_clause} ORDER BY created_at DESC
    LIMIT :limit OFFSET :skip]; a negative [LIMIT] or [OFFSET] is an
    error of the database. *)
Definition select_page (first : Lead.t -> Lead.t -> bool)
    (conds : list Cond) (limit skip : Z) (values : list string)
  : M (list Lead.t) :=
  do _ <-
    lift (bindparams (map cond_name conds ++ ["limit"; "skip"]%string)
            values) ;;
  fun w =>
    if (limit <? 0)%Z || (skip <? 0)%Z
    then (inl InvalidRowCountError, w)
    else (inr (firstn (Z.to_nat limit)
                 (skipn (Z.to_nat skip)
                    (order_by_created_at_desc first
                       (filter (where_ conds) (leads w))))), w).

(** [UPDATE leads SET {update_fields}, updated_at = CURRENT_TIMESTAMP
    WHERE id = :lead_id]: the text uses the names of the fields and
    [lead_id]; [CURRENT_TIMESTAMP] is written in the text, it is not a
    name. *)
Definition update (update_fields : list Assign) (now : Z) (lead_id : string)
    (values : list string) : M unit :=
  do _ <-
    lift (bindparams (map assign_name update_fields ++ ["lead_id"%string])
            values) ;;
  do _ <- uuid_param lead_id ;;
  fun w =>
    (inr tt,
     mkWorld
       (map (fun r =>
               if String.eqb (Lead.id r) lead_id
               then set_updated_at now (fold_left (fun r a => assign a r) update_fields r)
               else r)
            (leads w))
       (outbox w)).




(** [DELETE FROM leads WHERE id = :lead_id] *)
Definition delete (lead_id : string) (values : list string) : M unit :=
  do _ <- lift (bindparams ["lead_id"%string] values) ;;
  do _ <- uuid_param lead_id ;;
  fun w =>
    (inr tt,
     mkWorld
       (filter (fun r => negb (String.eqb (Lead.id r) lead_id)) (leads w))
       (outbox w)).

(** The row of aggregates of [get_lead_analytics]; [recent_rate] is a
    [numeric], [None] when it is [NULL]. *)
Record LeadAnalytics : Type := mkLeadAnalytics {
  total_leads : Z;
  qualified_leads : Z;
  cv_requests : Z;
  calendly_bookings : Z;
  with_company : Z;
  recent_rate : option QArith_base.Q
}.

(** [COUNT(CASE WHEN c THEN 1 END)] *)
Definition count_when (c : Lead.t -> bool) (rows : list Lead.t) : Z :=
  Z.of_nat (List.length (filter c rows)).

(** [AVG] of integers: [NULL] when there is no row. *)
Definition avg (l : list Z) : option QArith_base.Q :=
  match l with
  | [] => None
  | _ :: _ =>
      Some (Qreduction.Qred
              (QArith_base.Qmake (fold_right Z.add 0%Z l)
                 (Pos.of_nat (List.length l))))
  end.

(** The aggregates of [get_lead_analytics] over the rows with
    [created_at >= start]. *)
Definition aggregates (start : Z) (table : list Lead.t) : LeadAnalytics :=
  let recent r := (start <=? Lead.created_at r)%Z in
  let rows := filter recent table in
  mkLeadAnalytics
    (Z.of_nat (List.length rows))
    (count_when (fun r => String.eqb (Lead.status r) "qualified") rows)
    (count_when (fun r => String.eqb (Lead.source r) "cv_request") rows)
    (count_when (fun r => String.eqb (Lead.source r) "calendly") rows)
    (count_when
       (fun r => match Lead.company r with
                 | Some _ => true
                 | None => false
                 end) rows)
    (avg (map (fun r => if recent r then 1%Z else 0%Z) rows)).

(** The query of [get_lead_analytics], executed with no values. The two
    occurrences of [NOW() - INTERVAL 'days days'] have one value, [NOW()]
    being the time at which the transaction started; when the database
    cannot compute it, the query raises. *)
Definition lead_analytics (db : Database) (days : Z) : M LeadAnalytics :=
  fun w =>
    match now_minus_days db days with
    | inl e => (inl e, w)
    | inr start => (inr (aggregates start (leads w)), w)
    end.

End SQL.

(** ** Lead store: [app/services/lead_service.py] *)

Module LeadService.

(** The [lead_data] dictionary built by the intake endpoint. *)
Record LeadData : Type := mkLeadData {
  id : string;
  name : string;
  email : string;
  phone : string;
  company : option string;
  role : option string;
  purpose : option string;
  source : string;
  ip_address : string;
  user_agent : string;
  consent_given : bool;
  consent_timestamp : Z
}.

(** The result dictionary of [get_leads]. *)
Record LeadList : Type := mkLeadList {
  leads : list Lead.t;
  total : Z;
  page : Z;
  size : Z;
  pages : Z
}.

(** [except Exception as e: logger.error(...); raise] *)
Definition logged {A : Type} (m : M A) : M A :=
  try_except m (fun e => raise e).

(** The keys of [lead_data]. *)
Definition keys : list string :=
  ["id"; "name"; "email"; "phone"; "company"; "role"; "purpose"; "source";
   "ip_address"; "user_agent"; "consent_given"; "consent_timestamp"]%string.

(** [create_lead]: the dictionary [values] is [lead_data] with the three
    keys [status], [created_at] and [updated_at]; the clock is read once
    for [created_at] and once more for [updated_at]. *)
Definition create_lead (env : Env) (lead_data : LeadData) : M string :=
  logged
    (let values :=
       Lead.mk (id lead_data) (name lead_data) (email lead_data)
         (phone lead_data) (company lead_data) (role lead_data)
         (purpose lead_data) (source lead_data) (ip_address lead_data)
         (user_agent lead_data) (consent_given lead_data)
         (consent_timestamp lead_data)
         (LeadStatus_value NEW) None (utcnow env) (utcnow_updated env) in
     do _ <-
       SQL.insert values
         (keys ++ ["status"; "created_at"; "updated_at"]%string) ;;
     ret (id lead_data)).

Definition get_lead_by_id (lead_id : string) : M (option Lead.t) :=
  logged
    (do result <- SQL.select_by_id lead_id ["lead_id"%string] ;;
     match result with
     | Some row => ret (Some row)
     | None => ret None
     end).

Definition where_conditions (status : option LeadStatus)
    (source : option LeadSource) : list SQL.Cond :=
  match status with
  | Some s => [SQL.status_eq (LeadStatus_value s)]
  | None => []
  end
  ++ match source with
     | Some s => [SQL.source_eq (LeadSource_value s)]
     | None => []
     end.

(** The keys that the filters add to the dictionary [values]. *)
Definition where_values (status : option LeadStatus)
    (source : option LeadSource) : list string :=
  match status with
  | Some _ => ["status"%string]
  | None => []
  end
  ++ match source with
     | Some _ => ["source"%string]
     | None => []
     end.

(** The dictionary returned by [get_leads]: [page] and [pages] divide by
    [limit]. *)
Definition page_result (leads : list Lead.t) (total skip limit : Z)
  : Raises LeadList :=
  match floordiv skip limit with
  | inl e => inl e
  | inr q =>
      match floordiv (total + limit - 1) limit with
      | inl e => inl e
      | inr pages => inr (mkLeadList leads total (q + 1) limit pages)
      end
  end.

(** [get_leads]: one dictionary [values], which holds [skip] and [limit]
    from the start, is given to the count query and to the page query. *)
Definition get_leads (db : Database) (skip limit : Z)
    (status : option LeadStatus) (source : option LeadSource) : M LeadList :=
  logged
    (let conds := where_conditions status source in
     let values := ["skip"; "limit"]%string ++ where_values status source in
     do total <- SQL.count conds values ;;
     do leads <- SQL.select_page (comes_first db) conds limit skip values ;;
     lift (page_result leads total skip limit)).



Definition get_lead_analytics (db : Database) (days : Z)
  : M SQL.LeadAnalytics :=
  logged
    (do result <- SQL.lead_analytics db days ;;
     ret result).

End LeadService.

(** ** Notification dispatcher: [app/services/email_service.py] *)

Module EmailService.

(** [aiosmtplib.send(message, ...)]: the message is handed to the
    transport, which accepts it or raises. *)
Definition send (env : Env) (message : Message.t) : M unit :=
  fun w =>
    (smtp_send env message, mkWorld (leads w) (outbox w ++ [message])).

Definition _send_email (env : Env) (to_email subject html_content : string)
    (text_content : option string) (attachment_path : option string)
  : M bool :=
  try_except
    (let text_part :=
       if truthy_opt text_content then text_content else None in
     do attachment <-
       match attachment_path with
       | Some path =>
           if truthy path && path_exists env path
           then do attachment_data <- lift (read_file env path) ;;
                ret (Some attachment_data)
           else ret None
       | None => ret None
       end ;;
     let message :=
       Message.mk
         (EMAIL_FROM_NAME (settings env) ++ " <"
          ++ EMAIL_FROM (settings env) ++ ">")%string
         to_email subject text_part html_content attachment in
     do _ <- send env message ;;
     ret true)
    (fun _ => ret false).

Definition company_text (company : option string) : string :=
  match company with
  | Some c => if truthy c then (" at " ++ c)%string else ""%string
  | None => ""%string
  end.

Definition _generate_cv_email_html (env : Env) (name : string)
    (company purpose : option string) : string :=
  let purpose_text :=
    match purpose with
    | Some p =>
        if truthy p
        then ("<p><strong>Your stated purpose:</strong> " ++ p ++ "</p>")%string
        else ""%string
    | None => ""%string
    end in
  html_template env name (company_text company) purpose_text.

Definition _generate_cv_email_text (env : Env) (name : string)
    (company purpose : option string) : string :=
  let purpose_text :=
    match purpose with
    | Some p =>
        if truthy p
        then ("Your stated purpose: " ++ p ++ "\n\n")%string
        else ""%string
    | None => ""%string
    end in
  text_template env name (company_text company) purpose_text.

Definition send_cv_email (env : Env) (to_email name : string)
    (company purpose : option string) : M bool :=
  let subject := "Charles Nwankpa - AI Product Engineer CV"%string in
  let html_content := _generate_cv_email_html env name company purpose in
  let text_content := _generate_cv_email_text env name company purpose in
  do success <-
    _send_email env to_email subject html_content (Some text_content)
      (Some (CV_FILE_PATH (settings env))) ;;
  ret success.

(** A [lead_data] dictionary with string keys; a value is [None] or a
    string. *)
Definition Dict : Type := list (string * option string).

(** [key in d], with the value when it is. *)
Fixpoint dict_get (key : string) (d : Dict) : option (option string) :=
  match d with
  | [] => None
  | (k, v) :: d' => if String.eqb k key then Some v else dict_get key d'
  end.

(** [str(v)] inside an f-string. *)
Definition py_str (v : option string) : string :=
  match v with
  | Some s => s
  | None => "None"%string
  end.

(** [d[key]]: [inl key] is [raise KeyError(key)]. *)
Definition item (key : string) (d : Dict) : string + string :=
  match dict_get key d with
  | Some v => inr (py_str v)
  | None => inl key
  end.

(** [d.get(key, default)] *)
Definition get_or (key default : string) (d : Dict) : string :=
  match dict_get key d with
  | Some v => py_str v
  | None => default
  end.

Definition newline : string := String "010" EmptyString.

(** One line of the admin template, at its indentation of eight
    spaces. *)
Definition template_line (body : string) : string :=
  ("        " ++ body ++ newline)%string.

Definition field_line (label value : string) : string :=
  template_line ("<p><strong>" ++ label ++ ":</strong> " ++ value ++ "</p>").

(** [send_admin_notification]; the subject and the body are built before
    the [try] of [_send_email], so a missing key is raised to the
    caller: [inl key] is [KeyError(key)] with nothing done. *)
Definition send_admin_notification (env : Env) (lead_data : Dict)
  : string + M bool :=
  match item "name" lead_data with
  | inl k => inl k
  | inr name =>
      let subject :=
        ("New CV Request: " ++ name ++ " ("
         ++ get_or "company" "No company" lead_data ++ ")")%string in
      match item "email" lead_data with
      | inl k => inl k
      | inr email =>
          match item "phone" lead_data with
          | inl k => inl k
          | inr phone =>
              let html_content :=
                (newline
                 ++ template_line "<h2>New CV Request Received</h2>"
                 ++ field_line "Name" name
                 ++ field_line "Email" email
                 ++ field_line "Phone" phone
                 ++ field_line "Company"
                      (get_or "company" "Not specified" lead_data)
                 ++ field_line "Role"
                      (get_or "role" "Not specified" lead_data)
                 ++ field_line "Purpose"
                      (get_or "purpose" "Not specified" lead_data)
                 ++ field_line "IP Address"
                      (get_or "ip_address" "Unknown" lead_data)
                 ++ field_line "Timestamp"
                      (get_or "created_at" "Unknown" lead_data)
                 ++ "        ")%string in
              inr (_send_email env (EMAIL_FROM (settings env)) subject
                     html_content None None)
          end
      end
  end.

End EmailService.

(** ** Intake and status endpoints: [app/api/endpoints/cv_request.py] *)

Module cv_request.

(** What the endpoint reads of the HTTP request. *)
Record Request : Type := mkRequest {
  remote_address : string;
  user_agent_header : option string
}.

Record CVResponse : Type := mkCVResponse {
  success : bool;
  message : string;
  request_id : string;
  timestamp : Z
}.

(** The dictionary returned by the status endpoint. *)
Record CVStatus : Type := mkCVStatus {
  status_request_id : string;
  status : string;
  created_at : Z;
  email_sent : bool
}.

(** The body of [request_cv], run on the request object the endpoint is
    given. *)
Definition request_cv (env : Env) (request : Request)
    (cv_request : CVRequest.t) : M CVResponse :=
  guarded "Internal server error. Please try again later."
    (let client_ip := remote_address request in
     let user_agent :=
       match user_agent_header request with
       | Some ua => ua
       | None => ""%string
       end in
     do _ <-
       (if negb (validation.validate_honeypot
                   (Some (CVRequest.website cv_request)))
        then raise (HTTPException 400 "Invalid request")
        else ret tt) ;;
     do _ <- lift (validation.validate_request_data cv_request) ;;
     do _ <-
       (if negb (CVRequest.consent cv_request)
        then raise (HTTPException 400 "Consent is required")
        else ret tt) ;;
     let request_id := uuid4 env in
     let lead_data :=
       LeadService.mkLeadData request_id
         (CVRequest.name cv_request) (CVRequest.email cv_request)
         (CVRequest.phone cv_request) (CVRequest.company cv_request)
         (CVRequest.role cv_request) (CVRequest.purpose cv_request)
         "cv_request" client_ip user_agent true (utcnow_consent env) in
     do _ <- LeadService.create_lead env lead_data ;;
     do _ <-
       EmailService.send_cv_email env (CVRequest.email cv_request)
         (CVRequest.name cv_request) (CVRequest.company cv_request)
         (CVRequest.purpose cv_request) ;;
     ret (mkCVResponse true
            "CV request processed successfully. You should receive the CV via email shortly."
            request_id (utcnow_response env))).

Definition get_cv_request_status (request_id : string) : M CVStatus :=
  guarded "Internal server error"
    (do lead <- LeadService.get_lead_by_id request_id ;;
     match lead with
     | None => raise (HTTPException 404 "Request not found")
     | Some lead =>
         ret (mkCVStatus request_id (Lead.status lead)
                (Lead.created_at lead) true)
     end).

(** What the client of [POST /api/request-cv] gets: the body is first
    turned into the request model, and a body the model refuses is
    answered by the framework without the endpoint being run. *)
Inductive Answer (A : Type) : Type :=
| Returned (a : A)
| Raised (e : Exn)
| RequestValidationError (errors : list CVRequest.FieldError).

Arguments Returned {A} a.
Arguments Raised {A} e.
Arguments RequestValidationError {A} errors.

Definition post_request_cv (EmailStr : string -> string + string)
    (env : Env) (request : Request) (body : CVRequest.t) (w : World)
  : Answer CVResponse * World :=
  match CVRequest.parse EmailStr body with
  | inl errors => (RequestValidationError errors, w)
  | inr cv_request =>
      match request_cv env request cv_request w with
      | (inr r, w') => (Returned r, w')
      | (inl e, w') => (Raised e, w')
      end
  end.

End cv_request.

(** ** Rows of the [admins] table: [app/models/admin.py] *)

Module Admin.

Record t : Type := mk {
  id : string;
  email : string;
  username : string;
  full_name : string;
  hashed_password : string;
  is_active : bool;
  is_superuser : bool;
  last_login : option Z
}.

End Admin.

(** ** Admin endpoints: [app/api/endpoints/admin.py]

    The endpoints are modelled for a caller that [get_current_admin]
    has let in. *)

Module LeadUpdate.

Record t : Type := mk {
  name : option string;
  email : option string;
  phone : option string;
  company : option string;
  role : option string;
  purpose : option string;
  status : option LeadStatus;
  notes : option string
}.

End LeadUpdate.

Module admin.

Record ResponseMessage : Type := mkResponseMessage {
  success : bool;
  message : string
}.

(** [get_leads]. Its parameter [status] hides the module [status] of the
    framework inside the function, so that the handler of [except
    Exception], which reads [status.HTTP_500_INTERNAL_SERVER_ERROR],
    raises [AttributeError] in place of the [HTTPException] it builds. *)
Definition get_leads (db : Database) (skip limit : Z)
    (status : option LeadStatus) (source : option LeadSource)
  : M LeadService.LeadList :=
  try_except
    (do result <-
       LeadService.get_leads db skip (Z.min limit 100) status source ;;
     ret result)
    (fun _ => raise AttributeError).

Definition opt_field (f : string -> SQL.Assign) (v : option string)
  : list SQL.Assign :=
  match v with
  | Some x => [f x]
  | None => []
  end.

(** The [update_fields] list, in the order the endpoint appends. *)
Definition update_fields (lead_update : LeadUpdate.t) : list SQL.Assign :=
  opt_field SQL.set_name (LeadUpdate.name lead_update)
  ++ opt_field SQL.set_email (LeadUpdate.email lead_update)
  ++ opt_field SQL.set_phone (LeadUpdate.phone lead_update)
  ++ opt_field SQL.set_company (LeadUpdate.company lead_update)
  ++ opt_field SQL.set_role (LeadUpdate.role lead_update)
  ++ opt_field SQL.set_purpose (LeadUpdate.purpose lead_update)
  ++ match LeadUpdate.status lead_update with
     | Some s => [SQL.set_status (LeadStatus_value s)]
     | None => []
     end
  ++ opt_field SQL.set_notes (LeadUpdate.notes lead_update).

(** [update_lead]: the dictionary [values] holds [lead_id] and
    [updated_at] from the start, and then the name of each field that the
    payload has. *)
Definition update_lead (env : Env) (lead_id : string)
    (lead_update : LeadUpdate.t) : M ResponseMessage :=
  guarded "Failed to update lead"
    (do existing_lead <- LeadService.get_lead_by_id lead_id ;;
     match existing_lead with
     | None => raise (HTTPException 404 "Lead not found")
     | Some _ =>
         let values :=
           ["lead_id"; "updated_at"]%string
           ++ map SQL.assign_name (update_fields lead_update) in
         match update_fields lead_update with
         | [] => ret (mkResponseMessage true "No changes to update")
         | fields =>
             do _ <-
               SQL.update fields (CURRENT_TIMESTAMP env) lead_id values ;;
             ret (mkResponseMessage true "Lead updated successfully")
         end
     end).

(** [get_lead]; the response model is built from the row, whose fields
    are taken to have the types of the model. *)
Definition get_lead (lead_id : string) : M Lead.t :=
  guarded "Failed to fetch lead"
    (do lead <- LeadService.get_lead_by_id lead_id ;;
     match lead with
     | None => raise (HTTPException 404 "Lead not found")
     | Some lead => ret lead
     end).

Definition delete_lead (lead_id : string) : M ResponseMessage :=
  guarded "Failed to delete lead"
    (do existing_lead <- LeadService.get_lead_by_id lead_id ;;
     match existing_lead with
     | None => raise (HTTPException 404 "Lead not found")
     | Some _ =>
         do _ <- SQL.delete lead_id ["lead_id"%string] ;;
         ret (mkResponseMessage true "Lead deleted successfully")
     end).

(** *** Authentication

    [app/core/security.py] is not among the sources: its three functions
    are parameters, each of which may raise. What [decode_access_token]
    returns is read through [payload.get("sub")] only. *)
Record Security : Type := mkSecurity {
  verify_password : string -> string -> Raises bool;
  create_access_token : string -> Raises string;
  decode_access_token : string -> Raises (option string)
}.

Record LoginRequest : Type := mkLoginRequest {
  username : string;
  password : string
}.

Record TokenResponse : Type := mkTokenResponse {
  access_token : string;
  token_type : string
}.

(** [except HTTPException: raise  except Exception: raise
    HTTPException(code, detail)], for a computation without effect. *)
Definition guarded_pure {A : Type} (code : Z) (detail : string)
    (r : Raises A) : Raises A :=
  match r with
  | inl (HTTPException c d) => inl (HTTPException c d)
  | inl _ => inl (HTTPException code detail)
  | inr a => inr a
  end.

(** [SELECT * FROM admins WHERE id = :admin_id AND is_active = true] *)
Definition active_admin_by_id (admin_id : string) (admins : list Admin.t)
  : option Admin.t :=
  find (fun a => String.eqb (Admin.id a) admin_id && Admin.is_active a)
    admins.

(** [SELECT * FROM admins WHERE username = :username AND is_active =
    true] *)
Definition active_admin_by_username (name : string) (admins : list Admin.t)
  : option Admin.t :=
  find (fun a => String.eqb (Admin.username a) name && Admin.is_active a)
    admins.

(** [UPDATE admins SET last_login = CURRENT_TIMESTAMP WHERE id =
    :admin_id] *)
Definition touch_last_login (now : Z) (admin_id : string)
    (admins : list Admin.t) : list Admin.t :=
  map (fun a =>
         if String.eqb (Admin.id a) admin_id
         then Admin.mk (Admin.id a) (Admin.email a) (Admin.username a)
                (Admin.full_name a) (Admin.hashed_password a)
                (Admin.is_active a) (Admin.is_superuser a) (Some now)
         else a)
      admins.

Definition get_current_admin (sec : Security) (credentials : string)
    (admins : list Admin.t) : Raises Admin.t :=
  guarded_pure 401 "Could not validate credentials"
    (match decode_access_token sec credentials with
     | inl e => inl e
     | inr payload =>
         match payload with
         | None =>
             inl (HTTPException 401 "Invalid authentication credentials")
         | Some admin_id =>
             if negb (truthy admin_id)
             then inl (HTTPException 401 "Invalid authentication credentials")
             else
               match active_admin_by_id admin_id admins with
               | None =>
                   inl (HTTPException 401 "Admin user not found or inactive")
               | Some admin => inr admin
               end
         end
     end).

(** [admin_login]: the answer and the [admins] table it leaves. *)
Definition admin_login (sec : Security) (env : Env)
    (login_data : LoginRequest) (admins : list Admin.t)
  : Raises TokenResponse * list Admin.t :=
  match active_admin_by_username (username login_data) admins with
  | None => (inl (HTTPException 401 "Invalid username or password"), admins)
  | Some admin =>
      match verify_password sec (password login_data)
              (Admin.hashed_password admin) with
      | inl e =>
          (guarded_pure 500 "Login failed" (inl e), admins)
      | inr false =>
          (inl (HTTPException 401 "Invalid username or password"), admins)
      | inr true =>
          let admins' :=
            touch_last_login (CURRENT_TIMESTAMP env) (Admin.id admin) admins in
          match create_access_token sec (Admin.id admin) with
          | inl e => (guarded_pure 500 "Login failed" (inl e), admins')
          | inr token => (inr (mkTokenResponse token "bearer"), admins')
          end
      end
  end.

End admin.

(** ** Analytics: [app/api/endpoints/analytics.py]

    The queries of [get_dashboard_analytics] that the statements below
    are about, each by its meaning on the table. *)

Module analytics.

(** [LOWER(s) LIKE '%' word '%'] *)
Definition like (word : string) (s : string) : bool :=
  contains (chars word) (map to_lower (chars s)).

(** The [CASE] of [company_types_query]. *)
Definition company_type (company : string) : string :=
  if like "startup" company || like "inc" company then "startup"
  else if like "corp" company || like "ltd" company || like "llc" company
  then "corporate"
  else if like "consulting" company || like "advisory" company
  then "consulting"
  else if like "university" company || like "education" company
  then "education"
  else "other".

(** The [CASE] of [role_query]. *)
Definition role_category (role : string) : string :=
  if like "founder" role || like "ceo" role then "founder"
  else if like "cto" role || like "technical" role then "cto"
  else if like "recruiter" role || like "hr" role then "recruiter"
  else if like "manager" role || like "director" role then "management"
  else if like "engineer" role || like "developer" role then "engineering"
  else "other".

(** Four of the counts of [portfolio_query]: the two that the endpoint
    reports as the total and the requests of the period, and the two its
    rates are computed from. *)
Record Portfolio : Type := mkPortfolio {
  total_requests : Z;
  period_requests : Z;
  qualified_leads : Z;
  converted_leads : Z
}.

Definition portfolio_query (start_date : Z) (rows : list Lead.t)
  : Portfolio :=
  let since r := (start_date <=? Lead.created_at r)%Z in
  let selected := filter since rows in
  mkPortfolio
    (Z.of_nat (List.length selected))
    (SQL.count_when since selected)
    (SQL.count_when (fun r => String.eqb (Lead.status r) "qualified") selected)
    (SQL.count_when
       (fun r => String.eqb (Lead.status r) "proposal_sent"
                 || String.eqb (Lead.status r) "closed_won") selected).

End analytics.

(** ** Vocabulary of the statements *)

(** The rules of the validator. *)
Inductive Rule : Type :=
| Honeypot | Name | Email | Phone | Purpose | Consent | SpamScan.

Definition violates (r : Rule) (cv : CVRequest.t) : bool :=
  match r with
  | Honeypot => negb (validation.validate_honeypot (Some (CVRequest.website cv)))
  | Name =>
      negb (truthy (CVRequest.name cv))
      || (len (strip (CVRequest.name cv)) <? 2)%nat
  | Email =>
      negb (truthy (CVRequest.email cv))
      || negb (validation.validate_email_format (CVRequest.email cv))
  | Phone =>
      negb (truthy (CVRequest.phone cv))
      || negb (validation.validate_phone_format (CVRequest.phone cv))
  | Purpose => validation.purpose_too_long (CVRequest.purpose cv)
  | Consent => negb (CVRequest.consent cv)
  | SpamScan => validation.suspicious cv
  end.

(** The exception the endpoint raises for a violated rule. *)
Definition failure (r : Rule) (cv : CVRequest.t) : Exn :=
  match r with
  | Honeypot => HTTPException 400 "Invalid request"
  | Name => HTTPException 400 "Name must be at least 2 characters long"
  | Email =>
      if truthy (CVRequest.email cv)
      then HTTPException 400 "Invalid email format"
      else HTTPException 400 "Email is required"
  | Phone =>
      if truthy (CVRequest.phone cv)
      then HTTPException 400 "Invalid phone number format"
      else HTTPException 400 "Phone number is required"
  | Purpose => HTTPException 400 "Purpose must be less than 500 characters"
  | Consent => HTTPException 400 "Consent is required"
  | SpamScan => HTTPException 400 "Invalid characters detected"
  end.

(** The order of the rules in the specification, and the order in which
    [request_cv] and [validate_request_data] check them. *)
Definition spec_order : list Rule :=
  [Honeypot; Name; Email; Phone; Purpose; Consent; SpamScan].

Definition code_order : list Rule :=
  [Honeypot; Name; Email; Phone; Purpose; SpamScan; Consent].

Definition first_violated (order : list Rule) (cv : CVRequest.t)
  : option Rule :=
  find (fun r => violates r cv) order.

(** The phone check as the specification words it: after the removal of
    the characters other than digits and [+], the number of digits is in
    [10,15] and the string matches the pattern. *)
Definition digit_count (s : string) : nat :=
  List.length (filter is_digit (chars s)).

Definition spec_phone_valid (phone : string) : bool :=
  let cleaned := Re.sub_delete validation.not_digit_or_plus phone in
  negb ((digit_count cleaned <? 10)%nat || (15 <? digit_count cleaned)%nat)
  && Re.match_anchored validation.phone_pattern cleaned.

(** Normalized form of a phone: an optional leading [+], then 10 to 15
    digits and nothing else. *)
Definition digits_part (l : list ascii) : list ascii :=
  match l with
  | c :: t => if is_char "+" c then t else l
  | [] => []
  end.

Definition is_normalized (p : string) : bool :=
  let d := digits_part (chars p) in
  forallb is_digit d && (10 <=? List.length d)%nat && (List.length d <=? 15)%nat.

(** The string left by the removal of the separators. *)
Definition cleaned_phone (phone : string) : string :=
  Re.sub_delete validation.not_digit_or_plus phone.


(** The partial payload with no field. *)
Definition empty_update : LeadUpdate.t :=
  LeadUpdate.mk None None None None None None None None.

Definition lookup (lead_id : string) (w : World) : option Lead.t :=
  find (fun r => String.eqb (Lead.id r) lead_id) (leads w).

(** The row the intake endpoint inserts for a request. *)
Definition intake_row (env : Env) (request : cv_request.Request)
    (cv : CVRequest.t) : Lead.t :=
  Lead.mk (uuid4 env) (CVRequest.name cv) (CVRequest.email cv)
    (CVRequest.phone cv) (CVRequest.company cv) (CVRequest.role cv)
    (CVRequest.purpose cv) "cv_request" (cv_request.remote_address request)
    (match cv_request.user_agent_header request with
     | Some ua => ua
     | None => ""%string
     end)
    true (utcnow_consent env) "new" None (utcnow env) (utcnow_updated env).

(** The success response of the intake endpoint. *)
Definition intake_success (env : Env) : cv_request.CVResponse :=
  cv_request.mkCVResponse true
    "CV request processed successfully. You should receive the CV via email shortly."
    (uuid4 env) (utcnow_response env).

(** ** Vocabulary of the further statements *)

(** No character of [s] is one of those [sanitize_string] removes. *)
Definition harmless (s : string) : Prop :=
  Forall (fun c => validation.harmful c = false) (chars s).

(** The script-tag and the iframe-tag patterns of the blocklist. *)
Definition script_tag_pattern : Re.re :=
  nth 0 validation.suspicious_patterns Re.Void.

Definition iframe_tag_pattern : Re.re :=
  nth 3 validation.suspicious_patterns Re.Void.

(** Not empty, and letters, digits and underscores only. *)
Definition word (l : list ascii) : bool :=
  match l with
  | [] => false
  | _ :: _ => forallb validation.word_char l
  end.

(** A word, or a word followed by one newline. *)
Definition word_or_word_newline (s : string) : bool :=
  word (chars s)
  || (Re.ends_with_newline (chars s) && word (removelast (chars s))).

(** The text of a UUID as [str(uuid.uuid4())] writes it, and as the
    column [id] gives it back: lower-case hexadecimal digits in groups of
    8, 4, 4, 4 and 12, with a hyphen between two groups. *)
Definition canonical_uuid (s : string) : bool :=
  Re.fullmatch validation.uuid_pattern (chars s).

(** ** Sample inputs *)

Module Sample.

Definition the_settings : Settings :=
  mkSettings "cv@example.com" "Charles Nwankpa"
    "./static/cv/charles_nwankpa_cv.pdf".

(** An environment whose file is present and whose transport accepts. *)
Definition env_ok : Env :=
  mkEnv the_settings "123e4567-e89b-12d3-a456-426614174000" 1000 1000
    (fun _ => true) (fun _ => inr []) (fun _ => inr tt)
    (fun n c p => (n ++ c ++ p)%string) (fun n c p => (n ++ c ++ p)%string).

(** The same with a transport that refuses every message. *)
Definition env_smtp_down : Env :=
  mkEnv the_settings "123e4567-e89b-12d3-a456-426614174000" 1000 1000
    (fun _ => true) (fun _ => inr []) (fun _ => inl SMTPException)
    (fun n c p => (n ++ c ++ p)%string) (fun n c p => (n ++ c ++ p)%string).

(** The same as [env_ok] with a clock that moves between its readings. *)
Definition env_clock : Env :=
  mkEnvironment the_settings "123e4567-e89b-12d3-a456-426614174000" 1001
    1000 (fun _ => true) (fun _ => inr []) (fun _ => inr tt)
    (fun n c p => (n ++ c ++ p)%string) (fun n c p => (n ++ c ++ p)%string)
    1000 1002 1003.

(** A database that returns the rows with equal sort keys in the order
    of the table, whose clock shows 1000000 seconds and whose day has
    86400 of them, and that refuses an interval of more than a century. *)
Definition the_db : Database :=
  mkDatabase (fun _ _ => true)
    (fun days =>
       if (Z.abs days <=? 36500)%Z
       then inr (1000000 - 86400 * days)%Z
       else inl DataError).

(** An address type that keeps the addresses of the form the endpoint
    accepts. *)
Definition EmailStr (v : string) : string + string :=
  if validation.validate_email_format v
  then inr v
  else inl "value is not a valid email address"%string.

Definition the_request : cv_request.Request :=
  cv_request.mkRequest "203.0.113.7" (Some "Mozilla/5.0"%string).

Definition empty_world : World := mkWorld [] [].

(** The valid payload of the specification's scenario. *)
Definition john : CVRequest.t :=
  CVRequest.mk "John Smith" "john@x.com" "+15550123456" None None None
    true "".

Definition john_without_consent : CVRequest.t :=
  CVRequest.mk "John Smith" "john@x.com" "+15550123456" None None None
    false "".

Definition john_bot : CVRequest.t :=
  CVRequest.mk "John Smith" "john@x.com" "+15550123456" None None None
    true "http://spam.example".

(** A filled honeypot and no consent. *)
Definition john_bot_without_consent : CVRequest.t :=
  CVRequest.mk "John Smith" "john@x.com" "+15550123456" None None None
    false "http://spam.example".

(** The body of [test_invalid_cv_request] in [test_api.py]. *)
Definition invalid_data : CVRequest.t :=
  CVRequest.mk "" "invalid-email" "123" None None None false "spam".

(** No consent and a script URL in the purpose. *)
Definition john_script_without_consent : CVRequest.t :=
  CVRequest.mk "John Smith" "john@x.com" "+15550123456" None None
    (Some "see javascript:alert(1)"%string) false "".

Definition john_with_separators : CVRequest.t :=
  CVRequest.mk "John Smith" "john@x.com" "+1-555-0123-4567" None None None
    true "".

(** A stored lead, and a world that holds it. *)
Definition a_lead : Lead.t :=
  Lead.mk "id-1" "John Smith" "john@x.com" "+15550123456" None None None
    "cv_request" "203.0.113.7" "Mozilla/5.0" true 10 "new" None 10 10.

Definition b_lead : Lead.t :=
  Lead.mk "id-2" "Ada King" "ada@y.org" "+442071234567" None None None
    "cv_request" "203.0.113.8" "Mozilla/5.0" true 20 "new" None 20 20.

Definition c_lead : Lead.t :=
  Lead.mk "id-3" "Bob Ray" "bob@z.net" "+33123456789" None None None
    "linkedin" "203.0.113.9" "Mozilla/5.0" true 30 "qualified" None 30 30.

Definition three_leads : World := mkWorld [a_lead; b_lead; c_lead] [].

(** A fourth lead, under the text of a UUID. *)
Definition d_lead : Lead.t :=
  Lead.mk "6f9619ff-8b86-d011-b42d-00c04fc964ff" "Eve Lind" "eve@w.io"
    "+4670123456" None None None "cv_request" "203.0.113.10" "Mozilla/5.0"
    true 40 "new" None 40 40.

Definition four_leads : World :=
  mkWorld [a_lead; b_lead; c_lead; d_lead] [].

Definition set_qualified : LeadUpdate.t :=
  LeadUpdate.mk None None None None None None (Some QUALIFIED) None.

(** Two admins, the second inactive, and a security module whose hash
    is the password itself and whose token is the subject. *)
Definition ada : Admin.t :=
  Admin.mk "admin-1" "ada@example.org" "ada" "Ada King" "s3cretpass" true
    true None.

Definition bob : Admin.t :=
  Admin.mk "admin-2" "bob@example.org" "bob" "Bob Ray" "hunter2hunter" false
    false None.

Definition two_admins : list Admin.t := [ada; bob].

Definition plain_security : admin.Security :=
  admin.mkSecurity (fun password hashed => inr (String.eqb password hashed))
    (fun subject => inr subject)
    (fun token => inr (Some token)).

End Sample.

(** Unfolding of the combinators of [M]. *)
Ltac run :=
  unfold guarded, LeadService.logged, try_except, bind, lift, raise, ret.

(** The two outcomes of the transport for the message of the goal. *)
Ltac handed_to_transport :=
  match goal with
  | |- context [smtp_send ?env ?m] =>
      let E := fresh "E" in
      destruct (smtp_send env m) as [? | []] eqn:E;
      do 2 eexists; (split; [reflexivity |]); (split; [reflexivity |]);
      right; exists m; rewrite E; repeat split; auto; discriminate
  end.

(** * Properties *)

(** ** Regular expressions: the matcher decides membership *)

Lemma matches_nil_app (r1 r2 : Re.re) :
  Re.matches r1 [] -> Re.matches r2 [] -> Re.matches (Re.Cat r1 r2) [].
Proof.
  intros H1 H2. change (@nil ascii) with (@nil ascii ++ []).
  now constructor.
Qed.

Lemma nullable_matches (r : Re.re) :
  Re.nullable r = true <-> Re.matches r [].
Proof.
  split.
  - induction r; simpl; intros H; try discriminate.
    + constructor.
    + apply andb_true_iff in H as [H1 H2]. apply matches_nil_app; auto.
    + apply orb_true_iff in H as [H | H].
      * apply Re.MAltL; auto.
      * apply Re.MAltR; auto.
    + constructor.
  - intros H. remember (@nil ascii) as s eqn:Es.
    induction H; simpl; auto.
    + discriminate.
    + apply app_eq_nil in Es as [E1 E2].
      rewrite IHmatches1, IHmatches2; auto.
    + rewrite IHmatches; auto.
    + rewrite IHmatches; auto using orb_true_r.
Qed.

Lemma matches_deriv (c : ascii) (r : Re.re) (s : list ascii) :
  Re.matches (Re.deriv c r) s -> Re.matches r (c :: s).
Proof.
  revert s. induction r; simpl; intros s H.
  - inversion H.
  - inversion H.
  - destruct (p c) eqn:E; inversion H; subst. now constructor.
  - assert (Hcat : forall s, Re.matches (Re.Cat (Re.deriv c r1) r2) s ->
                             Re.matches (Re.Cat r1 r2) (c :: s)).
    { intros s0 H0. inversion H0; subst.
      change (c :: s1 ++ s2) with ((c :: s1) ++ s2). constructor; auto. }
    destruct (Re.nullable r1) eqn:E.
    + inversion H; subst; auto.
      change (c :: s) with ([] ++ c :: s). constructor; auto.
      now apply nullable_matches.
    + auto.
  - inversion H; subst.
    + apply Re.MAltL; auto.
    + apply Re.MAltR; auto.
  - inversion H; subst.
    change (c :: s1 ++ s2) with ((c :: s1) ++ s2). constructor; auto.
Qed.

Lemma deriv_matches (c : ascii) (r : Re.re) (s : list ascii) :
  Re.matches r (c :: s) -> Re.matches (Re.deriv c r) s.
Proof.
  intros H. remember (c :: s) as s0 eqn:Es. revert c s Es.
  induction H; intros c0 s0 Es; simpl.
  - discriminate.
  - injection Es as -> <-. rewrite H. constructor.
  - destruct s1 as [| a s1'].
    + simpl in Es. subst s2.
      assert (N : Re.nullable r1 = true) by now apply nullable_matches.
      rewrite N. apply Re.MAltR. now apply IHmatches2.
    + simpl in Es. injection Es as -> <-.
      assert (C : Re.matches (Re.Cat (Re.deriv c0 r1) r2) (s1' ++ s2)).
      { constructor; auto. }
      destruct (Re.nullable r1); auto. now apply Re.MAltL.
  - apply Re.MAltL; auto.
  - apply Re.MAltR; auto.
  - discriminate.
  - destruct s1 as [| a s1'].
    + simpl in Es. now apply IHmatches2.
    + simpl in Es. injection Es as -> <-.
      constructor; auto.
Qed.

Lemma fullmatch_matches (r : Re.re) (s : list ascii) :
  Re.fullmatch r s = true <-> Re.matches r s.
Proof.
  revert r. induction s as [| c s IH]; intros r; simpl.
  - apply nullable_matches.
  - rewrite IH. split; [apply matches_deriv | apply deriv_matches].
Qed.

(** Inversions. *)

Lemma matches_Cat_inv (r1 r2 : Re.re) (s : list ascii) :
  Re.matches (Re.Cat r1 r2) s ->
  exists s1 s2, s = s1 ++ s2 /\ Re.matches r1 s1 /\ Re.matches r2 s2.
Proof. intros H. inversion H; subst. eauto. Qed.

Lemma matches_Cls_inv (p : ascii -> bool) (s : list ascii) :
  Re.matches (Re.Cls p) s -> exists c, s = [c] /\ p c = true.
Proof. intros H. inversion H; subst. eauto. Qed.

Lemma matches_Eps_inv (s : list ascii) : Re.matches Re.Eps s -> s = [].
Proof. intros H. now inversion H. Qed.

Lemma matches_Alt_inv (r1 r2 : Re.re) (s : list ascii) :
  Re.matches (Re.Alt r1 r2) s -> Re.matches r1 s \/ Re.matches r2 s.
Proof. intros H. inversion H; subst; auto. Qed.

Lemma matches_Rep_cls (p : ascii -> bool) (n : nat) (s : list ascii) :
  Re.matches (Re.Rep n (Re.Cls p)) s <->
  List.length s = n /\ forallb p s = true.
Proof.
  revert s. induction n as [| n IH]; intros s; simpl.
  - split.
    + intros H. apply matches_Eps_inv in H. subst. auto.
    + intros [H _]. destruct s; try discriminate. constructor.
  - split.
    + intros H. apply matches_Cat_inv in H as (s1 & s2 & -> & H1 & H2).
      apply matches_Cls_inv in H1 as (c & -> & Hc).
      apply IH in H2 as [H2 H3]. simpl. rewrite Hc, H3, H2. auto.
    + intros [Hl Hp]. destruct s as [| c s]; try discriminate.
      simpl in *. apply andb_true_iff in Hp as [Hc Hp].
      change (c :: s) with ([c] ++ s). constructor.
      * now constructor.
      * apply IH. split; auto.
Qed.

Lemma matches_UpTo_cls (p : ascii -> bool) (k : nat) (s : list ascii) :
  Re.matches (Re.UpTo k (Re.Cls p)) s <->
  (List.length s <= k)%nat /\ forallb p s = true.
Proof.
  revert s. induction k as [| k IH]; intros s; simpl.
  - split.
    + intros H. apply matches_Eps_inv in H. subst. auto.
    + intros [H _]. destruct s; simpl in H; try lia. constructor.
  - unfold Re.Opt. split.
    + intros H. apply matches_Alt_inv in H as [H | H].
      * apply matches_Eps_inv in H. subst. simpl. split; auto. lia.
      * apply matches_Cat_inv in H as (s1 & s2 & -> & H1 & H2).
        apply matches_Cls_inv in H1 as (c & -> & Hc).
        apply IH in H2 as [H2 H3]. simpl. rewrite Hc, H3. split; auto. lia.
    + intros [Hl Hp]. destruct s as [| c s].
      * apply Re.MAltL. constructor.
      * simpl in *. apply andb_true_iff in Hp as [Hc Hp].
        apply Re.MAltR. change (c :: s) with ([c] ++ s). constructor.
        -- now constructor.
        -- apply IH. split; auto. lia.
Qed.

Lemma matches_Range_cls (p : ascii -> bool) (n m : nat) (s : list ascii) :
  (n <= m)%nat ->
  Re.matches (Re.Range n m (Re.Cls p)) s <->
  (n <= List.length s <= m)%nat /\ forallb p s = true.
Proof.
  intros Hnm. unfold Re.Range. split.
  - intros H. apply matches_Cat_inv in H as (s1 & s2 & -> & H1 & H2).
    apply matches_Rep_cls in H1 as [L1 P1].
    apply matches_UpTo_cls in H2 as [L2 P2].
    rewrite length_app, forallb_app, P1, P2. split; auto. lia.
  - intros [Hl Hp].
    rewrite <- (firstn_skipn n s). rewrite <- (firstn_skipn n s) in Hp.
    rewrite forallb_app in Hp. apply andb_true_iff in Hp as [P1 P2].
    constructor.
    + apply matches_Rep_cls. split; auto. rewrite length_firstn. lia.
    + apply matches_UpTo_cls. split; auto. rewrite length_skipn. lia.
Qed.

(** ** Phone numbers *)

Lemma chars_str (l : list ascii) : chars (str l) = l.
Proof. apply list_ascii_of_string_of_list_ascii. Qed.

Lemma is_char_eq (a c : ascii) : is_char a c = true -> c = a.
Proof. unfold is_char. intros H. apply Ascii.eqb_eq in H. auto. Qed.

Lemma plus_not_digit (c : ascii) :
  is_char "+" c = true -> is_digit c = false.
Proof. intros H. apply is_char_eq in H. subst. reflexivity. Qed.

(** The pattern of the phone check accepts exactly the normalized form. *)
Lemma phone_pattern_normalized (l : list ascii) :
  Re.fullmatch validation.phone_pattern l = true <->
  is_normalized (str l) = true.
Proof.
  unfold is_normalized. rewrite chars_str, fullmatch_matches.
  unfold validation.phone_pattern.
  rewrite !andb_true_iff, Nat.leb_le, Nat.leb_le. split.
  - intros H. apply matches_Cat_inv in H as (s1 & s2 & -> & H1 & H2).
    apply matches_Range_cls in H2 as [[L1 L2] P]; [| lia].
    apply matches_Alt_inv in H1 as [H1 | H1].
    + apply matches_Eps_inv in H1. subst s1. simpl.
      destruct s2 as [| c t]; simpl in *; [lia |].
      destruct (is_char "+" c) eqn:E.
      * apply plus_not_digit in E. rewrite E in P. discriminate.
      * repeat split; auto; lia.
    + apply matches_Cls_inv in H1 as (c & -> & Hc). fold (is_char "+" c) in Hc.
      simpl. rewrite Hc. repeat split; auto; lia.
  - intros [[P L1] L2]. destruct l as [| c t]; simpl in *; [lia |].
    destruct (is_char "+" c) eqn:E.
    + change (c :: t) with ([c] ++ t). constructor.
      * apply Re.MAltR. now constructor.
      * apply matches_Range_cls; [lia | auto].
    + change (c :: t) with ([] ++ c :: t). constructor.
      * apply Re.MAltL. constructor.
      * apply matches_Range_cls; [lia | auto].
Qed.

Lemma ends_with_newline_false (l : list ascii) :
  (forall c, In c l -> code c <> 10%nat) -> Re.ends_with_newline l = false.
Proof.
  intros H. unfold Re.ends_with_newline.
  destruct (rev l) as [| c t] eqn:E; auto.
  apply Nat.eqb_neq, H, in_rev. rewrite E. now left.
Qed.

Lemma kept_not_newline (c : ascii) :
  negb (validation.not_digit_or_plus c) = true -> code c <> 10%nat.
Proof.
  unfold validation.not_digit_or_plus. rewrite negb_involutive.
  intros H. apply orb_true_iff in H as [H | H].
  - unfold is_digit, in_range in H. apply andb_true_iff in H as [H _].
    apply Nat.leb_le in H. lia.
  - apply is_char_eq in H. subst. discriminate.
Qed.

Lemma cleaned_match (phone : string) :
  Re.match_anchored validation.phone_pattern (cleaned_phone phone)
  = is_normalized (cleaned_phone phone).
Proof.
  unfold Re.match_anchored, cleaned_phone, Re.sub_delete.
  rewrite chars_str, ends_with_newline_false.
  - simpl. rewrite orb_false_r.
    apply eq_true_iff_eq. apply phone_pattern_normalized.
  - intros c Hc. apply filter_In in Hc as [_ Hc]. now apply kept_not_newline.
Qed.

(** What [validate_phone_format] computes: the cleaned string has 10 to
    15 characters, the [+] counted, and is in normalized form. *)
Lemma validate_phone_format_eq (phone : string) :
  validation.validate_phone_format phone
  = negb ((len (cleaned_phone phone) <? 10)%nat
          || (15 <? len (cleaned_phone phone))%nat)
    && is_normalized (cleaned_phone phone).
Proof.
  unfold validation.validate_phone_format. fold (cleaned_phone phone).
  rewrite cleaned_match.
  destruct ((len (cleaned_phone phone) <? 10)%nat
            || (15 <? len (cleaned_phone phone))%nat); reflexivity.
Qed.

Lemma digits_part_length (l : list ascii) :
  forallb is_digit (digits_part l) = true ->
  List.length (filter is_digit l) = List.length (digits_part l).
Proof.
  assert (F : forall d, forallb is_digit d = true -> filter is_digit d = d).
  { induction d as [| c d IH]; simpl; auto.
    intros H. apply andb_true_iff in H as [Hc Hd].
    rewrite Hc, IH; auto. }
  destruct l as [| c t]; simpl; auto.
  destruct (is_char "+" c) eqn:E.
  - intros H. rewrite (plus_not_digit _ E), F; auto.
  - intros H. pose proof (F (c :: t) H) as Fc. simpl in Fc.
    rewrite Fc. reflexivity.
Qed.

(** The check in the words of the specification is the membership of the
    cleaned string in the normalized form. *)
Lemma spec_phone_valid_eq (phone : string) :
  spec_phone_valid phone = is_normalized (cleaned_phone phone).
Proof.
  unfold spec_phone_valid. fold (cleaned_phone phone).
  rewrite cleaned_match.
  destruct (is_normalized (cleaned_phone phone)) eqn:N.
  - rewrite andb_true_r. unfold is_normalized in N.
    apply andb_true_iff in N as [N L2]. apply andb_true_iff in N as [P L1].
    unfold digit_count. rewrite (digits_part_length _ P).
    apply Nat.leb_le in L1, L2.
    assert (A : (List.length (digits_part (chars (cleaned_phone phone))) <? 10)%nat = false)
      by (apply Nat.ltb_ge; lia).
    assert (B : (15 <? List.length (digits_part (chars (cleaned_phone phone))))%nat = false)
      by (apply Nat.ltb_ge; lia).
    rewrite A, B. reflexivity.
  - apply andb_false_r.
Qed.

Lemma normalized_length (p : string) :
  is_normalized p = true -> (10 <= len p)%nat.
Proof.
  unfold is_normalized, len. intros N.
  apply andb_true_iff in N as [N _]. apply andb_true_iff in N as [_ L].
  apply Nat.leb_le in L.
  destruct (chars p) as [| c t]; simpl in *; [lia |].
  destruct (is_char "+" c); simpl in *; lia.
Qed.

(** The code agrees with the specification's check but for the bound on
    the length, which counts the [+]. *)
Lemma validate_phone_format_spec (phone : string) :
  validation.validate_phone_format phone
  = spec_phone_valid phone && (len (cleaned_phone phone) <=? 15)%nat.
Proof.
  rewrite validate_phone_format_eq, spec_phone_valid_eq.
  destruct (is_normalized (cleaned_phone phone)) eqn:N.
  - apply normalized_length in N. rewrite andb_true_r. simpl.
    assert (A : (len (cleaned_phone phone) <? 10)%nat = false)
      by (apply Nat.ltb_ge; lia).
    rewrite A. simpl.
    destruct (Nat.leb_spec (len (cleaned_phone phone)) 15);
      destruct (Nat.ltb_spec 15 (len (cleaned_phone phone))); simpl; auto; lia.
  - rewrite andb_false_r. reflexivity.
Qed.

Lemma validate_phone_format_normalized (phone : string) :
  validation.validate_phone_format phone = true ->
  is_normalized (cleaned_phone phone) = true.
Proof.
  rewrite validate_phone_format_eq. intros H.
  now apply andb_true_iff in H as [_ H].
Qed.

(** C3. A [+] followed by fifteen digits has a digit count of 15 and
    matches the pattern, so the check worded by the specification accepts
    it, but [validate_phone_format] rejects it: its length test counts the
    sixteen characters of the cleaned string. On every input the code is
    the check of the specification together with that bound of 15
    characters. The two inputs named by the specification are rejected and
    accepted as it says. *)
Theorem phone_plus_fifteen_digits_rejected :
  (forall phone,
      validation.validate_phone_format phone
      = spec_phone_valid phone && (len (cleaned_phone phone) <=? 15)%nat)
  /\ cleaned_phone "+123456789012345" = "+123456789012345"%string
  /\ digit_count (cleaned_phone "+123456789012345") = 15%nat
  /\ Re.match_anchored validation.phone_pattern
       (cleaned_phone "+123456789012345") = true
  /\ spec_phone_valid "+123456789012345" = true
  /\ validation.validate_phone_format "+123456789012345" = false
  /\ validation.validate_phone_format "123" = false
  /\ validation.validate_phone_format "+1-555-0123-4567" = true.
Proof.
  split; [exact validate_phone_format_spec |].
  repeat split; vm_compute; reflexivity.
Qed.

(** ** The notification dispatcher never raises *)

Lemma _send_email_total (env : Env) (to_email subject html_content : string)
    (text_content attachment_path : option string) (w : World) :
  exists b w',
    EmailService._send_email env to_email subject html_content
      text_content attachment_path w = (inr b, w')
    /\ leads w' = leads w.
Proof.
  unfold EmailService._send_email, EmailService.send. run.
  destruct attachment_path as [path |].
  - destruct (truthy path && path_exists env path).
    + destruct (read_file env path) as [e | data].
      * eauto.
      * destruct (smtp_send env _); eauto.
    + destruct (smtp_send env _); eauto.
  - destruct (smtp_send env _); eauto.
Qed.

Lemma send_cv_email_total (env : Env) (to_email name : string)
    (company purpose : option string) (w : World) :
  exists b w',
    EmailService.send_cv_email env to_email name company purpose w
    = (inr b, w')
    /\ leads w' = leads w.
Proof.
  unfold EmailService.send_cv_email, bind.
  destruct (_send_email_total env to_email
              "Charles Nwankpa - AI Product Engineer CV"
              (EmailService._generate_cv_email_html env name company purpose)
              (Some (EmailService._generate_cv_email_text env name company purpose))
              (Some (CV_FILE_PATH (settings env))) w) as (b & w' & E & L).
  rewrite E. unfold ret. eauto.
Qed.

(** A transport that raises makes the send return [False]. *)
Lemma _send_email_transport_down (env : Env)
    (to_email subject html_content : string)
    (text_content attachment_path : option string) (w : World) :
  (forall m, exists e, smtp_send env m = inl e) ->
  exists w',
    EmailService._send_email env to_email subject html_content
      text_content attachment_path w = (inr false, w')
    /\ leads w' = leads w.
Proof.
  intros Down. unfold EmailService._send_email, EmailService.send. run.
  destruct attachment_path as [path |].
  - destruct (truthy path && path_exists env path).
    + destruct (read_file env path) as [e | data].
      * eauto.
      * match goal with |- context [smtp_send env ?m] =>
          destruct (Down m) as [e ->] end. eauto.
    + match goal with |- context [smtp_send env ?m] =>
        destruct (Down m) as [e ->] end. eauto.
  - match goal with |- context [smtp_send env ?m] =>
      destruct (Down m) as [e ->] end. eauto.
Qed.

(** ** Order of the checks of the intake endpoint *)

Lemma validate_request_data_eq (cv : CVRequest.t) :
  validation.validate_request_data cv
  = match first_violated [Name; Email; Phone; Purpose; SpamScan] cv with
    | Some r => inl (failure r cv)
    | None => inr tt
    end.
Proof.
  unfold validation.validate_request_data, first_violated.
  cbn [find violates].
  destruct (negb (truthy (CVRequest.name cv))
            || (len (strip (CVRequest.name cv)) <? 2)%nat); [reflexivity |].
  destruct (truthy (CVRequest.email cv)) eqn:Te; cbn [negb orb];
    [| cbn [failure]; rewrite Te; reflexivity].
  destruct (validation.validate_email_format (CVRequest.email cv));
    cbn [negb]; [| cbn [failure]; rewrite Te; reflexivity].
  destruct (truthy (CVRequest.phone cv)) eqn:Tp; cbn [negb orb];
    [| cbn [failure]; rewrite Tp; reflexivity].
  destruct (validation.validate_phone_format (CVRequest.phone cv));
    cbn [negb]; [| cbn [failure]; rewrite Tp; reflexivity].
  destruct (validation.purpose_too_long (CVRequest.purpose cv));
    [reflexivity |].
  destruct (validation.suspicious cv); reflexivity.
Qed.

Lemma failure_is_400 (r : Rule) (cv : CVRequest.t) :
  exists detail, failure r cv = HTTPException 400 detail.
Proof.
  destruct r; simpl; eauto.
  - destruct (truthy (CVRequest.email cv)); eauto.
  - destruct (truthy (CVRequest.phone cv)); eauto.
Qed.

Lemma request_cv_rejects (env : Env) (request : cv_request.Request)
    (cv : CVRequest.t) (w : World) (r : Rule) :
  first_violated code_order cv = Some r ->
  cv_request.request_cv env request cv w = (inl (failure r cv), w).
Proof.
  unfold first_violated, code_order. cbn [find]. intros H.
  unfold cv_request.request_cv. run.
  change (negb (validation.validate_honeypot (Some (CVRequest.website cv))))
    with (violates Honeypot cv).
  change (negb (CVRequest.consent cv)) with (violates Consent cv).
  rewrite validate_request_data_eq. unfold first_violated. cbn [find].
  destruct (violates Honeypot cv).
  { injection H as <-. reflexivity. }
  destruct (violates Name cv).
  { injection H as <-. reflexivity. }
  destruct (violates Email cv).
  { injection H as <-. destruct (failure_is_400 Email cv) as [d ->].
    reflexivity. }
  destruct (violates Phone cv).
  { injection H as <-. destruct (failure_is_400 Phone cv) as [d ->].
    reflexivity. }
  destruct (violates Purpose cv).
  { injection H as <-. reflexivity. }
  destruct (violates SpamScan cv).
  { injection H as <-. reflexivity. }
  destruct (violates Consent cv).
  { injection H as <-. reflexivity. }
  discriminate.
Qed.

Lemma lookup_none_existsb (lead_id : string) (w : World) :
  lookup lead_id w = None ->
  existsb (fun r => String.eqb (Lead.id r) lead_id) (leads w) = false.
Proof.
  unfold lookup. induction (leads w) as [| x l IH]; simpl; auto.
  destruct (String.eqb (Lead.id x) lead_id); [discriminate | auto].
Qed.

Lemma lookup_some_existsb (lead_id : string) (w : World) (lead : Lead.t) :
  lookup lead_id w = Some lead ->
  existsb (fun r => String.eqb (Lead.id r) lead_id) (leads w) = true.
Proof.
  unfold lookup. induction (leads w) as [| x l IH]; simpl; [discriminate |].
  destruct (String.eqb (Lead.id x) lead_id); auto.
Qed.

(** A request that violates no rule is persisted, then notified, and is
    answered by the success response whatever the send returns. *)
Lemma request_cv_accepts (env : Env) (request : cv_request.Request)
    (cv : CVRequest.t) (w : World) :
  first_violated code_order cv = None ->
  lookup (uuid4 env) w = None ->
  exists b w',
    EmailService.send_cv_email env (CVRequest.email cv) (CVRequest.name cv)
      (CVRequest.company cv) (CVRequest.purpose cv)
      (mkWorld (leads w ++ [intake_row env request cv]) (outbox w))
    = (inr b, w')
    /\ cv_request.request_cv env request cv w = (inr (intake_success env), w')
    /\ leads w' = leads w ++ [intake_row env request cv].
Proof.
  unfold first_violated, code_order. cbn [find]. intros H Fresh.
  destruct (send_cv_email_total env (CVRequest.email cv) (CVRequest.name cv)
              (CVRequest.company cv) (CVRequest.purpose cv)
              (mkWorld (leads w ++ [intake_row env request cv]) (outbox w)))
    as (b & w' & E & L).
  exists b, w'. split; [exact E |]. split; [| exact L].
  unfold cv_request.request_cv, LeadService.create_lead, SQL.insert. run.
  change (negb (validation.validate_honeypot (Some (CVRequest.website cv))))
    with (violates Honeypot cv).
  change (negb (CVRequest.consent cv)) with (violates Consent cv).
  rewrite validate_request_data_eq. unfold first_violated. cbn [find].
  destruct (violates Honeypot cv); [discriminate |].
  destruct (violates Name cv); [discriminate |].
  destruct (violates Email cv); [discriminate |].
  destruct (violates Phone cv); [discriminate |].
  destruct (violates Purpose cv); [discriminate |].
  destruct (violates SpamScan cv); [discriminate |].
  destruct (violates Consent cv); [discriminate |].
  cbn [LeadService.id Lead.id].
  rewrite (lookup_none_existsb _ _ Fresh).
  unfold intake_row in E. cbn [LeadStatus_value].
  unfold LeadService.name, LeadService.email.
  cbn.
  rewrite E. reflexivity.
Qed.

Lemma request_cv_duplicate_id (env : Env) (request : cv_request.Request)
    (cv : CVRequest.t) (w : World) (lead : Lead.t) :
  first_violated code_order cv = None ->
  lookup (uuid4 env) w = Some lead ->
  cv_request.request_cv env request cv w
  = (inl (HTTPException 500 "Internal server error. Please try again later."),
     w).
Proof.
  unfold first_violated, code_order. cbn [find]. intros H Dup.
  unfold cv_request.request_cv, LeadService.create_lead, SQL.insert. run.
  change (negb (validation.validate_honeypot (Some (CVRequest.website cv))))
    with (violates Honeypot cv).
  change (negb (CVRequest.consent cv)) with (violates Consent cv).
  rewrite validate_request_data_eq. unfold first_violated. cbn [find].
  destruct (violates Honeypot cv); [discriminate |].
  destruct (violates Name cv); [discriminate |].
  destruct (violates Email cv); [discriminate |].
  destruct (violates Phone cv); [discriminate |].
  destruct (violates Purpose cv); [discriminate |].
  destruct (violates SpamScan cv); [discriminate |].
  destruct (violates Consent cv); [discriminate |].
  cbn [LeadService.id Lead.id].
  rewrite (lookup_some_existsb _ _ Dup). reflexivity.
Qed.

Lemma first_violated_none (order : list Rule) (cv : CVRequest.t) (r : Rule) :
  first_violated order cv = None -> In r order -> violates r cv = false.
Proof.
  unfold first_violated. intros H I.
  exact (find_none (fun r => violates r cv) order H r I).
Qed.

(** What a returned response tells: no rule was violated, the identifier
    was new, and the row of the request was appended. *)
Lemma request_cv_returned (env : Env) (request : cv_request.Request)
    (cv : CVRequest.t) (w w' : World) (resp : cv_request.CVResponse) :
  cv_request.request_cv env request cv w = (inr resp, w') ->
  first_violated code_order cv = None
  /\ lookup (uuid4 env) w = None
  /\ resp = intake_success env
  /\ leads w' = leads w ++ [intake_row env request cv].
Proof.
  intros H.
  destruct (first_violated code_order cv) as [r |] eqn:V.
  { rewrite (request_cv_rejects env request cv w V) in H. discriminate. }
  destruct (lookup (uuid4 env) w) as [lead |] eqn:F.
  { rewrite (request_cv_duplicate_id env request cv w V F) in H.
    discriminate. }
  destruct (request_cv_accepts env request cv w V F) as (b & w1 & _ & E & L).
  rewrite E in H. injection H as <- <-. auto.
Qed.

Lemma find_app_new (f : Lead.t -> bool) (l : list Lead.t) (row : Lead.t) :
  find f l = None -> f row = true -> find f (l ++ [row]) = Some row.
Proof.
  intros N T. induction l as [| x l IH]; simpl in *.
  - now rewrite T.
  - destruct (f x); [discriminate | auto].
Qed.

Lemma lookup_app_new (lead_id : string) (w w' : World) (row : Lead.t) :
  lookup lead_id w = None ->
  Lead.id row = lead_id ->
  leads w' = leads w ++ [row] ->
  lookup lead_id w' = Some row.
Proof.
  unfold lookup. intros N I L. rewrite L.
  apply find_app_new; auto. rewrite I. apply String.eqb_refl.
Qed.

(** ** The request schema runs before the endpoint *)

Lemma parse_requires_consent (EmailStr : string -> string + string)
    (raw cv : CVRequest.t) :
  CVRequest.parse EmailStr raw = inr cv ->
  CVRequest.consent raw = true /\ CVRequest.consent cv = true.
Proof.
  unfold CVRequest.parse, CVRequest.validate_consent,
    CVRequest.validate_honeypot.
  destruct (CVRequest.validate_name (CVRequest.name raw));
    destruct (EmailStr (CVRequest.email raw));
    destruct (CVRequest.validate_phone (CVRequest.phone raw));
    destruct (CVRequest.validate_purpose (CVRequest.purpose raw));
    destruct (CVRequest.consent raw); simpl; intros H;
    try discriminate.
  injection H as <-. auto.
Qed.

Lemma parse_without_consent (EmailStr : string -> string + string)
    (raw : CVRequest.t) :
  CVRequest.consent raw = false ->
  exists errors,
    CVRequest.parse EmailStr raw = inl errors
    /\ In ("consent"%string, "Consent is required"%string) errors.
Proof.
  intros C. unfold CVRequest.parse, CVRequest.validate_consent.
  rewrite C. simpl negb. cbv iota.
  destruct (CVRequest.validate_name (CVRequest.name raw));
    destruct (EmailStr (CVRequest.email raw));
    destruct (CVRequest.validate_phone (CVRequest.phone raw));
    destruct (CVRequest.validate_purpose (CVRequest.purpose raw));
    eexists; (split; [reflexivity |]);
    rewrite !in_app_iff; do 4 right; left; left; reflexivity.
Qed.

(** C2. The scenario's payload with [consent] false does not reach the
    endpoint: the request model refuses it, the client gets the
    framework's validation error with the message of the [consent]
    validator, and nothing is persisted or sent. The answer is not the
    [HTTPException(400, "Consent is required")] that the endpoint would
    raise for the same fields. The same holds of every body whose
    [consent] is false. *)
Theorem post_without_consent_refused_by_schema :
  forall (EmailStr : string -> string + string) env request w,
    (forall name email phone company role purpose website,
        exists errors,
          cv_request.post_request_cv EmailStr env request
            (CVRequest.mk name email phone company role purpose false website)
            w
          = (cv_request.RequestValidationError errors, w)
          /\ In ("consent"%string, "Consent is required"%string) errors)
    /\ (exists errors,
        cv_request.post_request_cv EmailStr env request
          Sample.john_without_consent w
        = (cv_request.RequestValidationError errors, w)
        /\ In ("consent"%string, "Consent is required"%string) errors)
    /\ fst (cv_request.post_request_cv EmailStr env request
              Sample.john_without_consent w)
       <> cv_request.Raised (HTTPException 400 "Consent is required")
    /\ cv_request.request_cv env request Sample.john_without_consent w
       = (inl (HTTPException 400 "Consent is required"), w).
Proof.
  intros EmailStr env request w. split.
  { intros name email phone company role purpose website.
    destruct (parse_without_consent EmailStr
                (CVRequest.mk name email phone company role purpose false
                   website) eq_refl) as (errors & P & I).
    unfold cv_request.post_request_cv. rewrite P. eauto. }
  destruct (parse_without_consent EmailStr Sample.john_without_consent eq_refl)
    as (errors & P & I).
  unfold cv_request.post_request_cv. rewrite P.
  split; [eauto |]. split; [simpl; discriminate |].
  apply (request_cv_rejects env request Sample.john_without_consent w
           (r := Consent)).
  vm_compute. reflexivity.
Qed.

Lemma post_request_cv_refused (EmailStr : string -> string + string)
    (env : Env) (request : cv_request.Request) (body : CVRequest.t)
    (w : World) (errors : list CVRequest.FieldError) :
  CVRequest.parse EmailStr body = inl errors ->
  cv_request.post_request_cv EmailStr env request body w
  = (cv_request.RequestValidationError errors, w).
Proof. intros P. unfold cv_request.post_request_cv. now rewrite P. Qed.

Lemma post_request_cv_rejects (EmailStr : string -> string + string)
    (env : Env) (request : cv_request.Request) (body cv : CVRequest.t)
    (w : World) (r : Rule) :
  CVRequest.parse EmailStr body = inr cv ->
  first_violated code_order cv = Some r ->
  cv_request.post_request_cv EmailStr env request body w
  = (cv_request.Raised (failure r cv), w).
Proof.
  intros P V. unfold cv_request.post_request_cv.
  now rewrite P, (request_cv_rejects env request cv w V).
Qed.

(** C1, the claim as the specification states it, refuted: a body with
    a filled honeypot and no consent violates the honeypot rule, the first
    in the order of the specification, and the consent rule, the sixth.
    The failure reported is the one of the consent, by the request model;
    the check of the honeypot is not reached. Nor do the checks of the
    model fail fast: the body of [test_invalid_cv_request] gets its four
    failures together. *)
Lemma consent_reported_before_honeypot :
  first_violated spec_order Sample.john_bot_without_consent = Some Honeypot
  /\ cv_request.post_request_cv Sample.EmailStr Sample.env_ok
       Sample.the_request Sample.john_bot_without_consent Sample.empty_world
     = (cv_request.RequestValidationError
          [("consent"%string, "Consent is required"%string)],
        Sample.empty_world)
  /\ fst (cv_request.post_request_cv Sample.EmailStr Sample.env_ok
            Sample.the_request Sample.john_bot_without_consent
            Sample.empty_world)
     <> cv_request.Raised (failure Honeypot Sample.john_bot_without_consent)
  /\ cv_request.post_request_cv Sample.EmailStr Sample.env_ok
       Sample.the_request Sample.invalid_data Sample.empty_world
     = (cv_request.RequestValidationError
          [("name"%string, "Name must be at least 2 characters long"%string);
           ("email"%string, "value is not a valid email address"%string);
           ("phone"%string,
            "Phone number must be at least 10 characters long"%string);
           ("consent"%string, "Consent is required"%string)],
        Sample.empty_world).
Proof.
  repeat split; try (vm_compute; reflexivity).
  vm_compute. discriminate.
Qed.

(** C1 (as amended). The rules are applied in two stages. The request
    model is built first, and a body that fails one of its checks, the
    consent among them, is refused with the failures the model has found,
    before the endpoint runs and with no side effect. A body that the
    model accepts then meets the checks of the endpoint in the order
    honeypot, name, email, phone, purpose, spam scan, and is refused with
    the failure of the first rule violated, with no side effect; the
    consent check of the endpoint, which comes last, never fails. When no
    rule is violated the answer is not a 400. In particular a body that
    violates both the consent rule and the spam scan is answered by the
    failure of the consent, and the spam scan is not run. *)
Theorem validation_order_of_request_cv :
  (forall EmailStr env request body w errors,
      CVRequest.parse EmailStr body = inl errors ->
      cv_request.post_request_cv EmailStr env request body w
      = (cv_request.RequestValidationError errors, w))
  /\ (forall EmailStr env request body cv w r,
         CVRequest.parse EmailStr body = inr cv ->
         first_violated code_order cv = Some r ->
         cv_request.post_request_cv EmailStr env request body w
         = (cv_request.Raised (failure r cv), w)
         /\ r <> Consent)
  /\ (forall EmailStr env request body cv w,
         CVRequest.parse EmailStr body = inr cv ->
         first_violated code_order cv = None ->
         forall detail,
           fst (cv_request.post_request_cv EmailStr env request body w)
           <> cv_request.Raised (HTTPException 400 detail))
  /\ (forall EmailStr env request body w,
         violates Consent body = true ->
         violates SpamScan body = true ->
         exists errors,
           cv_request.post_request_cv EmailStr env request body w
           = (cv_request.RequestValidationError errors, w)
           /\ In ("consent"%string, "Consent is required"%string) errors).
Proof.
  split; [| split; [| split]].
  - intros. now apply post_request_cv_refused.
  - intros EmailStr env request body cv w r P V.
    split; [now apply post_request_cv_rejects |].
    intros ->. apply parse_requires_consent in P as [_ C].
    unfold first_violated in V. apply find_some in V as [_ V].
    cbn [violates] in V. rewrite C in V. discriminate.
  - intros EmailStr env request body cv w P V detail.
    unfold cv_request.post_request_cv. rewrite P.
    destruct (lookup (uuid4 env) w) as [lead |] eqn:F.
    + rewrite (request_cv_duplicate_id env request cv w V F). simpl.
      discriminate.
    + destruct (request_cv_accepts env request cv w V F)
        as (b & w1 & _ & E & _).
      rewrite E. simpl. discriminate.
  - intros EmailStr env request body w C _.
    cbn [violates] in C. apply negb_true_iff in C.
    destruct (parse_without_consent EmailStr body C) as (errors & P & I).
    exists errors. split; [now apply post_request_cv_refused | exact I].
Qed.

Lemma validation_order_of_request_cv_witness :
  cv_request.post_request_cv Sample.EmailStr Sample.env_ok
    Sample.the_request Sample.john_bot Sample.empty_world
  = (cv_request.Raised (HTTPException 400 "Invalid request"),
     Sample.empty_world)
  /\ (forall detail,
         fst (cv_request.post_request_cv Sample.EmailStr Sample.env_ok
                Sample.the_request Sample.john Sample.empty_world)
         <> cv_request.Raised (HTTPException 400 detail))
  /\ exists errors,
      cv_request.post_request_cv Sample.EmailStr Sample.env_ok
        Sample.the_request Sample.john_script_without_consent
        Sample.empty_world
      = (cv_request.RequestValidationError errors, Sample.empty_world)
      /\ In ("consent"%string, "Consent is required"%string) errors.
Proof.
  destruct validation_order_of_request_cv as (_ & A & B & C).
  split; [| split].
  - apply (A Sample.EmailStr Sample.env_ok Sample.the_request
             Sample.john_bot Sample.john_bot Sample.empty_world Honeypot);
      vm_compute; reflexivity.
  - apply (B Sample.EmailStr Sample.env_ok Sample.the_request Sample.john
             Sample.john); vm_compute; reflexivity.
  - apply C; vm_compute; reflexivity.
Defined.

(** C4. A body whose honeypot field is not empty is refused, and the
    world is the one before the request: no row is inserted and no
    message is handed to the transport. It is refused with
    [HTTPException(400, "Invalid request")], by the first check of the
    endpoint, only when the request model accepts it; a body that the
    model refuses is answered with the failures of the model, and the
    honeypot is not looked at. The body of [test_invalid_cv_request],
    whose honeypot is filled and which the test expects to be answered
    with 400, is of the second kind whatever the address type. *)
Theorem honeypot_refused_by_model_or_endpoint :
  (forall EmailStr env request body w,
      CVRequest.website body <> ""%string ->
      snd (cv_request.post_request_cv EmailStr env request body w) = w
      /\ fst (cv_request.post_request_cv EmailStr env request body w)
         = match CVRequest.parse EmailStr body with
           | inl errors => cv_request.RequestValidationError errors
           | inr _ => cv_request.Raised (HTTPException 400 "Invalid request")
           end)
  /\ (forall EmailStr env request w,
         exists errors,
           cv_request.post_request_cv EmailStr env request
             Sample.invalid_data w
           = (cv_request.RequestValidationError errors, w)
           /\ In ("name"%string,
                  "Name must be at least 2 characters long"%string) errors
           /\ In ("phone"%string,
                  "Phone number must be at least 10 characters long"%string)
                errors
           /\ In ("consent"%string, "Consent is required"%string) errors).
Proof.
  split.
  - intros EmailStr env request body w H.
    destruct (CVRequest.parse EmailStr body) as [errors | cv] eqn:P.
    + now rewrite (post_request_cv_refused EmailStr env request body w P).
    + rewrite (post_request_cv_rejects EmailStr env request body w
                 (r := Honeypot) P); [auto |].
      assert (W : CVRequest.website cv = CVRequest.website body).
      { unfold CVRequest.parse, CVRequest.validate_honeypot in P.
        destruct (CVRequest.validate_name (CVRequest.name body));
          destruct (EmailStr (CVRequest.email body));
          destruct (CVRequest.validate_phone (CVRequest.phone body));
          destruct (CVRequest.validate_purpose (CVRequest.purpose body));
          destruct (CVRequest.validate_consent (CVRequest.consent body));
          try discriminate.
        injection P as <-. reflexivity. }
      unfold first_violated, code_order. cbn [find violates].
      unfold validation.validate_honeypot. rewrite W.
      apply String.eqb_neq in H. rewrite H. reflexivity.
  - intros EmailStr env request w.
    unfold cv_request.post_request_cv, CVRequest.parse.
    destruct (EmailStr (CVRequest.email Sample.invalid_data));
      eexists; (split; [reflexivity |]); simpl; intuition auto.
Qed.

Lemma honeypot_refused_by_model_or_endpoint_witness :
  (snd (cv_request.post_request_cv Sample.EmailStr Sample.env_ok
          Sample.the_request Sample.john_bot Sample.three_leads)
   = Sample.three_leads
   /\ fst (cv_request.post_request_cv Sample.EmailStr Sample.env_ok
             Sample.the_request Sample.john_bot Sample.three_leads)
      = cv_request.Raised (HTTPException 400 "Invalid request"))
  /\ (snd (cv_request.post_request_cv Sample.EmailStr Sample.env_ok
             Sample.the_request Sample.invalid_data Sample.three_leads)
      = Sample.three_leads
      /\ fst (cv_request.post_request_cv Sample.EmailStr Sample.env_ok
                Sample.the_request Sample.invalid_data Sample.three_leads)
         = cv_request.RequestValidationError
             [("name"%string,
               "Name must be at least 2 characters long"%string);
              ("email"%string, "value is not a valid email address"%string);
              ("phone"%string,
               "Phone number must be at least 10 characters long"%string);
              ("consent"%string, "Consent is required"%string)]).
Proof.
  destruct honeypot_refused_by_model_or_endpoint as (A & _).
  split.
  - apply (A Sample.EmailStr Sample.env_ok Sample.the_request
             Sample.john_bot Sample.three_leads).
    apply String.eqb_neq. vm_compute. reflexivity.
  - apply (A Sample.EmailStr Sample.env_ok Sample.the_request
             Sample.invalid_data Sample.three_leads).
    apply String.eqb_neq. vm_compute. reflexivity.
Defined.

(** ** What the intake endpoint stores *)

(** C5, the claim as the specification states it, refuted: the scenario's
    request with the phone written [+1-555-0123-4567] is accepted, and the
    row it stores holds the phone with its separators, which is not in
    normalized form. *)
Lemma stored_phone_keeps_separators :
  fst (cv_request.request_cv Sample.env_ok Sample.the_request
         Sample.john_with_separators Sample.empty_world)
  = inr (intake_success Sample.env_ok)
  /\ map Lead.phone
       (leads (snd (cv_request.request_cv Sample.env_ok Sample.the_request
                      Sample.john_with_separators Sample.empty_world)))
     = ["+1-555-0123-4567"%string]
  /\ is_normalized "+1-555-0123-4567" = false.
Proof. repeat split; vm_compute; reflexivity. Qed.

(** C5 (as amended). A lead created by the intake endpoint holds the
    phone of the request object as it was submitted; that string passed
    [validate_phone_format], so what is left of it once the characters
    other than digits and [+] are removed is in normalized form: an
    optional leading [+] and 10 to 15 digits. *)
Theorem stored_phone_is_the_submitted_phone
    (env : Env) (request : cv_request.Request) (cv : CVRequest.t)
    (w w' : World) (resp : cv_request.CVResponse) :
  cv_request.request_cv env request cv w = (inr resp, w') ->
  exists lead,
    leads w' = leads w ++ [lead]
    /\ lookup (cv_request.request_id resp) w' = Some lead
    /\ Lead.phone lead = CVRequest.phone cv
    /\ validation.validate_phone_format (Lead.phone lead) = true
    /\ is_normalized (cleaned_phone (Lead.phone lead)) = true.
Proof.
  intros H. apply request_cv_returned in H as (V & F & -> & L).
  exists (intake_row env request cv).
  assert (P : validation.validate_phone_format (CVRequest.phone cv) = true).
  { assert (N : violates Phone cv = false).
    { apply (first_violated_none code_order); auto.
      unfold code_order. simpl. auto. }
    simpl in N. apply orb_false_iff in N as [_ N].
    now apply negb_false_iff in N. }
  split; [exact L |]. split.
  - eapply lookup_app_new; eauto.
  - simpl. split; [reflexivity |]. split; [exact P |].
    now apply validate_phone_format_normalized.
Qed.

Lemma stored_phone_is_the_submitted_phone_witness :
  exists lead,
    leads (snd (cv_request.request_cv Sample.env_ok Sample.the_request
                  Sample.john_with_separators Sample.three_leads))
    = leads Sample.three_leads ++ [lead]
    /\ lookup (cv_request.request_id (intake_success Sample.env_ok))
         (snd (cv_request.request_cv Sample.env_ok Sample.the_request
                 Sample.john_with_separators Sample.three_leads))
       = Some lead
    /\ Lead.phone lead = CVRequest.phone Sample.john_with_separators
    /\ validation.validate_phone_format (Lead.phone lead) = true
    /\ is_normalized (cleaned_phone (Lead.phone lead)) = true.
Proof.
  apply (stored_phone_is_the_submitted_phone Sample.env_ok
           Sample.the_request Sample.john_with_separators
           Sample.three_leads).
  vm_compute. reflexivity.
Defined.

(** ** A failed send does not fail the request *)

Lemma _send_email_file_error (env : Env)
    (to_email subject html_content path : string)
    (text_content : option string) (e : Exn) (w : World) :
  truthy path = true ->
  path_exists env path = true ->
  read_file env path = inl e ->
  EmailService._send_email env to_email subject html_content
    text_content (Some path) w = (inr false, w).
Proof.
  intros T P R. unfold EmailService._send_email. run.
  rewrite T, P, R. reflexivity.
Qed.

Lemma send_cv_email_transport_down (env : Env) (to_email name : string)
    (company purpose : option string) (w : World) :
  (forall m, exists e, smtp_send env m = inl e) ->
  exists w',
    EmailService.send_cv_email env to_email name company purpose w
    = (inr false, w')
    /\ leads w' = leads w.
Proof.
  intros Down. unfold EmailService.send_cv_email, bind.
  destruct (_send_email_transport_down env to_email
              "Charles Nwankpa - AI Product Engineer CV"
              (EmailService._generate_cv_email_html env name company purpose)
              (Some (EmailService._generate_cv_email_text env name company purpose))
              (Some (CV_FILE_PATH (settings env))) w Down) as (w' & E & L).
  rewrite E. unfold ret. eauto.
Qed.

(** The intake endpoint when the transport raises. *)
Lemma request_cv_transport_down (env : Env) (request : cv_request.Request)
    (cv : CVRequest.t) (w : World) :
  first_violated code_order cv = None ->
  lookup (uuid4 env) w = None ->
  (forall m, exists e, smtp_send env m = inl e) ->
  exists w',
    EmailService.send_cv_email env (CVRequest.email cv)
      (CVRequest.name cv) (CVRequest.company cv) (CVRequest.purpose cv)
      (mkWorld (leads w ++ [intake_row env request cv]) (outbox w))
    = (inr false, w')
    /\ cv_request.request_cv env request cv w
       = (inr (intake_success env), w')
    /\ leads w' = leads w ++ [intake_row env request cv]
    /\ lookup (uuid4 env) w' = Some (intake_row env request cv).
Proof.
  intros V F Down.
  destruct (request_cv_accepts env request cv w V F)
    as (b & w1 & E & R & L).
  destruct (send_cv_email_transport_down env (CVRequest.email cv)
              (CVRequest.name cv) (CVRequest.company cv)
              (CVRequest.purpose cv)
              (mkWorld (leads w ++ [intake_row env request cv]) (outbox w))
              Down) as (w2 & E2 & _).
  rewrite E in E2. injection E2 as -> ->.
  exists w2. repeat split; auto.
  eapply lookup_app_new; eauto.
Qed.

(** C8. [_send_email] and [send_cv_email] return a boolean on every
    input and in every environment, and leave the table as it is; when the
    transport raises, or the file to attach cannot be read, the boolean is
    [False]. In the intake endpoint, for a request that violates no rule
    and a new identifier, a send that fails with a transport that raises
    still ends in the success response with the generated identifier, and
    the row of the request is in the table. *)
Theorem failed_send_is_contained :
  (forall env to_email subject html_content text_content attachment_path w,
      exists b w',
        EmailService._send_email env to_email subject html_content
          text_content attachment_path w = (inr b, w')
        /\ leads w' = leads w)
  /\ (forall env to_email name company purpose w,
         exists b w',
           EmailService.send_cv_email env to_email name company purpose w
           = (inr b, w')
           /\ leads w' = leads w)
  /\ (forall env to_email subject html_content text_content attachment_path w,
         (forall m, exists e, smtp_send env m = inl e) ->
         exists w',
           EmailService._send_email env to_email subject html_content
             text_content attachment_path w = (inr false, w'))
  /\ (forall env to_email subject html_content path text_content e w,
         truthy path = true ->
         path_exists env path = true ->
         read_file env path = inl e ->
         EmailService._send_email env to_email subject html_content
           text_content (Some path) w = (inr false, w))
  /\ (forall env request cv w,
         first_violated code_order cv = None ->
         lookup (uuid4 env) w = None ->
         (forall m, exists e, smtp_send env m = inl e) ->
         exists w',
           EmailService.send_cv_email env (CVRequest.email cv)
             (CVRequest.name cv) (CVRequest.company cv) (CVRequest.purpose cv)
             (mkWorld (leads w ++ [intake_row env request cv]) (outbox w))
           = (inr false, w')
           /\ cv_request.request_cv env request cv w
              = (inr (intake_success env), w')
           /\ cv_request.request_id (intake_success env) = uuid4 env
           /\ leads w' = leads w ++ [intake_row env request cv]
           /\ lookup (uuid4 env) w' = Some (intake_row env request cv)).
Proof.
  split; [| split; [| split; [| split]]].
  - intros. apply _send_email_total.
  - intros. apply send_cv_email_total.
  - intros env to_email subject html_content text_content attachment_path w
      Down.
    destruct (_send_email_transport_down env to_email subject html_content
                text_content attachment_path w Down) as (w' & E & _).
    eauto.
  - intros. eapply _send_email_file_error; eauto.
  - intros env request cv w V F Down.
    destruct (request_cv_transport_down env request cv w V F Down)
      as (w' & E & R & L & K).
    exists w'. repeat split; auto.
Qed.

Lemma failed_send_is_contained_witness :
  (exists w',
      EmailService._send_email Sample.env_smtp_down "john@x.com" "s" "h"
        None None Sample.empty_world = (inr false, w'))
  /\ EmailService._send_email
       (mkEnv Sample.the_settings "id" 0 0 (fun _ => true)
          (fun _ => inl OSError) (fun _ => inr tt)
          (fun n _ _ => n) (fun n _ _ => n))
       "john@x.com" "s" "h" None (Some "cv.pdf"%string) Sample.empty_world
     = (inr false, Sample.empty_world)
  /\ exists w',
      EmailService.send_cv_email Sample.env_smtp_down
        (CVRequest.email Sample.john) (CVRequest.name Sample.john)
        (CVRequest.company Sample.john) (CVRequest.purpose Sample.john)
        (mkWorld (leads Sample.three_leads
                  ++ [intake_row Sample.env_smtp_down Sample.the_request
                        Sample.john])
           (outbox Sample.three_leads))
      = (inr false, w')
      /\ cv_request.request_cv Sample.env_smtp_down Sample.the_request
           Sample.john Sample.three_leads
         = (inr (intake_success Sample.env_smtp_down), w')
      /\ cv_request.request_id (intake_success Sample.env_smtp_down)
         = uuid4 Sample.env_smtp_down
      /\ leads w'
         = leads Sample.three_leads
           ++ [intake_row Sample.env_smtp_down Sample.the_request Sample.john]
      /\ lookup (uuid4 Sample.env_smtp_down) w'
         = Some (intake_row Sample.env_smtp_down Sample.the_request
                   Sample.john).
Proof.
  destruct failed_send_is_contained as (_ & _ & A & B & C).
  split; [| split].
  - apply A. intros m. exists SMTPException. reflexivity.
  - apply (B _ _ _ _ _ _ OSError); reflexivity.
  - apply C.
    + vm_compute. reflexivity.
    + vm_compute. reflexivity.
    + intros m. exists SMTPException. reflexivity.
Defined.

(** ** Reading a lead by its identifier *)

(** The driver accepts the identifier of a stored row, and otherwise the
    text of a UUID only. *)
Lemma uuid_param_eq (lead_id : string) (w : World) :
  SQL.uuid_param lead_id w
  = match lookup lead_id w with
    | Some _ => (inr tt, w)
    | None =>
        if SQL.uuid_text lead_id then (inr tt, w) else (inl DataError, w)
    end.
Proof.
  unfold SQL.uuid_param.
  destruct (lookup lead_id w) as [lead |] eqn:F.
  - now rewrite (lookup_some_existsb _ _ F).
  - now rewrite (lookup_none_existsb _ _ F).
Qed.

(** The three outcomes of [get_lead_by_id]: the row, no row for the text
    of a UUID that no row has, and the error of the driver for any other
    text. *)
Lemma get_lead_by_id_eq (lead_id : string) (w : World) :
  LeadService.get_lead_by_id lead_id w
  = match lookup lead_id w with
    | Some lead => (inr (Some lead), w)
    | None =>
        if SQL.uuid_text lead_id then (inr None, w) else (inl DataError, w)
    end.
Proof.
  unfold LeadService.get_lead_by_id, SQL.select_by_id. run.
  change (SQL.bindparams ["lead_id"%string] ["lead_id"%string])
    with (inr tt : Raises unit).
  cbv beta iota. rewrite uuid_param_eq. unfold lookup.
  destruct (find (fun r => String.eqb (Lead.id r) lead_id) (leads w))
    as [lead |] eqn:F.
  - rewrite F. reflexivity.
  - destruct (SQL.uuid_text lead_id); [rewrite F |]; reflexivity.
Qed.

Lemma get_lead_by_id_found (lead_id : string) (w : World) (lead : Lead.t) :
  lookup lead_id w = Some lead ->
  LeadService.get_lead_by_id lead_id w = (inr (Some lead), w).
Proof. intros F. now rewrite get_lead_by_id_eq, F. Qed.

(** ** The status endpoint *)

Lemma get_cv_request_status_found (request_id : string) (w : World)
    (lead : Lead.t) :
  lookup request_id w = Some lead ->
  cv_request.get_cv_request_status request_id w
  = (inr (cv_request.mkCVStatus request_id (Lead.status lead)
            (Lead.created_at lead) true), w).
Proof.
  intros F. unfold cv_request.get_cv_request_status.
  unfold guarded, try_except, bind.
  rewrite (get_lead_by_id_found _ _ F). reflexivity.
Qed.

(** C9. For an identifier whose row exists, the status endpoint returns
    the status and the creation time of the row with [email_sent] true,
    without reading anything about the send; so it is true for the lead
    of a request whose send failed because the transport raised. *)
Theorem status_reports_email_sent_for_every_lead :
  (forall request_id w lead,
      lookup request_id w = Some lead ->
      cv_request.get_cv_request_status request_id w
      = (inr (cv_request.mkCVStatus request_id (Lead.status lead)
                (Lead.created_at lead) true), w))
  /\ (forall env request cv w,
         first_violated code_order cv = None ->
         lookup (uuid4 env) w = None ->
         (forall m, exists e, smtp_send env m = inl e) ->
         exists w',
           EmailService.send_cv_email env (CVRequest.email cv)
             (CVRequest.name cv) (CVRequest.company cv) (CVRequest.purpose cv)
             (mkWorld (leads w ++ [intake_row env request cv]) (outbox w))
           = (inr false, w')
           /\ cv_request.request_cv env request cv w
              = (inr (intake_success env), w')
           /\ cv_request.get_cv_request_status (uuid4 env) w'
              = (inr (cv_request.mkCVStatus (uuid4 env) "new" (utcnow env)
                        true), w')).
Proof.
  split.
  - intros. now apply get_cv_request_status_found.
  - intros env request cv w V F Down.
    destruct (request_cv_transport_down env request cv w V F Down)
      as (w' & E & R & _ & L).
    exists w'. split; [exact E |]. split; [exact R |].
    rewrite (get_cv_request_status_found _ _ L). reflexivity.
Qed.

Lemma status_reports_email_sent_for_every_lead_witness :
  cv_request.get_cv_request_status "id-1" Sample.three_leads
  = (inr (cv_request.mkCVStatus "id-1" "new" 10 true), Sample.three_leads)
  /\ exists w',
      EmailService.send_cv_email Sample.env_smtp_down
        (CVRequest.email Sample.john) (CVRequest.name Sample.john)
        (CVRequest.company Sample.john) (CVRequest.purpose Sample.john)
        (mkWorld (leads Sample.three_leads
                  ++ [intake_row Sample.env_smtp_down Sample.the_request
                        Sample.john])
           (outbox Sample.three_leads))
      = (inr false, w')
      /\ cv_request.request_cv Sample.env_smtp_down Sample.the_request
           Sample.john Sample.three_leads
         = (inr (intake_success Sample.env_smtp_down), w')
      /\ cv_request.get_cv_request_status (uuid4 Sample.env_smtp_down) w'
         = (inr (cv_request.mkCVStatus (uuid4 Sample.env_smtp_down) "new"
                   (utcnow Sample.env_smtp_down) true), w').
Proof.
  destruct status_reports_email_sent_for_every_lead as (A & B).
  split.
  - apply (A "id-1"%string Sample.three_leads Sample.a_lead).
    vm_compute. reflexivity.
  - apply B.
    + vm_compute. reflexivity.
    + vm_compute. reflexivity.
    + intros m. exists SMTPException. reflexivity.
Defined.

(** ** The admin update *)


Lemma update_fields_empty (u : LeadUpdate.t) :
  admin.update_fields u = [] <-> u = empty_update.
Proof.
  split.
  - destruct u as [n e p c r pu s no]. unfold admin.update_fields. simpl.
    destruct n, e, p, c, r, pu, s, no; simpl; intros H;
      try discriminate; reflexivity.
  - intros ->. reflexivity.
Qed.


(** A dictionary that holds a name the statement does not use is
    refused. *)
Lemma bindparams_unknown (names values : list string) (key : string) :
  In key values ->
  existsb (String.eqb key) names = false ->
  SQL.bindparams names values = inl ArgumentError.
Proof.
  intros I N. unfold SQL.bindparams.
  destruct (forallb (fun key => existsb (String.eqb key) names) values)
    eqn:A; [| reflexivity].
  rewrite forallb_forall in A. rewrite (A key I) in N. discriminate.
Qed.

(** The text of the update uses the names of the fields and [lead_id]:
    never [updated_at]. *)
Lemma updated_at_is_not_bound (fields : list SQL.Assign) :
  existsb (String.eqb "updated_at")
    (map SQL.assign_name fields ++ ["lead_id"%string]) = false.
Proof.
  rewrite existsb_app. apply orb_false_iff. split; [| reflexivity].
  induction fields as [| a fields IH]; [reflexivity |].
  cbn [map existsb]. rewrite IH. destruct a; reflexivity.
Qed.

Lemma update_is_refused (fields : list SQL.Assign) (now : Z)
    (lead_id : string) (others : list string) (w : World) :
  SQL.update fields now lead_id
    (["lead_id"; "updated_at"]%string ++ others) w
  = (inl ArgumentError, w).
Proof.
  unfold SQL.update, bind, lift.
  rewrite (bindparams_unknown _ _ "updated_at").
  - reflexivity.
  - simpl. auto.
  - apply updated_at_is_not_bound.
Qed.

(** The four outcomes of the update endpoint; none changes the world. *)
Lemma update_lead_eq (env : Env) (lead_id : string)
    (lead_update : LeadUpdate.t) (w : World) :
  admin.update_lead env lead_id lead_update w
  = match lookup lead_id w with
    | Some _ =>
        match admin.update_fields lead_update with
        | [] => (inr (admin.mkResponseMessage true "No changes to update"), w)
        | _ :: _ => (inl (HTTPException 500 "Failed to update lead"), w)
        end
    | None =>
        if SQL.uuid_text lead_id
        then (inl (HTTPException 404 "Lead not found"), w)
        else (inl (HTTPException 500 "Failed to update lead"), w)
    end.
Proof.
  unfold admin.update_lead, guarded, try_except, bind.
  rewrite get_lead_by_id_eq.
  destruct (lookup lead_id w) as [lead |].
  - destruct (admin.update_fields lead_update) as [| a fields];
      [reflexivity |].
    rewrite update_is_refused. reflexivity.
  - destruct (SQL.uuid_text lead_id); reflexivity.
Qed.

(** C6. For a lead that exists, the update endpoint called with the
    payload that has no field returns the message of no change and leaves
    the world, hence the row and its [updated_at], as it was. Called with
    a payload that has a field, it does not refresh [updated_at]: the
    statement is executed with the name [updated_at] among its values,
    which its text does not use, so it is refused before it reaches the
    database, whatever its fields; the endpoint answers 500 and the world
    is as it was. *)
Theorem update_lead_noop_and_failed_refresh :
  (forall env lead_id w lead,
      lookup lead_id w = Some lead ->
      admin.update_lead env lead_id empty_update w
      = (inr (admin.mkResponseMessage true "No changes to update"), w))
  /\ (forall env lead_id lead_update w lead,
         lookup lead_id w = Some lead ->
         lead_update <> empty_update ->
         admin.update_lead env lead_id lead_update w
         = (inl (HTTPException 500 "Failed to update lead"), w))
  /\ (forall fields now lead_id others w,
         SQL.update fields now lead_id
           (["lead_id"; "updated_at"]%string ++ others) w
         = (inl ArgumentError, w)).
Proof.
  split; [| split].
  - intros env lead_id w lead F. now rewrite update_lead_eq, F.
  - intros env lead_id u w lead F N. rewrite update_lead_eq, F.
    destruct (admin.update_fields u) as [| a fields] eqn:U; [| reflexivity].
    apply update_fields_empty in U. contradiction.
  - intros. apply update_is_refused.
Qed.

Lemma update_lead_noop_and_failed_refresh_witness :
  admin.update_lead Sample.env_ok "6f9619ff-8b86-d011-b42d-00c04fc964ff"
    empty_update Sample.four_leads
  = (inr (admin.mkResponseMessage true "No changes to update"),
     Sample.four_leads)
  /\ admin.update_lead Sample.env_ok "6f9619ff-8b86-d011-b42d-00c04fc964ff"
       Sample.set_qualified Sample.four_leads
     = (inl (HTTPException 500 "Failed to update lead"), Sample.four_leads).
Proof.
  destruct update_lead_noop_and_failed_refresh as (A & B & _).
  split.
  - apply (A Sample.env_ok "6f9619ff-8b86-d011-b42d-00c04fc964ff"%string
             Sample.four_leads Sample.d_lead).
    vm_compute. reflexivity.
  - apply (B Sample.env_ok "6f9619ff-8b86-d011-b42d-00c04fc964ff"%string
             Sample.set_qualified Sample.four_leads Sample.d_lead).
    + vm_compute. reflexivity.
    + intros H. discriminate H.
Defined.

(** ** The listing *)

(** The count query is executed with the dictionary of the page query,
    which holds [skip] and [limit]: its text uses neither. *)
Lemma count_is_refused (conds : list SQL.Cond) (others : list string)
    (w : World) :
  SQL.count conds (["skip"; "limit"]%string ++ others) w
  = (inl ArgumentError, w).
Proof.
  unfold SQL.count, bind, lift.
  rewrite (bindparams_unknown _ _ "skip").
  - reflexivity.
  - simpl. auto.
  - induction conds as [| c conds IH]; [reflexivity |].
    cbn [map existsb]. rewrite IH. destruct c; reflexivity.
Qed.

Lemma get_leads_is_refused (db : Database) (skip limit : Z)
    (status : option LeadStatus) (source : option LeadSource) (w : World) :
  LeadService.get_leads db skip limit status source w
  = (inl ArgumentError, w).
Proof.
  unfold LeadService.get_leads, LeadService.logged, try_except, bind.
  rewrite count_is_refused. reflexivity.
Qed.

Lemma admin_get_leads_raises (db : Database) (skip limit : Z)
    (status : option LeadStatus) (source : option LeadSource) (w : World) :
  admin.get_leads db skip limit status source w = (inl AttributeError, w).
Proof.
  unfold admin.get_leads, try_except, bind.
  rewrite get_leads_is_refused. reflexivity.
Qed.

(** C7. The listing returns no page at all. [get_leads] of the lead
    store gives the count query the dictionary it has built for the page
    query; the names [skip] and [limit] are in it from the start and the
    text of the count query uses neither, so the query is refused for
    every offset, limit and filter, before the database is asked
    anything. The admin endpoint catches the exception, and its handler,
    which reads the status code from its own parameter [status], raises
    [AttributeError]. The table is left as it is. *)
Theorem listing_is_refused_at_the_count_query :
  (forall conds others w,
      SQL.count conds (["skip"; "limit"]%string ++ others) w
      = (inl ArgumentError, w))
  /\ (forall db skip limit status source w,
         LeadService.get_leads db skip limit status source w
         = (inl ArgumentError, w))
  /\ (forall db skip limit status source w,
         admin.get_leads db skip limit status source w
         = (inl AttributeError, w))
  /\ admin.get_leads Sample.the_db 0 2 None None Sample.three_leads
     = (inl AttributeError, Sample.three_leads).
Proof.
  split; [| split; [| split]].
  - intros. apply count_is_refused.
  - intros. apply get_leads_is_refused.
  - intros. apply admin_get_leads_raises.
  - apply admin_get_leads_raises.
Qed.




(** *** The order of the rows *)





(** * Further properties *)

Unset Implicit Arguments.

(** ** Strings *)

Lemma chars_append (a b : string) :
  chars (a ++ b) = chars a ++ chars b.
Proof.
  unfold chars. induction a as [| c a IH]; simpl; auto. now rewrite IH.
Qed.

Lemma str_chars (s : string) : str (chars s) = s.
Proof. apply string_of_list_ascii_of_string. Qed.

Lemma truthy_chars (s : string) : truthy s = true <-> chars s <> [].
Proof.
  unfold truthy. destruct s; simpl; split; intros H.
  - discriminate.
  - now contradiction H.
  - discriminate.
  - reflexivity.
Qed.

Lemma truthy_len (s : string) : (1 <= len s)%nat -> truthy s = true.
Proof.
  intros H. apply truthy_chars. unfold len in H.
  destruct (chars s); simpl in H; [lia | discriminate].
Qed.

Lemma filter_length_le_ascii (f : ascii -> bool) (l : list ascii) :
  (List.length (filter f l) <= List.length l)%nat.
Proof.
  induction l as [| c l IH]; simpl; auto. destruct (f c); simpl; lia.
Qed.

Lemma lstrip_length (l : list ascii) :
  (List.length (lstrip l) <= List.length l)%nat.
Proof.
  induction l as [| c l IH]; simpl; auto.
  destruct (is_space c); simpl; lia.
Qed.

Lemma lstrip_incl (l : list ascii) : incl (lstrip l) l.
Proof.
  induction l as [| c l IH]; simpl; [apply incl_refl |].
  destruct (is_space c); [now apply incl_tl | apply incl_refl].
Qed.

Lemma lstrip_app_last (l : list ascii) (c : ascii) :
  is_space c = false -> lstrip (l ++ [c]) = lstrip l ++ [c].
Proof.
  intros H. induction l as [| x l IH]; simpl.
  - now rewrite H.
  - destruct (is_space x); auto.
Qed.

Lemma lstrip_head (l : list ascii) :
  match lstrip l with
  | [] => True
  | c :: _ => is_space c = false
  end.
Proof.
  induction l as [| x l IH]; simpl; auto.
  destruct (is_space x) eqn:E; auto.
Qed.

(** The characters of [s.strip()]. *)
Lemma chars_strip (s : string) : chars (strip s) = rstrip (lstrip (chars s)).
Proof. unfold strip. apply chars_str. Qed.

Lemma rstrip_length (l : list ascii) :
  (List.length (rstrip l) <= List.length l)%nat.
Proof.
  unfold rstrip. rewrite length_rev.
  rewrite <- (length_rev l). apply lstrip_length.
Qed.

Lemma rstrip_incl (l : list ascii) : incl (rstrip l) l.
Proof.
  unfold rstrip. intros c H. apply in_rev in H.
  apply lstrip_incl in H. now apply in_rev.
Qed.

Lemma rstrip_cons (c : ascii) (t : list ascii) :
  is_space c = false -> rstrip (c :: t) = c :: rstrip t.
Proof.
  intros H. unfold rstrip. simpl.
  rewrite (lstrip_app_last _ _ H), rev_app_distr. reflexivity.
Qed.

Lemma rstrip_rstrip (l : list ascii) : rstrip (rstrip l) = rstrip l.
Proof.
  unfold rstrip. rewrite rev_involutive.
  assert (F : forall x, lstrip (lstrip x) = lstrip x).
  { intros x. pose proof (lstrip_head x) as H.
    destruct (lstrip x) as [| c t]; simpl; auto. now rewrite H. }
  now rewrite F.
Qed.

Lemma strip_strip (s : string) : strip (strip s) = strip s.
Proof.
  unfold strip at 1. rewrite chars_strip. unfold strip. f_equal.
  pose proof (lstrip_head (chars s)) as H.
  destruct (lstrip (chars s)) as [| c t].
  - reflexivity.
  - rewrite (rstrip_cons _ _ H). simpl lstrip. rewrite H.
    rewrite <- (rstrip_cons _ _ H). apply rstrip_rstrip.
Qed.

Lemma strip_length (s : string) : (len (strip s) <= len s)%nat.
Proof.
  unfold len. rewrite chars_strip.
  etransitivity; [apply rstrip_length | apply lstrip_length].
Qed.

Lemma strip_incl (s : string) : incl (chars (strip s)) (chars s).
Proof.
  rewrite chars_strip. intros c H.
  now apply lstrip_incl, rstrip_incl.
Qed.

Lemma slice_to_incl (n : Z) (l : list ascii) : incl (slice_to n l) l.
Proof.
  assert (F : forall k, incl (firstn k l) l).
  { intros k c H. rewrite <- (firstn_skipn k l). apply in_or_app. now left. }
  unfold slice_to. destruct (0 <=? n)%Z; apply F.
Qed.

Lemma slice_to_length (n : Z) (l : list ascii) :
  (List.length (slice_to n l) <= List.length l)%nat.
Proof.
  unfold slice_to. destruct (0 <=? n)%Z; rewrite length_firstn; lia.
Qed.

(** ** [sanitize_string] *)

Lemma chars_sanitize (value : string) (max_length : Z) :
  truthy value = true ->
  chars (validation.sanitize_string value max_length)
  = filter (fun c => negb (validation.harmful c))
      (slice_to max_length (chars (strip value))).
Proof.
  intros T. unfold validation.sanitize_string, Re.sub_delete.
  rewrite T. simpl negb. cbv iota. now rewrite !chars_str.
Qed.

Lemma sanitize_empty (value : string) (max_length : Z) :
  truthy value = false ->
  validation.sanitize_string value max_length = ""%string.
Proof.
  intros T. unfold validation.sanitize_string. now rewrite T.
Qed.

Lemma sanitize_harmless (value : string) (max_length : Z) :
  harmless (validation.sanitize_string value max_length).
Proof.
  unfold harmless. destruct (truthy value) eqn:T.
  - rewrite (chars_sanitize _ _ T). apply Forall_forall. intros c H.
    apply filter_In in H as [_ H]. now apply negb_true_iff.
  - rewrite (sanitize_empty _ _ T). constructor.
Qed.

Lemma sanitize_length_max (value : string) (max_length : Z) :
  (0 <= max_length)%Z ->
  (Z.of_nat (len (validation.sanitize_string value max_length))
   <= max_length)%Z.
Proof.
  intros M. destruct (truthy value) eqn:T.
  - unfold len. rewrite (chars_sanitize _ _ T).
    pose proof (filter_length_le_ascii
                  (fun c => negb (validation.harmful c))
                  (slice_to max_length (chars (strip value)))) as F.
    unfold slice_to in *.
    assert (E : (0 <=? max_length)%Z = true) by (apply Z.leb_le; lia).
    rewrite E in *. cbv iota in *.
    pose proof (firstn_le_length (Z.to_nat max_length)
                  (chars (strip value))). lia.
  - rewrite (sanitize_empty _ _ T). unfold len. simpl. lia.
Qed.

(** X1. The result of [sanitize_string] holds none of the four characters
    it removes and is never longer than its argument; for a
    [max_length] that is not negative it has at most [max_length]
    characters, and its characters are characters of the argument. *)
Theorem sanitize_string_bounds :
  (forall value max_length,
      harmless (validation.sanitize_string value max_length)
      /\ (len (validation.sanitize_string value max_length) <= len value)%nat
      /\ incl (chars (validation.sanitize_string value max_length))
           (chars value))
  /\ (forall value max_length,
         (0 <= max_length)%Z ->
         (Z.of_nat (len (validation.sanitize_string value max_length))
          <= max_length)%Z).
Proof.
  split.
  - intros value max_length. split; [apply sanitize_harmless |].
    destruct (truthy value) eqn:T.
    + unfold len. rewrite (chars_sanitize _ _ T). split.
      * etransitivity; [apply filter_length_le_ascii |].
        etransitivity; [apply slice_to_length |]. apply strip_length.
      * intros c H. apply filter_In in H as [H _].
        now apply slice_to_incl, strip_incl in H.
    + rewrite (sanitize_empty _ _ T). split; [unfold len; simpl; lia |].
      intros c H. destruct H.
  - intros value max_length M. now apply sanitize_length_max.
Qed.

Lemma sanitize_string_bounds_witness :
  (Z.of_nat (len (validation.sanitize_string "  <b>Ada & 'Bob'</b>  " 8))
   <= 8)%Z.
Proof.
  apply (proj2 sanitize_string_bounds). lia.
Defined.

Lemma not_truthy (s : string) : truthy s = false -> s = ""%string.
Proof.
  unfold truthy. intros H. apply negb_false_iff in H.
  now apply String.eqb_eq.
Qed.

Lemma filter_harmless (l : list ascii) :
  Forall (fun c => validation.harmful c = false) l ->
  filter (fun c => negb (validation.harmful c)) l = l.
Proof.
  induction 1 as [| c l H _ IH]; simpl; auto. now rewrite H, IH.
Qed.

Lemma harmless_incl (a b : string) :
  incl (chars a) (chars b) -> harmless b -> harmless a.
Proof.
  unfold harmless. rewrite !Forall_forall. auto.
Qed.

(** On a string with none of the four characters and within the bound,
    [sanitize_string] only strips. *)
Lemma sanitize_of_clean (s : string) (max_length : Z) :
  harmless s -> (Z.of_nat (len s) <= max_length)%Z ->
  validation.sanitize_string s max_length = strip s.
Proof.
  intros H L. destruct (truthy s) eqn:T.
  - rewrite <- (str_chars (validation.sanitize_string s max_length)).
    rewrite (chars_sanitize _ _ T). unfold slice_to.
    assert (E : (0 <=? max_length)%Z = true) by (apply Z.leb_le; lia).
    rewrite E. rewrite firstn_all2.
    + rewrite filter_harmless; [apply str_chars |].
      apply (harmless_incl (strip s) s); [apply strip_incl | exact H].
    + pose proof (strip_length s). unfold len in *. lia.
  - rewrite (sanitize_empty _ _ T). apply not_truthy in T. now subst.
Qed.

(** X2. [sanitize_string] is not idempotent: a second pass may change
    the result of the first, as for the text [< x], which the first pass
    turns into [ x] and the second into [x]. What the second pass does is
    strip the white space that the removal of characters has brought to
    the ends: for a [max_length] that is not negative, the second pass is
    exactly [strip], and from the second pass on the result no longer
    changes. *)
Theorem sanitize_string_twice :
  (exists value max_length,
      (0 <= max_length)%Z
      /\ validation.sanitize_string
           (validation.sanitize_string value max_length) max_length
         <> validation.sanitize_string value max_length)
  /\ (forall value max_length,
         (0 <= max_length)%Z ->
         let once := validation.sanitize_string value max_length in
         let twice := validation.sanitize_string once max_length in
         twice = strip once
         /\ validation.sanitize_string twice max_length = twice).
Proof.
  split.
  { exists "< x"%string, 255%Z. split; [lia |]. vm_compute. discriminate. }
  intros value max_length M once twice.
  pose proof (sanitize_harmless value max_length) as H.
  pose proof (sanitize_length_max value max_length M) as L.
  fold once in H, L.
  assert (E : twice = strip once) by (apply sanitize_of_clean; auto).
  split; [exact E |].
  rewrite E. rewrite sanitize_of_clean.
  - apply strip_strip.
  - apply (harmless_incl (strip once) once); [apply strip_incl | exact H].
  - pose proof (strip_length once). lia.
Qed.

Lemma sanitize_string_twice_witness :
  validation.sanitize_string "< x" 255 = " x"%string
  /\ validation.sanitize_string (validation.sanitize_string "< x" 255) 255
     = "x"%string
  /\ validation.sanitize_string (validation.sanitize_string "< x" 255) 255
     = strip (validation.sanitize_string "< x" 255)
  /\ validation.sanitize_string "x" 255 = "x"%string.
Proof.
  destruct sanitize_string_twice as (_ & A).
  destruct (A "< x"%string 255%Z ltac:(lia)) as (B & C).
  split; [vm_compute; reflexivity |].
  split; [vm_compute; reflexivity |].
  split; [exact B | exact C].
Defined.

(** *** The tag patterns of the blocklist on a sanitized text *)

Lemma matches_star_any (l : list ascii) : Re.matches (Re.Star Re.Any) l.
Proof.
  induction l as [| c l IH].
  - constructor.
  - change (c :: l) with ([c] ++ l). constructor; auto. now constructor.
Qed.

(** [re.search] finds a word of the pattern inside the text. *)
Lemma search_matches (r : Re.re) (s : string) :
  Re.search r s = true <->
  exists pre mid post,
    chars s = pre ++ mid ++ post /\ Re.matches r mid.
Proof.
  unfold Re.search. rewrite fullmatch_matches. split.
  - intros H. apply matches_Cat_inv in H as (pre & rest & E & _ & H).
    apply matches_Cat_inv in H as (mid & post & E' & H & _).
    subst rest. eauto.
  - intros (pre & mid & post & E & H). rewrite E.
    constructor; [apply matches_star_any |].
    constructor; [exact H | apply matches_star_any].
Qed.

Lemma to_lower_less_than (c : ascii) :
  Ascii.eqb (to_lower "<") (to_lower c) = true -> c = "<"%char.
Proof.
  intros H. apply Ascii.eqb_eq in H. change (to_lower "<") with "<"%char in H.
  unfold to_lower in H. destruct (is_upper c) eqn:U; [| auto].
  exfalso. unfold is_upper, in_range in U.
  apply andb_true_iff in U as [L B]. apply Nat.leb_le in L, B.
  apply (f_equal nat_of_ascii) in H. unfold code in *.
  rewrite nat_ascii_embedding in H by lia.
  change (nat_of_ascii "<") with 60%nat in H. lia.
Qed.

Lemma tag_pattern_starts_with_bracket (name : string) (rest : Re.re)
    (mid : list ascii) :
  Re.matches (Re.Cat (Re.LitI (chars (String "<" name))) rest) mid ->
  exists t, mid = "<"%char :: t.
Proof.
  intros H. apply matches_Cat_inv in H as (s1 & s2 & -> & H & _).
  simpl in H. apply matches_Cat_inv in H as (a & b & -> & H & _).
  apply matches_Cls_inv in H as (c & -> & H).
  apply to_lower_less_than in H. subst. simpl. eauto.
Qed.

Lemma harmless_no_bracket (s : string) (pre t post : list ascii) :
  harmless s -> chars s <> pre ++ ("<"%char :: t) ++ post.
Proof.
  unfold harmless. intros H E. rewrite E in H.
  apply Forall_app in H as [_ H]. simpl in H.
  inversion H as [| ? ? C _]. discriminate C.
Qed.

(** X3. No text returned by [sanitize_string] matches the script-tag or
    the iframe-tag pattern of the blocklist of [validate_request_data]:
    both need a [<], which the result never holds. *)
Theorem sanitized_text_has_no_tag (value : string) (max_length : Z) :
  Re.search script_tag_pattern
    (validation.sanitize_string value max_length) = false
  /\ Re.search iframe_tag_pattern
       (validation.sanitize_string value max_length) = false.
Proof.
  pose proof (sanitize_harmless value max_length) as H.
  split; apply not_true_is_false; intros S;
    apply search_matches in S as (pre & mid & post & E & M);
    apply tag_pattern_starts_with_bracket in M as [t ->];
    exact (harmless_no_bracket _ _ _ _ H E).
Qed.

(** ** [validate_admin_data] and the anchored patterns *)

Lemma matches_Star_cls (p : ascii -> bool) (l : list ascii) :
  Re.matches (Re.Star (Re.Cls p)) l <-> forallb p l = true.
Proof.
  split.
  - intros H. remember (Re.Star (Re.Cls p)) as r eqn:E.
    induction H; try discriminate; auto.
    injection E as ->. apply matches_Cls_inv in H as (c & -> & Hc).
    simpl. rewrite Hc. auto.
  - induction l as [| c l IH]; simpl; intros H.
    + constructor.
    + apply andb_true_iff in H as [Hc Hl].
      change (c :: l) with ([c] ++ l). constructor; auto. now constructor.
Qed.

Lemma fullmatch_username (l : list ascii) :
  Re.fullmatch validation.username_pattern l = word l.
Proof.
  apply eq_true_iff_eq. rewrite fullmatch_matches.
  unfold validation.username_pattern, Re.Plus. split.
  - intros H. apply matches_Cat_inv in H as (s1 & s2 & -> & H1 & H2).
    apply matches_Cls_inv in H1 as (c & -> & Hc).
    apply matches_Star_cls in H2. simpl. now rewrite Hc, H2.
  - destruct l as [| c l]; simpl; [discriminate |]. intros H.
    apply andb_true_iff in H as [Hc Hl].
    change (c :: l) with ([c] ++ l). constructor; [now constructor |].
    now apply matches_Star_cls.
Qed.

Lemma match_username (u : string) :
  Re.match_anchored validation.username_pattern u = word_or_word_newline u.
Proof.
  unfold Re.match_anchored, word_or_word_newline.
  now rewrite !fullmatch_username.
Qed.

(** [re.search] of a one-character class. *)
Lemma search_cls (p : ascii -> bool) (s : string) :
  Re.search (Re.Cls p) s = existsb p (chars s).
Proof.
  apply eq_true_iff_eq. rewrite search_matches, existsb_exists. split.
  - intros (pre & mid & post & E & H).
    apply matches_Cls_inv in H as (c & -> & Hc).
    exists c. split; [| exact Hc]. rewrite E.
    apply in_or_app. right. now left.
  - intros (c & I & Hc). apply in_split in I as (pre & post & E).
    exists pre, [c], post. split; [exact E | now constructor].
Qed.

Lemma check_admin_username_ok (u : string) :
  validation.check_admin_username (Some u) = inr tt <->
  (3 <= len u)%nat /\ word_or_word_newline u = true.
Proof.
  unfold validation.check_admin_username. rewrite match_username.
  destruct (Nat.ltb_spec (len u) 3) as [L | L].
  - rewrite orb_true_r. split; [discriminate | lia].
  - rewrite truthy_len by lia. simpl.
    destruct (word_or_word_newline u); simpl; split; auto;
      try discriminate. intros [_ H]. discriminate.
Qed.

Lemma check_admin_password_ok (pw : string) :
  validation.check_admin_password (Some pw) = inr tt <->
  (8 <= len pw)%nat
  /\ existsb is_alpha (chars pw) = true
  /\ existsb is_digit (chars pw) = true.
Proof.
  unfold validation.check_admin_password. rewrite !search_cls.
  destruct (Nat.ltb_spec (len pw) 8) as [L | L].
  - rewrite orb_true_r. split; [discriminate | lia].
  - rewrite truthy_len by lia. simpl.
    destruct (existsb is_alpha (chars pw)), (existsb is_digit (chars pw));
      simpl; split; auto; try discriminate; intros (_ & A & B);
      discriminate.
Qed.

Lemma validate_admin_data_accepts_username (u : string) :
  (3 <= len u)%nat /\ word_or_word_newline u = true ->
  validation.validate_admin_data
    (validation.mkAdminData None (Some u) None) = inr tt.
Proof.
  intros H. apply check_admin_username_ok in H.
  unfold validation.validate_admin_data.
  cbn [validation.admin_email validation.admin_username
       validation.admin_password validation.check_admin_email
       validation.check_admin_password validation.and_then].
  now rewrite H.
Qed.

(** X4. [validate_admin_data] returns without raising exactly when every
    key the dictionary has is acceptable: the email by
    [validate_email_format]; the username with at least 3 characters, all
    of them letters, digits or underscores, but for one newline that may
    end it; the password with at least 8 characters, one of them an ASCII
    letter and one a digit. A dictionary with none of the three keys is
    accepted. *)
Theorem validate_admin_data_accepts (d : validation.AdminData) :
  validation.validate_admin_data d = inr tt <->
  match validation.admin_email d with
  | Some e => validation.validate_email_format e = true
  | None => True
  end
  /\ match validation.admin_username d with
     | Some u => (3 <= len u)%nat /\ word_or_word_newline u = true
     | None => True
     end
  /\ match validation.admin_password d with
     | Some pw =>
         (8 <= len pw)%nat
         /\ existsb is_alpha (chars pw) = true
         /\ existsb is_digit (chars pw) = true
     | None => True
     end.
Proof.
  destruct d as [e u pw]. unfold validation.validate_admin_data.
  cbn [validation.admin_email validation.admin_username
       validation.admin_password].
  assert (E : validation.check_admin_email e = inr tt <->
              match e with
              | Some e => validation.validate_email_format e = true
              | None => True
              end).
  { destruct e as [e |]; simpl; [| tauto].
    destruct (validation.validate_email_format e); simpl; split; auto;
      discriminate. }
  assert (U : validation.check_admin_username u = inr tt <->
              match u with
              | Some u => (3 <= len u)%nat /\ word_or_word_newline u = true
              | None => True
              end).
  { destruct u as [u |]; [apply check_admin_username_ok | simpl; tauto]. }
  assert (P : validation.check_admin_password pw = inr tt <->
              match pw with
              | Some pw =>
                  (8 <= len pw)%nat
                  /\ existsb is_alpha (chars pw) = true
                  /\ existsb is_digit (chars pw) = true
              | None => True
              end).
  { destruct pw as [pw |]; [apply check_admin_password_ok | simpl; tauto]. }
  rewrite <- E, <- U, <- P. unfold validation.and_then.
  destruct (validation.check_admin_email e) as [x | []];
    destruct (validation.check_admin_username u) as [y | []];
    destruct (validation.check_admin_password pw) as [z | []];
    split; try tauto; try discriminate;
    intros (A & B & C); discriminate.
Qed.

Lemma validate_admin_data_accepts_witness :
  validation.validate_admin_data
    (validation.mkAdminData (Some "ada@example.org"%string)
       (Some "ada_99"%string) (Some "s3cretpass"%string)) = inr tt.
Proof.
  apply (proj2 (validate_admin_data_accepts _)).
  repeat split; vm_compute; auto; lia.
Defined.

(** *** A newline at the end *)

Lemma chars_newline : chars EmailService.newline = ["010"%char].
Proof. reflexivity. Qed.

Lemma ends_with_newline_app (l : list ascii) :
  Re.ends_with_newline (l ++ ["010"%char]) = true.
Proof.
  unfold Re.ends_with_newline. rewrite rev_app_distr. reflexivity.
Qed.

Lemma match_anchored_add_newline (r : Re.re) (s : string) :
  Re.fullmatch r (chars s) = true ->
  Re.match_anchored r (s ++ EmailService.newline) = true.
Proof.
  intros H. unfold Re.match_anchored.
  rewrite chars_append, chars_newline, ends_with_newline_app,
    removelast_last, H.
  apply orb_true_r.
Qed.

Lemma match_anchored_no_newline (r : Re.re) (s : string) :
  Re.match_anchored r s = true ->
  Re.ends_with_newline (chars s) = false ->
  Re.fullmatch r (chars s) = true.
Proof.
  unfold Re.match_anchored. intros H E. rewrite E in H.
  simpl in H. now rewrite orb_false_r in H.
Qed.

Lemma py_lower_newline (c : ascii) :
  (code (py_lower c) =? 10)%nat = (code c =? 10)%nat.
Proof.
  unfold py_lower.
  destruct (is_upper c || in_range 192 214 c || in_range 216 222 c) eqn:U;
    [| reflexivity].
  assert (B : (65 <= code c <= 222)%nat).
  { unfold is_upper, in_range in U.
    repeat (apply orb_true_iff in U as [U | U]);
      apply andb_true_iff in U as [L H];
      apply Nat.leb_le in L, H; lia. }
  unfold code in *. rewrite nat_ascii_embedding by lia.
  destruct (Nat.eqb_spec (nat_of_ascii c + 32) 10),
    (Nat.eqb_spec (nat_of_ascii c) 10); auto; lia.
Qed.

Lemma chars_lower (s : string) : chars (lower s) = map py_lower (chars s).
Proof. unfold lower. apply chars_str. Qed.

Lemma lower_ends_with_newline (s : string) :
  Re.ends_with_newline (chars (lower s)) = Re.ends_with_newline (chars s).
Proof.
  rewrite chars_lower. unfold Re.ends_with_newline. rewrite <- map_rev.
  destruct (rev (chars s)) as [| c t]; simpl; auto. apply py_lower_newline.
Qed.

Lemma lower_append_newline (s : string) :
  lower (s ++ EmailService.newline) = (lower s ++ EmailService.newline)%string.
Proof.
  rewrite <- (str_chars (lower s ++ EmailService.newline)).
  unfold lower at 1. f_equal.
  now rewrite !chars_append, map_app, chars_lower, chars_newline.
Qed.

(** X5. The three checks whose pattern ends in [$] accept a value they
    accept when one newline is added at its end: the email format, the
    identifier format, and the username of [validate_admin_data]. *)
Theorem anchored_checks_accept_a_final_newline :
  (forall email,
      validation.validate_email_format email = true ->
      Re.ends_with_newline (chars email) = false ->
      validation.validate_email_format (email ++ EmailService.newline) = true)
  /\ (forall uuid_string,
         validation.is_valid_uuid uuid_string = true ->
         Re.ends_with_newline (chars uuid_string) = false ->
         validation.is_valid_uuid (uuid_string ++ EmailService.newline) = true)
  /\ (forall username,
         validation.check_admin_username (Some username) = inr tt ->
         Re.ends_with_newline (chars username) = false ->
         validation.validate_admin_data
           (validation.mkAdminData None
              (Some (username ++ EmailService.newline)%string) None)
         = inr tt).
Proof.
  split; [| split].
  - intros email H E. unfold validation.validate_email_format in *.
    now apply match_anchored_add_newline, match_anchored_no_newline.
  - intros u H E. unfold validation.is_valid_uuid in *.
    rewrite lower_append_newline.
    apply match_anchored_add_newline, match_anchored_no_newline; auto.
    now rewrite lower_ends_with_newline.
  - intros u H E. apply check_admin_username_ok in H as [L W].
    apply validate_admin_data_accepts_username.
    split.
    + unfold len in *. rewrite chars_append, length_app. lia.
    + unfold word_or_word_newline in *. rewrite E in W. simpl in W.
      rewrite orb_false_r in W.
      rewrite chars_append, chars_newline, ends_with_newline_app,
        removelast_last, W.
      apply orb_true_r.
Qed.

Lemma anchored_checks_accept_a_final_newline_witness :
  validation.validate_email_format ("john@x.com" ++ EmailService.newline) = true
  /\ validation.is_valid_uuid
       ("123e4567-e89b-12d3-a456-426614174000" ++ EmailService.newline) = true
  /\ validation.validate_admin_data
       (validation.mkAdminData None
          (Some ("ada_99" ++ EmailService.newline)%string) None)
     = inr tt.
Proof.
  destruct anchored_checks_accept_a_final_newline as (A & B & C).
  split; [| split].
  - apply A; vm_compute; reflexivity.
  - apply B; vm_compute; reflexivity.
  - apply C; vm_compute; reflexivity.
Defined.

Lemma matches_uuid_length (l : list ascii) :
  Re.matches validation.uuid_pattern l -> List.length l = 36%nat.
Proof.
  unfold validation.uuid_pattern. intros H.
  repeat match goal with
         | H : Re.matches (Re.Cat _ _) _ |- _ =>
             apply matches_Cat_inv in H as (? & ? & -> & ? & H)
         end.
  repeat match goal with
         | H : Re.matches (Re.Rep _ _) _ |- _ =>
             apply matches_Rep_cls in H as [H _]
         | H : Re.matches (Re.Chr _) _ |- _ =>
             apply matches_Cls_inv in H as (? & -> & _)
         end.
  rewrite !length_app. simpl. lia.
Qed.

Lemma ends_with_newline_split (l : list ascii) :
  Re.ends_with_newline l = true -> exists t, l = t ++ ["010"%char].
Proof.
  unfold Re.ends_with_newline. intros H.
  destruct (rev l) as [| c t] eqn:E; [discriminate |].
  apply Nat.eqb_eq in H. exists (rev t).
  rewrite <- (rev_involutive l), E. simpl.
  replace c with "010"%char; [reflexivity |].
  rewrite <- (ascii_nat_embedding c). unfold code in H. now rewrite H.
Qed.

(** X6. A string that [is_valid_uuid] accepts has 36 characters, or 37
    of which the last is a newline. *)
Theorem valid_uuid_length (uuid_string : string) :
  validation.is_valid_uuid uuid_string = true ->
  len uuid_string = 36%nat
  \/ (len uuid_string = 37%nat
      /\ Re.ends_with_newline (chars uuid_string) = true).
Proof.
  unfold validation.is_valid_uuid, Re.match_anchored, len. intros H.
  assert (L : List.length (chars (lower uuid_string))
              = List.length (chars uuid_string)).
  { rewrite chars_lower. apply length_map. }
  apply orb_true_iff in H as [H | H].
  - left. rewrite <- L. now apply matches_uuid_length, fullmatch_matches.
  - right. apply andb_true_iff in H as [E H].
    rewrite <- L, <- lower_ends_with_newline. split; [| exact E].
    apply ends_with_newline_split in E as [t E]. rewrite E in *.
    rewrite removelast_last in H.
    apply fullmatch_matches, matches_uuid_length in H.
    rewrite length_app. simpl. lia.
Qed.

Lemma valid_uuid_length_witness :
  len "123E4567-e89b-12d3-a456-426614174000" = 36%nat
  \/ (len "123E4567-e89b-12d3-a456-426614174000" = 37%nat
      /\ Re.ends_with_newline (chars "123E4567-e89b-12d3-a456-426614174000")
         = true).
Proof.
  apply valid_uuid_length. vm_compute. reflexivity.
Defined.

(** ** The request model and the checks of the endpoint *)

Lemma validate_name_inr (v n : string) :
  CVRequest.validate_name v = inr n ->
  n = strip v /\ (2 <= len n)%nat.
Proof.
  unfold CVRequest.validate_name.
  destruct (negb (truthy v)); simpl; [discriminate |].
  destruct (Nat.ltb_spec (len (strip v)) 2); [discriminate |].
  intros E. injection E as <-. auto.
Qed.

Lemma validate_phone_inr (v p : string) :
  CVRequest.validate_phone v = inr p ->
  p = strip v /\ (10 <= len p)%nat.
Proof.
  unfold CVRequest.validate_phone.
  destruct (negb (truthy v)); simpl; [discriminate |].
  destruct (Nat.ltb_spec (len (strip v)) 10); [discriminate |].
  intros E. injection E as <-. auto.
Qed.

Lemma validate_purpose_inr (v u : option string) :
  CVRequest.validate_purpose v = inr u ->
  u = v /\ validation.purpose_too_long u = false.
Proof.
  unfold CVRequest.validate_purpose, validation.purpose_too_long.
  destruct v as [s |].
  - destruct (truthy s && (500 <? len s)%nat) eqn:E; [discriminate |].
    intros H. injection H as <-. auto.
  - intros H. injection H as <-. auto.
Qed.

Lemma parse_inr (EmailStr : string -> string + string)
    (raw cv : CVRequest.t) :
  CVRequest.parse EmailStr raw = inr cv ->
  CVRequest.validate_name (CVRequest.name raw) = inr (CVRequest.name cv)
  /\ EmailStr (CVRequest.email raw) = inr (CVRequest.email cv)
  /\ CVRequest.validate_phone (CVRequest.phone raw) = inr (CVRequest.phone cv)
  /\ CVRequest.validate_purpose (CVRequest.purpose raw)
     = inr (CVRequest.purpose cv)
  /\ CVRequest.consent raw = true
  /\ CVRequest.consent cv = true
  /\ CVRequest.company cv = CVRequest.company raw
  /\ CVRequest.role cv = CVRequest.role raw
  /\ CVRequest.website cv = CVRequest.website raw.
Proof.
  unfold CVRequest.parse, CVRequest.validate_consent,
    CVRequest.validate_honeypot.
  destruct (CVRequest.validate_name (CVRequest.name raw));
    destruct (EmailStr (CVRequest.email raw));
    destruct (CVRequest.validate_phone (CVRequest.phone raw));
    destruct (CVRequest.validate_purpose (CVRequest.purpose raw));
    destruct (CVRequest.consent raw); simpl; intros H;
    try discriminate.
  injection H as <-. simpl. repeat split; reflexivity.
Qed.

(** X7. A request model that the schema builds holds: the submitted name
    and phone stripped of the white space around them, with at least 2
    and at least 10 characters left; the address as the address type
    returned it; the purpose as submitted, of at most 500 characters; a
    consent that is true; the company, the role and the honeypot as
    submitted. *)
Theorem parsed_request_fields (EmailStr : string -> string + string)
    (raw cv : CVRequest.t) :
  CVRequest.parse EmailStr raw = inr cv ->
  CVRequest.name cv = strip (CVRequest.name raw)
  /\ strip (CVRequest.name cv) = CVRequest.name cv
  /\ (2 <= len (CVRequest.name cv))%nat
  /\ EmailStr (CVRequest.email raw) = inr (CVRequest.email cv)
  /\ CVRequest.phone cv = strip (CVRequest.phone raw)
  /\ strip (CVRequest.phone cv) = CVRequest.phone cv
  /\ (10 <= len (CVRequest.phone cv))%nat
  /\ CVRequest.purpose cv = CVRequest.purpose raw
  /\ match CVRequest.purpose cv with
     | Some s => (len s <= 500)%nat
     | None => True
     end
  /\ CVRequest.consent cv = true
  /\ CVRequest.company cv = CVRequest.company raw
  /\ CVRequest.role cv = CVRequest.role raw
  /\ CVRequest.website cv = CVRequest.website raw.
Proof.
  intros Hp.
  apply parse_inr in Hp as (N & E & P & U & _ & C & Co & Ro & W).
  apply validate_name_inr in N as [N1 N2].
  apply validate_phone_inr in P as [P1 P2].
  apply validate_purpose_inr in U as [U1 U2].
  repeat split; auto.
  - rewrite N1. apply strip_strip.
  - rewrite P1. apply strip_strip.
  - unfold validation.purpose_too_long in U2.
    destruct (CVRequest.purpose cv) as [s |]; [| exact I].
    destruct (Nat.ltb_spec 500 (len s)) as [L | L]; [| exact L].
    rewrite andb_true_r in U2. apply not_truthy in U2. subst s.
    unfold len. simpl. lia.
Qed.

Lemma parsed_request_fields_witness :
  CVRequest.name (CVRequest.mk "John Smith" "john@x.com" "+15550123456"
                    None None None true "")
  = strip "  John Smith "
  /\ (10 <= len "+15550123456")%nat.
Proof.
  pose proof (parsed_request_fields (fun e => inr e)
                (CVRequest.mk "  John Smith " "john@x.com" " +15550123456"
                   None None None true "")
                (CVRequest.mk "John Smith" "john@x.com" "+15550123456"
                   None None None true "") eq_refl)
    as (A & _ & _ & _ & _ & _ & B & _).
  split; [exact A | exact B].
Defined.

(** X8. On a request model that the schema has built, three checks of
    the endpoint never fire: the name, the purpose and the consent. The
    endpoint can reject it for the honeypot, the email format, the phone
    format or the spam scan only. *)
Theorem parsed_request_dead_checks (EmailStr : string -> string + string)
    (raw cv : CVRequest.t) :
  CVRequest.parse EmailStr raw = inr cv ->
  violates Name cv = false
  /\ violates Purpose cv = false
  /\ violates Consent cv = false
  /\ (forall r,
         first_violated code_order cv = Some r ->
         r = Honeypot \/ r = Email \/ r = Phone \/ r = SpamScan).
Proof.
  intros Hp. apply parse_inr in Hp as (N & _ & _ & U & _ & C & _).
  apply validate_name_inr in N as [N1 N2].
  apply validate_purpose_inr in U as [_ U].
  assert (VN : violates Name cv = false).
  { cbn [violates]. rewrite truthy_len by lia. simpl.
    rewrite N1, strip_strip, <- N1. apply Nat.ltb_ge. exact N2. }
  assert (VC : violates Consent cv = false).
  { cbn [violates]. now rewrite C. }
  repeat split; auto.
  intros r. unfold first_violated, code_order. cbn [find].
  rewrite VN, VC.
  change (violates Purpose cv) with
    (validation.purpose_too_long (CVRequest.purpose cv)).
  rewrite U.
  destruct (violates Honeypot cv); [intros [= <-]; auto |].
  destruct (violates Email cv); [intros [= <-]; auto |].
  destruct (violates Phone cv); [intros [= <-]; auto |].
  destruct (violates SpamScan cv); [intros [= <-]; auto 6 | discriminate].
Qed.

Lemma parsed_request_dead_checks_witness :
  violates Name Sample.john = false
  /\ violates Purpose Sample.john = false
  /\ violates Consent Sample.john = false.
Proof.
  pose proof (parsed_request_dead_checks (fun e => inr e) Sample.john
                Sample.john eq_refl) as (A & B & C & _).
  auto.
Defined.

(** A filter that keeps no white space sees the same characters before
    and after [strip]. *)
Lemma filter_lstrip (f : ascii -> bool) (l : list ascii) :
  (forall c, f c = true -> is_space c = false) ->
  filter f (lstrip l) = filter f l.
Proof.
  intros K. induction l as [| c l IH]; simpl; auto.
  destruct (is_space c) eqn:S; [| reflexivity].
  destruct (f c) eqn:F; [| exact IH].
  apply K in F. congruence.
Qed.

Lemma filter_strip (f : ascii -> bool) (l : list ascii) :
  (forall c, f c = true -> is_space c = false) ->
  filter f (rstrip (lstrip l)) = filter f l.
Proof.
  intros K. unfold rstrip.
  rewrite filter_rev, (filter_lstrip f _ K), <- filter_rev, rev_involutive.
  now apply filter_lstrip.
Qed.

Lemma kept_not_space (c : ascii) :
  negb (validation.not_digit_or_plus c) = true -> is_space c = false.
Proof.
  unfold validation.not_digit_or_plus. rewrite negb_involutive.
  intros H. apply orb_true_iff in H as [H | H].
  - unfold is_digit, in_range in H. apply andb_true_iff in H as [L U].
    apply Nat.leb_le in L, U. unfold is_space, in_range.
    repeat match goal with
           | |- context [(?a <=? ?b)%nat] => destruct (Nat.leb_spec a b)
           | |- context [(?a =? ?b)%nat] => destruct (Nat.eqb_spec a b)
           end; simpl; auto; lia.
  - apply is_char_eq in H. subst. reflexivity.
Qed.

(** X9. A phone that [validate_phone_format] accepts passes the phone
    validator of the request model: the latter asks less. Removing the
    white space around a phone does not change what
    [validate_phone_format] answers. *)
Theorem phone_format_implies_schema_phone (phone : string) :
  validation.validate_phone_format (strip phone)
  = validation.validate_phone_format phone
  /\ (validation.validate_phone_format phone = true ->
      CVRequest.validate_phone phone = inr (strip phone)).
Proof.
  assert (E : cleaned_phone (strip phone) = cleaned_phone phone).
  { unfold cleaned_phone, Re.sub_delete. f_equal. rewrite chars_strip.
    apply filter_strip. exact kept_not_space. }
  split.
  - now rewrite !validate_phone_format_eq, E.
  - intros H. rewrite validate_phone_format_eq in H.
    apply andb_true_iff in H as [_ N]. apply normalized_length in N.
    assert (L : (10 <= len (strip phone))%nat).
    { rewrite <- E in N. unfold cleaned_phone, Re.sub_delete, len in *.
      rewrite chars_str in N.
      pose proof (filter_length_le_ascii
                    (fun c => negb (validation.not_digit_or_plus c))
                    (chars (strip phone))). lia. }
    unfold CVRequest.validate_phone.
    pose proof (strip_length phone).
    rewrite truthy_len by lia. simpl.
    destruct (Nat.ltb_spec (len (strip phone)) 10); [lia | reflexivity].
Qed.

Lemma phone_format_implies_schema_phone_witness :
  CVRequest.validate_phone " +1-555-0123-4567 "
  = inr (strip " +1-555-0123-4567 ").
Proof.
  apply (proj2 (phone_format_implies_schema_phone " +1-555-0123-4567 ")).
  vm_compute. reflexivity.
Defined.

(** ** The intake endpoint: what it stores and what it sends *)

Lemma send_cv_email_eq (env : Env) (to_email name : string)
    (company purpose : option string) (w : World) :
  EmailService.send_cv_email env to_email name company purpose w
  = EmailService._send_email env to_email
      "Charles Nwankpa - AI Product Engineer CV"
      (EmailService._generate_cv_email_html env name company purpose)
      (Some (EmailService._generate_cv_email_text env name company purpose))
      (Some (CV_FILE_PATH (settings env))) w.
Proof.
  unfold EmailService.send_cv_email, bind, ret.
  destruct (EmailService._send_email _ _ _ _ _ _ w) as [[e | b] w'];
    reflexivity.
Qed.

Lemma send_email_outbox
    (env : Env) (to_email subject html_content : string)
    (text_content attachment_path : option string) (w : World) :
  exists b w',
    EmailService._send_email env to_email subject html_content
      text_content attachment_path w = (inr b, w')
    /\ leads w' = leads w
    /\ ((outbox w' = outbox w /\ b = false
         /\ exists path e,
             attachment_path = Some path /\ truthy path = true
             /\ path_exists env path = true /\ read_file env path = inl e)
        \/ exists m,
            outbox w' = outbox w ++ [m]
            /\ Message.msg_to m = to_email
            /\ Message.msg_subject m = subject
            /\ Message.html_part m = html_content
            /\ (b = true <-> smtp_send env m = inr tt)).
Proof.
  unfold EmailService._send_email, EmailService.send. run.
  destruct attachment_path as [path |].
  - destruct (truthy path && path_exists env path) eqn:TP.
    + destruct (read_file env path) as [e | data] eqn:R.
      * apply andb_true_iff in TP as [T P].
        exists false, w. repeat split; auto. left.
        repeat split; auto. exists path, e. auto.
      * handed_to_transport.
    + handed_to_transport.
  - handed_to_transport.
Qed.

(** X10. [_send_email] never raises and hands at most one message to
    the transport. Either it hands none and returns [False], and then the
    file to attach exists and could not be read; or it hands exactly one,
    to the address, with the subject and the HTML body it was given, and
    returns [True] exactly when the transport accepts that message. The
    table is not touched. *)
Theorem send_email_hands_one_message
    (env : Env) (to_email subject html_content : string)
    (text_content attachment_path : option string) (w : World) :
  exists b w',
    EmailService._send_email env to_email subject html_content
      text_content attachment_path w = (inr b, w')
    /\ leads w' = leads w
    /\ ((outbox w' = outbox w /\ b = false
         /\ exists path e,
             attachment_path = Some path /\ truthy path = true
             /\ path_exists env path = true /\ read_file env path = inl e)
        \/ exists m,
            outbox w' = outbox w ++ [m]
            /\ Message.msg_to m = to_email
            /\ Message.msg_subject m = subject
            /\ Message.html_part m = html_content
            /\ (b = true <-> smtp_send env m = inr tt)).
Proof.
  apply send_email_outbox.
Qed.

Lemma get_lead_found (lead_id : string) (w : World) (lead : Lead.t) :
  lookup lead_id w = Some lead ->
  admin.get_lead lead_id w = (inr lead, w).
Proof.
  intros F. unfold admin.get_lead, guarded, try_except, bind.
  rewrite (get_lead_by_id_found _ _ F). reflexivity.
Qed.

(** X11. After a request that the intake endpoint answers with success,
    the identifier of the response finds the row of the request: the
    status endpoint reports the status [new] and the creation time of the
    row, and the admin endpoint returns the row, whose source is
    [cv_request], whose consent is given, and which has no notes. The four
    times of the request are four readings of the clock, in this order:
    the time of the consent, [created_at], [updated_at] and the time of
    the response; nothing makes two of them equal. *)
Theorem intake_then_read_back
    (env : Env) (request : cv_request.Request) (cv : CVRequest.t)
    (w w' : World) (resp : cv_request.CVResponse) :
  cv_request.request_cv env request cv w = (inr resp, w') ->
  cv_request.get_cv_request_status (cv_request.request_id resp) w'
  = (inr (cv_request.mkCVStatus (cv_request.request_id resp) "new"
            (utcnow env) true), w')
  /\ (exists lead,
         admin.get_lead (cv_request.request_id resp) w' = (inr lead, w')
         /\ Lead.id lead = cv_request.request_id resp
         /\ Lead.name lead = CVRequest.name cv
         /\ Lead.email lead = CVRequest.email cv
         /\ Lead.source lead = "cv_request"%string
         /\ Lead.status lead = "new"%string
         /\ Lead.consent_given lead = true
         /\ Lead.notes lead = None
         /\ Lead.consent_timestamp lead = utcnow_consent env
         /\ Lead.created_at lead = utcnow env
         /\ Lead.updated_at lead = utcnow_updated env)
  /\ cv_request.timestamp resp = utcnow_response env.
Proof.
  intros H. apply request_cv_returned in H as (_ & F & -> & L).
  assert (K : lookup (uuid4 env) w' = Some (intake_row env request cv)).
  { eapply lookup_app_new; eauto. }
  cbn [intake_success cv_request.request_id]. split; [| split].
  - now rewrite (get_cv_request_status_found _ _ K).
  - exists (intake_row env request cv).
    split; [now apply get_lead_found |]. simpl. repeat split.
  - reflexivity.
Qed.

Lemma intake_then_read_back_witness :
  cv_request.get_cv_request_status
    (cv_request.request_id (intake_success Sample.env_clock))
    (snd (cv_request.request_cv Sample.env_clock Sample.the_request
            Sample.john Sample.three_leads))
  = (inr (cv_request.mkCVStatus
            (cv_request.request_id (intake_success Sample.env_clock)) "new"
            1001 true),
     snd (cv_request.request_cv Sample.env_clock Sample.the_request
            Sample.john Sample.three_leads))
  /\ (exists lead,
         admin.get_lead
           (cv_request.request_id (intake_success Sample.env_clock))
           (snd (cv_request.request_cv Sample.env_clock Sample.the_request
                   Sample.john Sample.three_leads))
         = (inr lead,
            snd (cv_request.request_cv Sample.env_clock Sample.the_request
                   Sample.john Sample.three_leads))
         /\ Lead.consent_timestamp lead = 1000%Z
         /\ Lead.created_at lead = 1001%Z
         /\ Lead.updated_at lead = 1002%Z)
  /\ cv_request.timestamp (intake_success Sample.env_clock) = 1003%Z.
Proof.
  destruct (intake_then_read_back Sample.env_clock Sample.the_request
              Sample.john Sample.three_leads
              (snd (cv_request.request_cv Sample.env_clock Sample.the_request
                      Sample.john Sample.three_leads))
              (intake_success Sample.env_clock))
    as (A & (lead & B & _ & _ & _ & _ & _ & _ & _ & C & D & E) & F).
  - vm_compute. reflexivity.
  - split; [exact A |]. split; [| exact F].
    exists lead. auto.
Defined.

(** X12. When the identifier drawn for a request that violates no rule
    is already the key of a row, the insertion fails: the endpoint answers
    500, no row is added and no message is handed to the transport. *)
Theorem intake_with_a_used_identifier
    (env : Env) (request : cv_request.Request) (cv : CVRequest.t)
    (w : World) (lead : Lead.t) :
  first_violated code_order cv = None ->
  lookup (uuid4 env) w = Some lead ->
  cv_request.request_cv env request cv w
  = (inl (HTTPException 500 "Internal server error. Please try again later."),
     w).
Proof.
  intros V F. exact (request_cv_duplicate_id env request cv w V F).
Qed.

Lemma intake_with_a_used_identifier_witness :
  cv_request.request_cv
    (mkEnv Sample.the_settings "id-2" 1000 1000 (fun _ => true)
       (fun _ => inr []) (fun _ => inr tt) (fun n _ _ => n) (fun n _ _ => n))
    Sample.the_request Sample.john Sample.three_leads
  = (inl (HTTPException 500 "Internal server error. Please try again later."),
     Sample.three_leads).
Proof.
  apply (intake_with_a_used_identifier _ _ _ _ Sample.b_lead);
    vm_compute; reflexivity.
Defined.

(** X13. A request that the intake endpoint answers with success has
    handed at most one message to the transport, addressed to the email of
    the request with the subject of the CV mail. When it has handed none,
    the CV file exists and could not be read: the answer is the success
    response all the same. *)
Theorem intake_sends_to_the_requester
    (env : Env) (request : cv_request.Request) (cv : CVRequest.t)
    (w w' : World) (resp : cv_request.CVResponse) :
  cv_request.request_cv env request cv w = (inr resp, w') ->
  (outbox w' = outbox w
   /\ path_exists env (CV_FILE_PATH (settings env)) = true
   /\ exists e, read_file env (CV_FILE_PATH (settings env)) = inl e)
  \/ exists m,
      outbox w' = outbox w ++ [m]
      /\ Message.msg_to m = CVRequest.email cv
      /\ Message.msg_subject m
         = "Charles Nwankpa - AI Product Engineer CV"%string.
Proof.
  intros H. pose proof H as R.
  apply request_cv_returned in R as (V & F & _ & _).
  destruct (request_cv_accepts env request cv w V F) as (b & w1 & E & R & _).
  rewrite R in H. injection H as _ <-.
  rewrite send_cv_email_eq in E.
  destruct (send_email_outbox env (CVRequest.email cv)
              "Charles Nwankpa - AI Product Engineer CV"
              (EmailService._generate_cv_email_html env (CVRequest.name cv)
                 (CVRequest.company cv) (CVRequest.purpose cv))
              (Some (EmailService._generate_cv_email_text env
                       (CVRequest.name cv) (CVRequest.company cv)
                       (CVRequest.purpose cv)))
              (Some (CV_FILE_PATH (settings env)))
              (mkWorld (leads w ++ [intake_row env request cv]) (outbox w)))
    as (b' & w2 & E' & _ & O).
  rewrite E in E'. injection E' as <- <-.
  destruct O as [(O & _ & path & e & P & _ & X & Y) | (m & O & T & S & _)].
  - left. injection P as <-. split; [exact O |]. split; [exact X |].
    exists e. exact Y.
  - right. exists m. auto.
Qed.

Lemma intake_sends_to_the_requester_witness :
  (outbox (snd (cv_request.request_cv Sample.env_smtp_down Sample.the_request
                  Sample.john Sample.empty_world))
   = outbox Sample.empty_world
   /\ path_exists Sample.env_smtp_down
        (CV_FILE_PATH (settings Sample.env_smtp_down)) = true
   /\ exists e,
       read_file Sample.env_smtp_down
         (CV_FILE_PATH (settings Sample.env_smtp_down)) = inl e)
  \/ exists m,
      outbox (snd (cv_request.request_cv Sample.env_smtp_down
                     Sample.the_request Sample.john Sample.empty_world))
      = outbox Sample.empty_world ++ [m]
      /\ Message.msg_to m = CVRequest.email Sample.john
      /\ Message.msg_subject m
         = "Charles Nwankpa - AI Product Engineer CV"%string.
Proof.
  apply (intake_sends_to_the_requester Sample.env_smtp_down
           Sample.the_request Sample.john Sample.empty_world _
           (intake_success Sample.env_smtp_down)).
  vm_compute. reflexivity.
Defined.

(** X14. The intake endpoint has no idempotency: when the same request
    is accepted twice, the identifiers of the two responses differ and the
    table has gained two rows, which hold the same contact fields. *)
Theorem intake_twice_stores_two_rows
    (env1 env2 : Env) (request : cv_request.Request) (cv : CVRequest.t)
    (w w1 w2 : World) (resp1 resp2 : cv_request.CVResponse) :
  cv_request.request_cv env1 request cv w = (inr resp1, w1) ->
  cv_request.request_cv env2 request cv w1 = (inr resp2, w2) ->
  cv_request.request_id resp1 <> cv_request.request_id resp2
  /\ exists row1 row2,
      leads w2 = leads w ++ [row1; row2]
      /\ Lead.id row1 = cv_request.request_id resp1
      /\ Lead.id row2 = cv_request.request_id resp2
      /\ Lead.name row1 = Lead.name row2
      /\ Lead.email row1 = Lead.email row2
      /\ Lead.phone row1 = Lead.phone row2.
Proof.
  intros H1 H2.
  apply request_cv_returned in H1 as (_ & F1 & -> & L1).
  apply request_cv_returned in H2 as (_ & F2 & -> & L2).
  cbn [intake_success cv_request.request_id]. split.
  - intros E.
    assert (K : lookup (uuid4 env1) w1 = Some (intake_row env1 request cv)).
    { eapply lookup_app_new; eauto. }
    rewrite E in K. congruence.
  - exists (intake_row env1 request cv), (intake_row env2 request cv).
    rewrite L2, L1, <- app_assoc. simpl. repeat split.
Qed.

Lemma intake_twice_stores_two_rows_witness :
  cv_request.request_id (intake_success Sample.env_ok)
  <> cv_request.request_id
       (intake_success
          (mkEnv Sample.the_settings "second-id" 2000 2000 (fun _ => true)
             (fun _ => inr []) (fun _ => inr tt) (fun n _ _ => n)
             (fun n _ _ => n))).
Proof.
  apply (intake_twice_stores_two_rows Sample.env_ok
           (mkEnv Sample.the_settings "second-id" 2000 2000 (fun _ => true)
              (fun _ => inr []) (fun _ => inr tt) (fun n _ _ => n)
              (fun n _ _ => n))
           Sample.the_request Sample.john Sample.empty_world
           (snd (cv_request.request_cv Sample.env_ok Sample.the_request
                   Sample.john Sample.empty_world))
           (snd (cv_request.request_cv
                   (mkEnv Sample.the_settings "second-id" 2000 2000
                      (fun _ => true) (fun _ => inr []) (fun _ => inr tt)
                      (fun n _ _ => n) (fun n _ _ => n))
                   Sample.the_request Sample.john
                   (snd (cv_request.request_cv Sample.env_ok
                           Sample.the_request Sample.john
                           Sample.empty_world)))));
    vm_compute; reflexivity.
Defined.

(** ** The lead store *)

(** The driver accepts the canonical text of a UUID, and refuses every
    text of fewer than 32 characters. *)
Lemma forallb_impl (f g : ascii -> bool) (l : list ascii) :
  (forall c, f c = true -> g c = true) ->
  forallb f l = true -> forallb g l = true.
Proof.
  intros K H. apply forallb_forall. intros c I.
  apply K. rewrite forallb_forall in H. now apply H.
Qed.

Lemma filter_all (f : ascii -> bool) (l : list ascii) :
  forallb f l = true -> filter f l = l.
Proof.
  induction l as [| c l IH]; simpl; auto.
  intros H. apply andb_true_iff in H as [C H]. now rewrite C, IH.
Qed.

Lemma is_hex_is_hex_digit (c : ascii) :
  validation.is_hex c = true -> SQL.is_hex_digit c = true.
Proof.
  unfold validation.is_hex, SQL.is_hex_digit. intros H.
  now rewrite H.
Qed.

Lemma canonical_is_uuid_text (s : string) :
  canonical_uuid s = true -> SQL.uuid_text s = true.
Proof.
  unfold canonical_uuid, SQL.uuid_text, len. intros H.
  apply fullmatch_matches in H.
  pose proof (matches_uuid_length _ H) as L. rewrite L.
  unfold validation.uuid_pattern in H.
  repeat match goal with
         | H : Re.matches (Re.Cat _ _) _ |- _ =>
             apply matches_Cat_inv in H as (? & ? & -> & ? & H)
         end.
  repeat match goal with
         | H : Re.matches (Re.Rep _ _) _ |- _ =>
             apply matches_Rep_cls in H as [? H]
         | H : Re.matches (Re.Chr _) _ |- _ =>
             apply matches_Cls_inv in H as (? & -> & H);
             apply is_char_eq in H; subst
         end.
  rewrite !forallb_app, !filter_app, !length_app.
  repeat match goal with
         | H : forallb validation.is_hex ?l = true |- _ =>
             rewrite (forallb_impl validation.is_hex
                        (fun c => is_char "-" c || SQL.is_hex_digit c) l)
               by (auto; intros c C; rewrite (is_hex_is_hex_digit _ C);
                   apply orb_true_r);
             rewrite (filter_all SQL.is_hex_digit l)
               by (apply (forallb_impl validation.is_hex); auto;
                   apply is_hex_is_hex_digit);
             clear H
         end.
  repeat match goal with
         | H : List.length _ = _ |- _ => rewrite H; clear H
         end.
  reflexivity.
Qed.

Lemma short_is_not_uuid_text (s : string) :
  (len s < 32)%nat -> SQL.uuid_text s = false.
Proof.
  intros H. unfold SQL.uuid_text.
  apply Nat.leb_gt in H. rewrite H. reflexivity.
Qed.











(** ** The admin endpoints on one lead *)

Lemma find_filter_other (lead_id other : string) (l : list Lead.t) :
  other <> lead_id ->
  find (fun r => String.eqb (Lead.id r) other)
    (filter (fun r => negb (String.eqb (Lead.id r) lead_id)) l)
  = find (fun r => String.eqb (Lead.id r) other) l.
Proof.
  intros N. induction l as [| x l IH]; simpl; auto.
  destruct (String.eqb_spec (Lead.id x) lead_id) as [E | E]; simpl.
  - destruct (String.eqb_spec (Lead.id x) other); [congruence | exact IH].
  - destruct (String.eqb (Lead.id x) other); auto.
Qed.

Lemma find_filter_same (lead_id : string) (l : list Lead.t) :
  find (fun r => String.eqb (Lead.id r) lead_id)
    (filter (fun r => negb (String.eqb (Lead.id r) lead_id)) l)
  = None.
Proof.
  induction l as [| x l IH]; simpl; auto.
  destruct (String.eqb (Lead.id x) lead_id) eqn:E; simpl; auto.
  now rewrite E.
Qed.

(** The answers of the endpoints that work on one lead, by what the
    identifier finds. *)
Lemma get_cv_request_status_eq (request_id : string) (w : World) :
  cv_request.get_cv_request_status request_id w
  = match lookup request_id w with
    | Some lead =>
        (inr (cv_request.mkCVStatus request_id (Lead.status lead)
                (Lead.created_at lead) true), w)
    | None =>
        if SQL.uuid_text request_id
        then (inl (HTTPException 404 "Request not found"), w)
        else (inl (HTTPException 500 "Internal server error"), w)
    end.
Proof.
  unfold cv_request.get_cv_request_status, guarded, try_except, bind.
  rewrite get_lead_by_id_eq.
  destruct (lookup request_id w); [reflexivity |].
  destruct (SQL.uuid_text request_id); reflexivity.
Qed.

Lemma get_lead_eq (lead_id : string) (w : World) :
  admin.get_lead lead_id w
  = match lookup lead_id w with
    | Some lead => (inr lead, w)
    | None =>
        if SQL.uuid_text lead_id
        then (inl (HTTPException 404 "Lead not found"), w)
        else (inl (HTTPException 500 "Failed to fetch lead"), w)
    end.
Proof.
  unfold admin.get_lead, guarded, try_except, bind.
  rewrite get_lead_by_id_eq.
  destruct (lookup lead_id w); [reflexivity |].
  destruct (SQL.uuid_text lead_id); reflexivity.
Qed.

Lemma delete_lead_eq (lead_id : string) (w : World) :
  admin.delete_lead lead_id w
  = match lookup lead_id w with
    | Some _ =>
        (inr (admin.mkResponseMessage true "Lead deleted successfully"),
         mkWorld
           (filter (fun r => negb (String.eqb (Lead.id r) lead_id)) (leads w))
           (outbox w))
    | None =>
        if SQL.uuid_text lead_id
        then (inl (HTTPException 404 "Lead not found"), w)
        else (inl (HTTPException 500 "Failed to delete lead"), w)
    end.
Proof.
  unfold admin.delete_lead, guarded, try_except, bind.
  rewrite get_lead_by_id_eq.
  destruct (lookup lead_id w) as [lead |] eqn:F.
  - unfold SQL.delete, bind, lift.
    change (SQL.bindparams ["lead_id"%string] ["lead_id"%string])
      with (inr tt : Raises unit).
    cbv beta iota. rewrite uuid_param_eq, F. reflexivity.
  - destruct (SQL.uuid_text lead_id); reflexivity.
Qed.

(** X17. Deleting a lead that exists returns the message of success and
    removes its row and nothing else: the identifier finds no row any
    more, every other identifier finds what it found, and the messages
    are untouched. After it the status endpoint and a second delete answer
    404 for that identifier, which is the canonical text of a UUID as
    every identifier the table has held. *)
Theorem delete_lead_removes_the_row
    (lead_id : string) (w : World) (lead : Lead.t) :
  lookup lead_id w = Some lead ->
  exists w',
    admin.delete_lead lead_id w
    = (inr (admin.mkResponseMessage true "Lead deleted successfully"), w')
    /\ leads w'
       = filter (fun r => negb (String.eqb (Lead.id r) lead_id)) (leads w)
    /\ outbox w' = outbox w
    /\ lookup lead_id w' = None
    /\ (forall other, other <> lead_id -> lookup other w' = lookup other w)
    /\ (canonical_uuid lead_id = true ->
        cv_request.get_cv_request_status lead_id w'
        = (inl (HTTPException 404 "Request not found"), w')
        /\ admin.delete_lead lead_id w'
           = (inl (HTTPException 404 "Lead not found"), w')).
Proof.
  intros F. rewrite delete_lead_eq, F.
  set (w' := mkWorld
               (filter (fun r => negb (String.eqb (Lead.id r) lead_id))
                  (leads w)) (outbox w)).
  assert (N : lookup lead_id w' = None) by apply find_filter_same.
  exists w'. repeat split; auto.
  - intros other O. now apply find_filter_other.
  - apply canonical_is_uuid_text in H.
    now rewrite get_cv_request_status_eq, N, H.
  - apply canonical_is_uuid_text in H.
    now rewrite delete_lead_eq, N, H.
Qed.

Lemma delete_lead_removes_the_row_witness :
  exists w',
    admin.delete_lead "6f9619ff-8b86-d011-b42d-00c04fc964ff"
      Sample.four_leads
    = (inr (admin.mkResponseMessage true "Lead deleted successfully"), w')
    /\ leads w' = leads Sample.three_leads
    /\ outbox w' = outbox Sample.four_leads
    /\ lookup "6f9619ff-8b86-d011-b42d-00c04fc964ff" w' = None
    /\ lookup "id-2" w' = lookup "id-2" Sample.four_leads
    /\ cv_request.get_cv_request_status
         "6f9619ff-8b86-d011-b42d-00c04fc964ff" w'
       = (inl (HTTPException 404 "Request not found"), w')
    /\ admin.delete_lead "6f9619ff-8b86-d011-b42d-00c04fc964ff" w'
       = (inl (HTTPException 404 "Lead not found"), w').
Proof.
  destruct (delete_lead_removes_the_row
              "6f9619ff-8b86-d011-b42d-00c04fc964ff" Sample.four_leads
              Sample.d_lead)
    as (w' & A & B & C & D & E & F).
  - vm_compute. reflexivity.
  - exists w'. split; [exact A |]. split; [rewrite B; reflexivity |].
    split; [exact C |]. split; [exact D |].
    split; [apply E; discriminate |].
    apply F. vm_compute. reflexivity.
Defined.

(** X18. For an identifier that no row has, the four endpoints that
    work on one lead (the status endpoint, and the read, the update,
    whatever the payload, and the delete of the admin) leave the world as
    it is, and answer by the form of the identifier: 404 when it is the
    canonical text of a UUID, and 500 when it is too short to be the text
    of a UUID, the error of the driver being caught by the handler of
    each endpoint. *)
Theorem unknown_lead_is_404_or_500 (env : Env) (lead_id : string)
    (lead_update : LeadUpdate.t) (w : World) :
  lookup lead_id w = None ->
  (canonical_uuid lead_id = true ->
   cv_request.get_cv_request_status lead_id w
   = (inl (HTTPException 404 "Request not found"), w)
   /\ admin.get_lead lead_id w
      = (inl (HTTPException 404 "Lead not found"), w)
   /\ admin.update_lead env lead_id lead_update w
      = (inl (HTTPException 404 "Lead not found"), w)
   /\ admin.delete_lead lead_id w
      = (inl (HTTPException 404 "Lead not found"), w))
  /\ ((len lead_id < 32)%nat ->
      cv_request.get_cv_request_status lead_id w
      = (inl (HTTPException 500 "Internal server error"), w)
      /\ admin.get_lead lead_id w
         = (inl (HTTPException 500 "Failed to fetch lead"), w)
      /\ admin.update_lead env lead_id lead_update w
         = (inl (HTTPException 500 "Failed to update lead"), w)
      /\ admin.delete_lead lead_id w
         = (inl (HTTPException 500 "Failed to delete lead"), w)).
Proof.
  intros N.
  rewrite get_cv_request_status_eq, get_lead_eq, update_lead_eq,
    delete_lead_eq, N.
  split; intros H.
  - apply canonical_is_uuid_text in H. rewrite H. auto.
  - apply short_is_not_uuid_text in H. rewrite H. auto.
Qed.

Lemma unknown_lead_is_404_or_500_witness :
  (cv_request.get_cv_request_status "123e4567-e89b-12d3-a456-426614174000"
     Sample.three_leads
   = (inl (HTTPException 404 "Request not found"), Sample.three_leads)
   /\ admin.get_lead "123e4567-e89b-12d3-a456-426614174000"
        Sample.three_leads
      = (inl (HTTPException 404 "Lead not found"), Sample.three_leads)
   /\ admin.update_lead Sample.env_ok "123e4567-e89b-12d3-a456-426614174000"
        Sample.set_qualified Sample.three_leads
      = (inl (HTTPException 404 "Lead not found"), Sample.three_leads)
   /\ admin.delete_lead "123e4567-e89b-12d3-a456-426614174000"
        Sample.three_leads
      = (inl (HTTPException 404 "Lead not found"), Sample.three_leads))
  /\ (cv_request.get_cv_request_status "no-such-id" Sample.three_leads
      = (inl (HTTPException 500 "Internal server error"), Sample.three_leads)
      /\ admin.get_lead "no-such-id" Sample.three_leads
         = (inl (HTTPException 500 "Failed to fetch lead"),
            Sample.three_leads)
      /\ admin.update_lead Sample.env_ok "no-such-id" Sample.set_qualified
           Sample.three_leads
         = (inl (HTTPException 500 "Failed to update lead"),
            Sample.three_leads)
      /\ admin.delete_lead "no-such-id" Sample.three_leads
         = (inl (HTTPException 500 "Failed to delete lead"),
            Sample.three_leads)).
Proof.
  split.
  - apply (unknown_lead_is_404_or_500 Sample.env_ok
             "123e4567-e89b-12d3-a456-426614174000" Sample.set_qualified
             Sample.three_leads);
      vm_compute; reflexivity.
  - apply (unknown_lead_is_404_or_500 Sample.env_ok "no-such-id"
             Sample.set_qualified Sample.three_leads);
      [vm_compute; reflexivity | unfold len; simpl; lia].
Defined.

(** X19. The update endpoint never changes a row. Whatever the
    identifier and the payload, the world after the call is the world
    before it, and the answer is never the message of success of an
    update: it is the message of no change, which only a payload with no
    field can get, or an error 404 or 500; a payload with a field always
    gets one of the two errors. *)
Theorem update_lead_changes_nothing (env : Env) (lead_id : string)
    (lead_update : LeadUpdate.t) (w : World) :
  snd (admin.update_lead env lead_id lead_update w) = w
  /\ fst (admin.update_lead env lead_id lead_update w)
     <> inr (admin.mkResponseMessage true "Lead updated successfully")
  /\ (fst (admin.update_lead env lead_id lead_update w)
      = inr (admin.mkResponseMessage true "No changes to update")
      /\ lead_update = empty_update
      \/ fst (admin.update_lead env lead_id lead_update w)
         = inl (HTTPException 404 "Lead not found")
      \/ fst (admin.update_lead env lead_id lead_update w)
         = inl (HTTPException 500 "Failed to update lead")).
Proof.
  rewrite update_lead_eq.
  destruct (lookup lead_id w) as [lead |].
  - destruct (admin.update_fields lead_update) as [| a fields] eqn:U;
      cbn [fst snd].
    + apply update_fields_empty in U.
      repeat split; auto. discriminate.
    + repeat split; auto. discriminate.
  - destruct (SQL.uuid_text lead_id); cbn [fst snd];
      repeat split; auto; discriminate.
Qed.

(** ** Aggregates *)

Lemma count_when_bounds (c : Lead.t -> bool) (rows : list Lead.t) :
  (0 <= SQL.count_when c rows <= Z.of_nat (List.length rows))%Z.
Proof.
  unfold SQL.count_when.
  assert (L : (List.length (filter c rows) <= List.length rows)%nat).
  { induction rows as [| x l IH]; simpl; auto. destruct (c x); simpl; lia. }
  lia.
Qed.

Lemma count_when_disjoint (c d : Lead.t -> bool) (rows : list Lead.t) :
  (forall r, c r = true -> d r = false) ->
  (SQL.count_when c rows + SQL.count_when d rows
   <= Z.of_nat (List.length rows))%Z.
Proof.
  intros D. unfold SQL.count_when.
  assert (L : (List.length (filter c rows) + List.length (filter d rows)
               <= List.length rows)%nat).
  { induction rows as [| x l IH]; simpl; auto.
    destruct (c x) eqn:C.
    - rewrite (D _ C). simpl. lia.
    - destruct (d x); simpl; lia. }
  lia.
Qed.

Lemma filter_idem (f : Lead.t -> bool) (l : list Lead.t) :
  filter f (filter f l) = filter f l.
Proof.
  induction l as [| x l IH]; simpl; auto.
  destruct (f x) eqn:E; simpl; [now rewrite E, IH | exact IH].
Qed.

Lemma sum_of_ones (l : list Z) :
  Forall (fun v => v = 1%Z) l ->
  fold_right Z.add 0%Z l = Z.of_nat (List.length l).
Proof.
  induction 1 as [| v l -> _ IH]; cbn [fold_right List.length];
    [reflexivity |].
  rewrite IH, Nat2Z.inj_succ. lia.
Qed.

Lemma avg_of_ones (l : list Z) :
  l <> [] -> Forall (fun v => v = 1%Z) l ->
  SQL.avg l = Some (QArith_base.Qmake 1 1).
Proof.
  intros N F. unfold SQL.avg. destruct l as [| v t]; [congruence |].
  f_equal. rewrite (sum_of_ones _ F).
  change (QArith_base.Qmake 1 1)
    with (Qreduction.Qred (QArith_base.Qmake 1 1)).
  apply Qreduction.Qred_complete. unfold QArith_base.Qeq.
  cbn [QArith_base.Qnum QArith_base.Qden].
  assert (P : Zpos (Pos.of_nat (List.length (v :: t)))
              = Z.of_nat (List.length (v :: t))).
  { rewrite <- Znat.positive_nat_Z, Nat2Pos.id by discriminate.
    reflexivity. }
  rewrite P. lia.
Qed.

(** X21. [get_lead_analytics] leaves the world as it is. It raises
    when the database cannot compute the start of the window, [NOW()]
    less the interval of [days] days, and then raises the error of the
    database. Otherwise its counts are those of the rows created since
    that time: none is negative or above [total_leads], and the two
    per-source counts together do not exceed it. [recent_rate] carries no
    information: it is [NULL] when the window has no row and exactly 1
    otherwise, as it averages over the rows of the window the condition
    that selects them. *)
Theorem lead_analytics_counts (db : Database) (days : Z) (w : World) :
  match now_minus_days db days with
  | inl e => LeadService.get_lead_analytics db days w = (inl e, w)
  | inr start =>
      exists a,
        LeadService.get_lead_analytics db days w = (inr a, w)
        /\ SQL.total_leads a
           = SQL.count_when (fun r => (start <=? Lead.created_at r)%Z)
               (leads w)
        /\ (0 <= SQL.total_leads a <= Z.of_nat (List.length (leads w)))%Z
        /\ (0 <= SQL.qualified_leads a <= SQL.total_leads a)%Z
        /\ (0 <= SQL.with_company a <= SQL.total_leads a)%Z
        /\ (0 <= SQL.cv_requests a)%Z /\ (0 <= SQL.calendly_bookings a)%Z
        /\ (SQL.cv_requests a + SQL.calendly_bookings a
            <= SQL.total_leads a)%Z
        /\ ((SQL.total_leads a = 0%Z /\ SQL.recent_rate a = None)
            \/ ((0 < SQL.total_leads a)%Z
                /\ SQL.recent_rate a = Some (QArith_base.Qmake 1 1)))
  end.
Proof.
  unfold LeadService.get_lead_analytics, SQL.lead_analytics. run.
  destruct (now_minus_days db days) as [e | start]; [reflexivity |].
  unfold SQL.aggregates.
  set (recent := fun r => (start <=? Lead.created_at r)%Z).
  set (rows := filter recent (leads w)).
  eexists. split; [reflexivity |].
  cbn [SQL.total_leads SQL.qualified_leads SQL.with_company SQL.cv_requests
       SQL.calendly_bookings SQL.recent_rate].
  split; [reflexivity |].
  split.
  { pose proof (count_when_bounds recent (leads w)) as B.
    unfold SQL.count_when in B. exact B. }
  split; [apply count_when_bounds |].
  split; [apply count_when_bounds |].
  split; [apply count_when_bounds |].
  split; [apply count_when_bounds |].
  split.
  { apply count_when_disjoint. intros r C.
    apply String.eqb_eq in C. rewrite C. reflexivity. }
  destruct rows as [| x t] eqn:R.
  - left. split; reflexivity.
  - right. split; [simpl List.length; lia |].
    rewrite <- R. apply avg_of_ones.
    + rewrite R. discriminate.
    + apply Forall_forall. intros v I. apply in_map_iff in I as (r & <- & I).
      unfold rows in I. apply filter_In in I as [_ I].
      unfold recent in *. cbv beta in *. now rewrite I.
Qed.

(** X22. The dashboard reports as the total of requests the number of
    requests of the period: in [portfolio_query] both counts are taken
    over the rows created since [start_date], so they are equal whatever
    the table, and rows older than the period are in neither. The
    qualified and the converted leads are disjoint parts of that count. *)
Theorem portfolio_total_is_period (start_date : Z) (rows : list Lead.t) :
  let p := analytics.portfolio_query start_date rows in
  analytics.total_requests p = analytics.period_requests p
  /\ analytics.total_requests p
     = SQL.count_when (fun r => (start_date <=? Lead.created_at r)%Z) rows
  /\ (0 <= analytics.qualified_leads p)%Z
  /\ (0 <= analytics.converted_leads p)%Z
  /\ (analytics.qualified_leads p + analytics.converted_leads p
      <= analytics.period_requests p)%Z.
Proof.
  unfold analytics.portfolio_query.
  cbn [analytics.total_requests analytics.period_requests
       analytics.qualified_leads analytics.converted_leads].
  set (since := fun r => (start_date <=? Lead.created_at r)%Z).
  assert (E : SQL.count_when since (filter since rows)
              = Z.of_nat (List.length (filter since rows))).
  { unfold SQL.count_when. now rewrite filter_idem. }
  split; [now rewrite E |]. split; [reflexivity |].
  split; [apply count_when_bounds |]. split; [apply count_when_bounds |].
  rewrite E. apply count_when_disjoint. intros r C.
  apply String.eqb_eq in C. rewrite C. reflexivity.
Qed.

(** *** Categories of roles *)

Lemma starts_with_spec (p l : list ascii) :
  starts_with p l = true <-> exists post, l = p ++ post.
Proof.
  revert l. induction p as [| a p IH]; intros l; simpl.
  - split; eauto.
  - destruct l as [| b l].
    + split; [discriminate | intros [post E]; discriminate].
    + rewrite andb_true_iff, Ascii.eqb_eq, IH. split.
      * intros [-> [post ->]]. eauto.
      * intros [post E]. injection E as -> ->. eauto.
Qed.

Lemma contains_spec (p l : list ascii) :
  contains p l = true <-> exists pre post, l = pre ++ p ++ post.
Proof.
  induction l as [| b l IH]; simpl.
  - rewrite orb_false_r, starts_with_spec. split.
    + intros [post E]. exists [], post. exact E.
    + intros (pre & post & E). destruct pre as [| x pre]; [eauto |].
      discriminate.
  - rewrite orb_true_iff, starts_with_spec, IH. split.
    + intros [[post E] | (pre & post & E)].
      * exists [], post. exact E.
      * exists (b :: pre), post. now rewrite E.
    + intros (pre & post & E). destruct pre as [| x pre].
      * left. eauto.
      * right. injection E as -> E. eauto.
Qed.

Lemma director_holds_cto (l : list ascii) :
  contains (chars "director") l = true -> contains (chars "cto") l = true.
Proof.
  rewrite !contains_spec. intros (pre & post & ->).
  exists (pre ++ chars "dire"), (chars "r" ++ post).
  simpl. rewrite <- !app_assoc. reflexivity.
Qed.

(** X23. In the role categories of the dashboard the word [director]
    never leads to [management]: it holds the letters [cto], which an
    earlier branch of the [CASE] takes. A role with [director] in it is
    counted as [founder] or as [cto], and a role counted as [management]
    has [manager] in it. *)
Theorem director_is_never_management :
  (forall role,
      analytics.like "director" role = true ->
      analytics.role_category role = "founder"%string
      \/ analytics.role_category role = "cto"%string)
  /\ (forall role,
         analytics.role_category role = "management"%string ->
         analytics.like "manager" role = true
         /\ analytics.like "director" role = false).
Proof.
  assert (D : forall role,
             analytics.like "director" role = true ->
             analytics.like "cto" role = true).
  { intros role. unfold analytics.like. apply director_holds_cto. }
  split.
  - intros role H. apply D in H. unfold analytics.role_category.
    destruct (analytics.like "founder" role || analytics.like "ceo" role);
      [now left |].
    rewrite H. now right.
  - intros role. unfold analytics.role_category.
    destruct (analytics.like "founder" role || analytics.like "ceo" role);
      [discriminate |].
    destruct (analytics.like "cto" role) eqn:C; [discriminate |].
    simpl orb.
    destruct (analytics.like "technical" role); [discriminate |].
    destruct (analytics.like "recruiter" role || analytics.like "hr" role);
      [discriminate |].
    destruct (analytics.like "director" role) eqn:Di.
    + apply D in Di. congruence.
    + destruct (analytics.like "manager" role); [auto |]. simpl.
      destruct (analytics.like "engineer" role
                || analytics.like "developer" role); discriminate.
Qed.

Lemma director_is_never_management_witness :
  (analytics.role_category "Managing Director" = "founder"%string
   \/ analytics.role_category "Managing Director" = "cto"%string)
  /\ analytics.like "manager" "Product Manager" = true
  /\ analytics.like "director" "Product Manager" = false.
Proof.
  destruct director_is_never_management as (A & B).
  split.
  - apply A. vm_compute. reflexivity.
  - apply B. vm_compute. reflexivity.
Defined.

(** ** Authentication of the admin *)

(** X24. [get_current_admin] lets in active admins only: what it returns
    is a row of [admins] that is active and whose identifier is the
    subject of the token. Every other outcome is a 401, but for an
    [HTTPException] that the decoding of the token itself raised, which
    is passed on. *)
Theorem get_current_admin_outcomes (sec : admin.Security)
    (credentials : string) (admins : list Admin.t) :
  match admin.get_current_admin sec credentials admins with
  | inr a =>
      In a admins
      /\ Admin.is_active a = true
      /\ admin.decode_access_token sec credentials = inr (Some (Admin.id a))
  | inl e =>
      (exists detail, e = HTTPException 401 detail)
      \/ (admin.decode_access_token sec credentials = inl e
          /\ exists code detail, e = HTTPException code detail)
  end.
Proof.
  unfold admin.get_current_admin, admin.guarded_pure.
  destruct (admin.decode_access_token sec credentials) as [e | payload].
  - destruct e; eauto 6.
  - destruct payload as [admin_id |]; [| eauto].
    destruct (truthy admin_id); simpl; [| eauto].
    unfold admin.active_admin_by_id.
    destruct (find _ admins) as [a |] eqn:F; [| eauto].
    apply find_some in F as [I F]. apply andb_true_iff in F as [E A].
    apply String.eqb_eq in E. subst. auto.
Qed.



Lemma touch_last_login_other (now : Z) (admin_id : string)
    (admins : list Admin.t) (a : Admin.t) :
  In a admins -> Admin.id a <> admin_id ->
  In a (admin.touch_last_login now admin_id admins).
Proof.
  intros I N. unfold admin.touch_last_login. apply in_map_iff.
  exists a. split; [| exact I].
  destruct (String.eqb_spec (Admin.id a) admin_id); [contradiction | auto].
Qed.

(** X26. A login with the username of an active admin and the right
    password records [last_login] before the token is made. When the
    token is made, the answer is a bearer token for the identifier of that
    admin; when making it raises, the answer is an error and the
    [last_login] is recorded all the same. In both cases the admin has
    [last_login] at the time of the login and the rows of the other
    admins are kept. *)
Theorem admin_login_records_last_login (sec : admin.Security) (env : Env)
    (login_data : admin.LoginRequest) (admins : list Admin.t) (a : Admin.t) :
  admin.active_admin_by_username (admin.username login_data) admins = Some a ->
  admin.verify_password sec (admin.password login_data)
    (Admin.hashed_password a) = inr true ->
  exists answer admins',
    admin.admin_login sec env login_data admins = (answer, admins')
    /\ match admin.create_access_token sec (Admin.id a) with
       | inr token => answer = inr (admin.mkTokenResponse token "bearer")
       | inl (HTTPException c d) => answer = inl (HTTPException c d)
       | inl _ => answer = inl (HTTPException 500 "Login failed")
       end
    /\ In (Admin.mk (Admin.id a) (Admin.email a) (Admin.username a)
             (Admin.full_name a) (Admin.hashed_password a)
             (Admin.is_active a) (Admin.is_superuser a)
             (Some (CURRENT_TIMESTAMP env))) admins'
    /\ List.length admins' = List.length admins
    /\ forall b, In b admins -> Admin.id b <> Admin.id a -> In b admins'.
Proof.
  intros F V. unfold admin.admin_login. rewrite F, V.
  apply find_some in F as [I _].
  exists (match admin.create_access_token sec (Admin.id a) with
          | inr token => inr (admin.mkTokenResponse token "bearer")
          | inl e => admin.guarded_pure 500 "Login failed" (inl e)
          end),
    (admin.touch_last_login (CURRENT_TIMESTAMP env) (Admin.id a) admins).
  split; [| split; [| split; [| split]]].
  - destruct (admin.create_access_token sec (Admin.id a)); reflexivity.
  - destruct (admin.create_access_token sec (Admin.id a)) as [e | token];
      [destruct e |]; reflexivity.
  - unfold admin.touch_last_login. apply in_map_iff.
    exists a. split; [| exact I]. now rewrite String.eqb_refl.
  - unfold admin.touch_last_login. apply length_map.
  - intros b Ib N. now apply touch_last_login_other.
Qed.

Lemma admin_login_records_last_login_witness :
  exists answer admins',
    admin.admin_login Sample.plain_security Sample.env_ok
      (admin.mkLoginRequest "ada" "s3cretpass") Sample.two_admins
    = (answer, admins')
    /\ answer = inr (admin.mkTokenResponse "admin-1" "bearer")
    /\ In (Admin.mk "admin-1" "ada@example.org" "ada" "Ada King"
             "s3cretpass" true true (Some 1000%Z)) admins'.
Proof.
  destruct (admin_login_records_last_login Sample.plain_security
              Sample.env_ok (admin.mkLoginRequest "ada" "s3cretpass")
              Sample.two_admins Sample.ada eq_refl eq_refl)
    as (answer & admins' & E & A & I & _).
  exists answer, admins'. auto.
Defined.

(** ** The notification of the admin *)

(** X27. [send_admin_notification] raises [KeyError] to its caller, with
    nothing sent, when the dictionary lacks [name], [email] or [phone].
    With the three keys it never raises: it hands one message to the
    transport, addressed to the sender's own address, with no text part
    and no attachment, and returns whether the transport accepted it; the
    table is not touched. A [company] key whose value is [None] puts the
    word [None] in the subject: the default is used for a missing key
    only. *)
Theorem admin_notification_outcomes (env : Env)
    (lead_data : EmailService.Dict) :
  (EmailService.dict_get "name" lead_data = None
   \/ EmailService.dict_get "email" lead_data = None
   \/ EmailService.dict_get "phone" lead_data = None ->
   exists key,
     EmailService.send_admin_notification env lead_data = inl key
     /\ EmailService.dict_get key lead_data = None
     /\ (key = "name" \/ key = "email" \/ key = "phone")%string)
  /\ (forall name email phone,
         EmailService.dict_get "name" lead_data = Some name ->
         EmailService.dict_get "email" lead_data = Some email ->
         EmailService.dict_get "phone" lead_data = Some phone ->
         exists send,
           EmailService.send_admin_notification env lead_data = inr send
           /\ forall w,
               exists b m,
                 send w = (inr b, mkWorld (leads w) (outbox w ++ [m]))
                 /\ Message.msg_to m = EMAIL_FROM (settings env)
                 /\ Message.text_part m = None
                 /\ Message.attachment m = None
                 /\ (b = true <-> smtp_send env m = inr tt)
                 /\ (EmailService.dict_get "company" lead_data = Some None ->
                     Message.msg_subject m
                     = ("New CV Request: " ++ EmailService.py_str name
                        ++ " (None)")%string)
                 /\ (EmailService.dict_get "company" lead_data = None ->
                     Message.msg_subject m
                     = ("New CV Request: " ++ EmailService.py_str name
                        ++ " (No company)")%string)).
Proof.
  unfold EmailService.send_admin_notification, EmailService.item.
  split.
  - intros H.
    destruct (EmailService.dict_get "name" lead_data) eqn:N; [| eauto 6].
    destruct (EmailService.dict_get "email" lead_data) eqn:E; [| eauto 7].
    destruct (EmailService.dict_get "phone" lead_data) eqn:P; [| eauto 8].
    destruct H as [H | [H | H]]; discriminate.
  - intros name email phone N E P. rewrite N, E, P.
    eexists. split; [reflexivity |]. intros w.
    unfold EmailService._send_email, EmailService.send. run.
    cbn [truthy_opt].
    match goal with
    | |- context [smtp_send env ?m] =>
        destruct (smtp_send env m) as [e | []] eqn:S;
        [exists false, m | exists true, m]
    end;
      (split; [reflexivity |]);
      cbn [Message.msg_to Message.text_part Message.attachment
           Message.msg_subject];
      rewrite S; unfold EmailService.get_or;
      repeat split; auto; try discriminate;
      intros C; rewrite C; reflexivity.
Qed.

Lemma admin_notification_outcomes_witness :
  (exists key,
      EmailService.send_admin_notification Sample.env_ok
        [("email"%string, Some "john@x.com"%string)] = inl key
      /\ EmailService.dict_get key [("email"%string, Some "john@x.com"%string)]
         = None
      /\ (key = "name" \/ key = "email" \/ key = "phone")%string)
  /\ exists send,
      EmailService.send_admin_notification Sample.env_ok
        [("name"%string, Some "John Smith"%string);
         ("email"%string, Some "john@x.com"%string);
         ("phone"%string, Some "+15550123456"%string);
         ("company"%string, None)] = inr send.
Proof.
  split.
  - apply (proj1 (admin_notification_outcomes Sample.env_ok _)).
    left. vm_compute. reflexivity.
  - destruct (proj2 (admin_notification_outcomes Sample.env_ok
                       [("name"%string, Some "John Smith"%string);
                        ("email"%string, Some "john@x.com"%string);
                        ("phone"%string, Some "+15550123456"%string);
                        ("company"%string, None)])
                _ _ _ eq_refl eq_refl eq_refl) as (send & E & _).
    exists send. exact E.
Defined.
